(** * Study-group chat application: a shallow embedding and its properties

    The development follows the repository file by file:

    - [Js]        the JavaScript values and completions the client code handles;
    - [Lib]       the database client wrapper ([lib/supabase.ts]): the realtime
                  health check, [cleanup], [retryOperation] and [signOut];
    - [Schema]    the tables, constraints, policies and triggers of the SQL
                  migrations;
    - [Client]    the backend and the random sources as a component sees them;
    - [Find], [Dash], [Prof]   the handlers of [FindPersonModal.tsx],
                  [Dashboard.tsx] and [Profile.tsx];
    - [Join]      the join handler, which the sources only import;
    - [Auth], [Msgs]   the handlers of [Auth.tsx] and the rendering of
                  [MessageList.tsx];
    - [Sample], [Fixture]   data on which the definitions are run.

    Everything that lives outside the repository (the hosted SDK, the browser,
    the random sources) is an oracle.  In [Lib] an oracle is a function of the
    history of calls made so far, so that an external call may answer
    differently each time. *)

From stdpp Require Import base strings list gmap pretty.
From Stdlib Require Import ZArith Lia Sorted Ascii.
From Stdlib Require Uint63.
From Stdlib Require Import PrimFloat.
From Equations Require Import Equations.

Open Scope Z_scope.

(** ** JavaScript values *)

Module Js.

(** The part of [any] the handlers look at.  [Error] is an [Error] object with
    its message; [object] is a plain object with its own fields. *)
#[warning="-register-all"]
Inductive any : Type :=
| undefined
| null
| boolean (b : bool)
| number (n : Z)
| text (s : string)
| Error (message : string)
| object (fields : list (string * any)).

(** Truthiness, as [if (x)] and [x || y] test it. *)
Definition truthy (v : any) : bool :=
  match v with
  | undefined | null => false
  | boolean b => b
  | number n => negb (n =? 0)
  | text s => negb (String.eqb s "")
  | Error _ | object _ => true
  end.

(** [v === s] for a string literal [s]. *)
Definition strict_eq_text (v : any) (s : string) : bool :=
  match v with
  | text s' => String.eqb s' s
  | _ => false
  end.

(** How a call ends: it returns (a promise fulfils) or it throws (a promise
    rejects; [await] turns the rejection into a throw). *)
Inductive completion (A : Type) : Type :=
| Normal (a : A)
| Throw (e : any).
Arguments Normal {A} a.
Arguments Throw {A} e.

End Js.
Export Js.

(** ** The client wrapper, [lib/supabase.ts] *)

Module Lib.

(** A realtime channel handle of the SDK. *)
Definition channel := nat.

(** The calls the module makes to the outside, in the order it makes them. *)
Inductive event : Type :=
| Operation                                   (* operation() *)
| SetTimeout (ms : Z)                         (* setTimeout(resolve, ms) *)
| HealthCheck                                 (* entry of checkRealtimeHealth *)
| Channel (topic : string)                    (* supabase.channel(topic) *)
| Subscribe                                   (* channel.subscribe(cb) *)
| Unsubscribe                                 (* channel.unsubscribe() *)
| RemoveSubscribed                            (* supabase.removeChannel(channel) in the callback *)
| ClearInterval                               (* clearInterval(realtimeHealthCheck) *)
| GetChannels                                 (* supabase.getChannels() *)
| UnsubscribeChannel (c : channel)            (* channel.unsubscribe() in cleanup *)
| RemoveChannel (c : channel)                 (* supabase.removeChannel(c) *)
| RemoveItem (key : string)                   (* window.localStorage.removeItem(key) *)
| AuthSignOut                                 (* supabase.auth.signOut() *)
| SetHref (url : string)                      (* window.location.href = url *)
| ConsoleWarn (msg : string)
| ConsoleError (msg : string) (e : any).

Definition history := list event.

(** The module-scoped variables and the browser state the module writes. *)
Record world : Type := World {
  isConnected : bool;
  realtimeHealthCheck : bool;            (* is the interval handle set (truthy)? *)
  localStorage : gmap string string;
  href : string;
  trace : history
}.

(** What the SDK and the browser answer.  Every answer may depend on the
    calls made so far. *)
Record sdk : Type := Sdk {
  (* supabase.channel('system') *)
  channel_returns : history -> completion channel;
  (* await channel.subscribe(cb): the statuses handed to [cb] before the
     await resumes, then the awaited value *)
  subscribe_settles : history -> completion (list any * any);
  getChannels_returns : history -> completion (list channel);
  removeChannel_returns : history -> completion unit;
  unsubscribe_returns : history -> completion unit;
  removeItem_returns : history -> completion unit;
  (* supabase.auth.storageKey: a string, or undefined *)
  storageKey : option string;
  (* await supabase.auth.signOut(): the [error] field of the response *)
  auth_signOut_settles : history -> completion any
}.

(** Computations of the module: they read and write the [world] and end in a
    [completion]. *)
Definition M (A : Type) : Type := world -> completion A * world.

Definition ret {A} (a : A) : M A := fun w => (Normal a, w).

Definition bind {A B} (m : M A) (k : A -> M B) : M B :=
  fun w => match m w with
           | (Normal a, w') => k a w'
           | (Throw e, w') => (Throw e, w')
           end.

Definition throw {A} (e : any) : M A := fun w => (Throw e, w).

(** [try { body } catch (e) { handler }] *)
Definition try_catch {A} (body : M A) (handler : any -> M A) : M A :=
  fun w => match body w with
           | (Normal a, w') => (Normal a, w')
           | (Throw e, w') => handler e w'
           end.

#[export] Instance M_ret : MRet M := @ret.
#[export] Instance M_bind : MBind M := fun A B k m => bind m k.

(** An outside call: it is recorded, and ends the way the oracle says for the
    history before it. *)
Definition call {A} (ev : event) (answer : history -> completion A) : M A :=
  fun w => (answer (trace w),
            World (isConnected w) (realtimeHealthCheck w) (localStorage w) (href w)
                  (trace w ++ [ev])).

(** A recorded call that cannot fail. *)
Definition emit (ev : event) : M unit := call ev (fun _ => Normal tt).

Definition modify (f : world -> world) : M unit := fun w => (Normal tt, f w).

Definition set_isConnected (b : bool) : M unit :=
  modify (fun w =>
    World b (realtimeHealthCheck w) (localStorage w) (href w) (trace w)).

Definition get_isConnected : M bool := fun w => (Normal (isConnected w), w).

Definition get_realtimeHealthCheck : M bool :=
  fun w => (Normal (realtimeHealthCheck w), w).

(** [window.localStorage.removeItem(key)] *)
Definition removeItem (env : sdk) (key : string) : M unit :=
  _ ← call (RemoveItem key) (removeItem_returns env);
  modify (fun w =>
    World (isConnected w) (realtimeHealthCheck w)
          (delete key (localStorage w)) (href w) (trace w)).

(** [window.location.href = url] *)
Definition set_href (url : string) : M unit :=
  _ ← emit (SetHref url);
  modify (fun w =>
    World (isConnected w) (realtimeHealthCheck w) (localStorage w)
          url (trace w)).

(** The file is present in two revisions.  They differ in the realtime
    settings and in [cleanup], where the later one also unsubscribes each
    channel before it removes it. *)
Inductive revision : Type := Earlier | Later.

Section Client.

Variable rev : revision.
Variable env : sdk.

(** The callback handed to [channel.subscribe]. *)
Definition on_status (status : any) : M unit :=
  _ ← set_isConnected (strict_eq_text status "SUBSCRIBED");
  connected ← get_isConnected;
  if negb connected then
    _ ← emit (ConsoleWarn "Realtime connection lost, attempting to reconnect...");
    _ ← emit Unsubscribe;
    emit RemoveSubscribed
  else ret tt.

Fixpoint deliver (statuses : list any) : M unit :=
  match statuses with
  | [] => ret tt
  | s :: rest => _ ← on_status s; deliver rest
  end.

Definition checkRealtimeHealth : M bool :=
  _ ← emit HealthCheck;
  try_catch
    (_ ← call (Channel "system") (channel_returns env);
     r ← call Subscribe (subscribe_settles env);
     _ ← deliver (fst r);
     ret (strict_eq_text (snd r) "SUBSCRIBED"))
    (fun err =>
       _ ← emit (ConsoleError "Error checking realtime health:" err);
       ret false).

Fixpoint removeChannels (cs : list channel) : M unit :=
  match cs with
  | [] => ret tt
  | c :: rest =>
      _ ← match rev with
          | Earlier => ret tt
          | Later => call (UnsubscribeChannel c) (unsubscribe_returns env)
          end;
      _ ← call (RemoveChannel c) (removeChannel_returns env);
      removeChannels rest
  end.

Definition cleanup : M unit :=
  active ← get_realtimeHealthCheck;
  _ ← (if (active : bool) then emit ClearInterval else ret tt);
  channels ← call GetChannels (getChannels_returns env);
  removeChannels channels.

Section Retry.

(** [operation]: how its next invocation settles, given the calls so far.
    [maxRetries] (3 when omitted) is an attempt count and [delay] (1000 when
    omitted) a number of milliseconds: both are integers here. *)
Variable operation : history -> completion any.
Variable maxRetries : Z.
Variable delay : Z.

(** The [for] loop of [retryOperation], entered with loop variable [i]. *)
Equations? retry_from (i : Z) : M any by wf (Z.to_nat (maxRetries - i)) lt :=
  retry_from i with Z_lt_dec i maxRetries => {
    | left _ =>
        try_catch
          (call Operation operation)
          (fun error =>
             if i =? maxRetries - 1 then throw error
             else
               _ ← emit (SetTimeout (delay * 2 ^ i));
               _ ← checkRealtimeHealth;
               retry_from (i + 1))
    | right _ => ret undefined }.
Proof. lia. Qed.

Definition retryOperation : M any := retry_from 0.

End Retry.

(** The [try] block of [signOut]. *)
Definition signOut_try : M any :=
  _ ← cleanup;
  _ ← match storageKey env with
      | Some storageKey =>
          if truthy (text storageKey) then removeItem env storageKey else ret tt
      | None => ret tt
      end;
  error ← call AuthSignOut (auth_signOut_settles env);
  _ ← (if truthy error then throw error else ret tt);
  _ ← removeItem env "supabase.auth.token";
  _ ← removeItem env "supabase.auth.refreshToken";
  _ ← set_href "/";
  ret (object [("error", null)]).

Definition signOut : M any :=
  try_catch signOut_try
    (fun error =>
       _ ← emit (ConsoleError "Error during sign out:" error);
       ret (object [("error", error)])).

End Client.

(** *** Reading a history *)

Definition is_operation (ev : event) : bool :=
  match ev with Operation => true | _ => false end.

(** How many times the operation was invoked. *)
Definition invocations (h : history) : nat := length (List.filter is_operation h).

(** The events of the retry loop itself: attempts, waits and health checks. *)
Definition scheduled (ev : event) : bool :=
  match ev with
  | Operation | SetTimeout _ | HealthCheck => true
  | _ => false
  end.

Definition schedule (h : history) : history := List.filter scheduled h.

(** The delays handed to [setTimeout], in order. *)
Definition waits (h : history) : list Z :=
  omap (fun ev => match ev with SetTimeout ms => Some ms | _ => None end) h.

(** A failed attempt [i] that is retried: the attempt, the wait, the check. *)
Definition round (delay : Z) (i : nat) : history :=
  [Operation; SetTimeout (delay * 2 ^ Z.of_nat i); HealthCheck].

Definition rounds (delay : Z) (first count : nat) : history :=
  flat_map (round delay) (seq first count).

(** The calls of [cleanup]. *)
Definition is_cleanup (ev : event) : bool :=
  match ev with
  | ClearInterval | GetChannels | UnsubscribeChannel _ | RemoveChannel _ => true
  | _ => false
  end.

(** The error with which the call [ev], made after history [h], fails: what
    it throws or, for the provider sign-out, the truthy [error] it reports. *)
Definition failure (env : sdk) (h : history) (ev : event) : option any :=
  let thrown {A} (c : completion A) :=
    match c with Throw e => Some e | Normal _ => None end in
  match ev with
  | GetChannels => thrown (getChannels_returns env h)
  | UnsubscribeChannel _ => thrown (unsubscribe_returns env h)
  | RemoveChannel _ => thrown (removeChannel_returns env h)
  | RemoveItem _ => thrown (removeItem_returns env h)
  | AuthSignOut =>
      match auth_signOut_settles env h with
      | Throw e => Some e
      | Normal error => if truthy error then Some error else None
      end
  | _ => None
  end.

(** Every call of [h], made after [h0], succeeded. *)
Fixpoint succeeded (env : sdk) (h0 h : history) : Prop :=
  match h with
  | [] => True
  | ev :: rest => failure env h0 ev = None /\ succeeded env (h0 ++ [ev]) rest
  end.

(** The calls of [h], made after [h0], succeeded up to the last one, which
    failed with [e]. *)
Definition failed_at_last (env : sdk) (h0 h : history) (e : any) : Prop :=
  exists p ev, h = p ++ [ev] /\ succeeded env h0 p /\ failure env (h0 ++ p) ev = Some e.

(** A computation ends well after [h0] with new calls [h]: it returns a value
    in [post] and all its calls succeeded, or it throws the error of its last
    call, the only one that failed. *)
Definition ends {A} (env : sdk) (post : A -> Prop) (r : completion A)
    (h0 h : history) : Prop :=
  match r with
  | Normal a => post a /\ succeeded env h0 h
  | Throw e => failed_at_last env h0 h e
  end.

(** [m] always ends well, and its calls have the given [shape]. *)
Definition run_ok {A} (env : sdk) (shape : history -> Prop) (post : A -> Prop)
    (m : M A) : Prop :=
  forall w, exists r w' h,
    m w = (r, w') /\ trace w' = trace w ++ h /\ shape h /\ ends env post r (trace w) h.

(** Shapes of histories: only calls of [cleanup], with [getChannels] among
    them; no call of [cleanup]. *)
Definition cleanup_shape (h : history) : Prop :=
  Forall (fun ev => is_cleanup ev = true) h /\ In GetChannels h.

Definition after_cleanup_shape (h : history) : Prop :=
  List.filter is_cleanup h = [].

Definition signOut_shape (h : history) : Prop :=
  exists hc tail, h = hc ++ tail /\ cleanup_shape hc /\ after_cleanup_shape tail.

(** The calls [removeChannels] makes for the channels [cs] when none fails. *)
Definition channel_calls (rev : revision) (cs : list channel) : history :=
  flat_map (fun c => match rev with
                     | Earlier => [RemoveChannel c]
                     | Later => [UnsubscribeChannel c; RemoveChannel c]
                     end) cs.

(** The calls of [signOut] after [cleanup], when none fails. *)
Definition after_cleanup_calls (env : sdk) : history :=
  match storageKey env with
  | Some key => if truthy (text key) then [RemoveItem key] else []
  | None => []
  end ++
  [AuthSignOut; RemoveItem "supabase.auth.token"; RemoveItem "supabase.auth.refreshToken";
   SetHref "/"].

(** The calls of a run of [signOut] in which no call fails: [active] says
    whether the interval handle is set, [cs] is what [getChannels] returned. *)
Definition signOut_calls (rev : revision) (env : sdk) (active : bool) (cs : list channel)
    : history :=
  (if active then [ClearInterval] else []) ++ GetChannels :: channel_calls rev cs
  ++ after_cleanup_calls env.

(** [m] makes the calls [full], in that order and up to the first one that
    fails: it returns a value in [post] after all of them, or it throws the
    error of the call it stopped at. *)
Definition follows {A} (env : sdk) (full : history) (post : A -> Prop) (m : M A) : Prop :=
  forall w, exists r w' h,
    m w = (r, w') /\ trace w' = trace w ++ h /\
    match r with
    | Normal a => post a /\ h = full /\ succeeded env (trace w) h
    | Throw e =>
        exists p ev q,
          full = p ++ ev :: q /\ h = p ++ [ev] /\
          succeeded env (trace w) p /\ failure env (trace w ++ p) ev = Some e
    end.


(** *** The realtime settings and more readings of a history *)

(** [reconnectAfterMs]: the delay before the SDK reconnects for the
    [retryCount]-th time.  The cap is 30 s in the earlier revision of the
    file and 60 s in the later one. *)
Definition reconnectAfterMs (rev : revision) (retryCount : Z) : Z :=
  Z.min (1000 * 2 ^ retryCount)
        (match rev with Earlier => 30000 | Later => 60000 end).

(** The channels handed to [supabase.removeChannel] by [cleanup], in order. *)
Definition removed (h : history) : list channel :=
  omap (fun ev => match ev with RemoveChannel c => Some c | _ => None end) h.

(** The channels [cleanup] unsubscribed, in order. *)
Definition unsubscribed (h : history) : list channel :=
  omap (fun ev => match ev with UnsubscribeChannel c => Some c | _ => None end) h.

(** What the status callback does for the statuses it is handed, one entry
    per status that is not SUBSCRIBED. *)
Definition reactions (statuses : list any) : history :=
  flat_map (fun s => if strict_eq_text s "SUBSCRIBED" then []
                     else [ConsoleWarn "Realtime connection lost, attempting to reconnect...";
                           Unsubscribe; RemoveSubscribed])
           statuses.

Definition total (delays : list Z) : Z := fold_right Z.add 0 delays.

(** The storage and channel calls of [signOut] all return. *)
Definition cooperative (env : sdk) : Prop :=
  (forall h, exists cs, getChannels_returns env h = Normal cs) /\
  (forall h, removeChannel_returns env h = Normal tt) /\
  (forall h, unsubscribe_returns env h = Normal tt) /\
  (forall h, removeItem_returns env h = Normal tt).

(** The keys [signOut] removes from local storage. *)
Definition session_keys (env : sdk) : list string :=
  match storageKey env with
  | Some k => if truthy (text k) then [k] else []
  | None => []
  end ++ ["supabase.auth.token"; "supabase.auth.refreshToken"].

(** [m] only ever removes entries of local storage, and only under the keys
    [keys]; it leaves [isConnected] and the interval handle alone. *)
Definition only_removes {A} (keys : list string) (m : M A) : Prop :=
  forall w r w', m w = (r, w') ->
    isConnected w' = isConnected w /\
    realtimeHealthCheck w' = realtimeHealthCheck w /\
    localStorage w' ⊆ localStorage w /\
    forall k, ~ In k keys -> localStorage w' !! k = localStorage w !! k.


(** *** Sample inputs *)

(** An SDK in which every call succeeds and no status is delivered. *)
Definition quiet : sdk :=
  {| channel_returns := fun _ => Normal 0%nat;
     subscribe_settles := fun _ => Normal ([], undefined);
     getChannels_returns := fun _ => Normal [];
     removeChannel_returns := fun _ => Normal tt;
     unsubscribe_returns := fun _ => Normal tt;
     removeItem_returns := fun _ => Normal tt;
     storageKey := Some "supabase.auth.token";
     auth_signOut_settles := fun _ => Normal null |}.

(** The module just after it is loaded. *)
Definition loaded : world :=
  {| isConnected := false;
     realtimeHealthCheck := true;
     localStorage := {[ "supabase.auth.token" := "session" ]};
     href := "/dashboard";
     trace := [] |}.

(** An operation that is rejected twice and fulfils from then on. *)
Definition flaky (h : history) : completion any :=
  if (invocations h <? 2)%nat then Throw (Error "Failed to fetch")
  else Normal (text "rows").


End Lib.

(** ** The database, from the SQL migrations *)

Module Schema.

Definition uuid := string.

(** Rows, with the columns of the [CREATE TABLE] statements.  A nullable
    column is an [option].  The timestamp columns ([created_at], [joined_at],
    [scheduled_for]) are left out: no statement modelled here reads them. *)

Module Message.
Record row : Type := Row {
  id : uuid;
  text : string;
  sender : string;
  group_id : option uuid
}.
End Message.

Module Group.
Record row : Type := Row {
  id : uuid;
  name : string;
  description : option string;
  topics : list string;
  max_members : option Z;
  invite_code : option string       (* UNIQUE *)
}.
End Group.

Module GroupMember.
Record row : Type := Row {
  group_id : uuid;                  (* REFERENCES groups(id) ON DELETE CASCADE *)
  user_id : uuid;                   (* REFERENCES auth.users(id) ON DELETE CASCADE *)
  is_creator : bool
}.                                  (* PRIMARY KEY (group_id, user_id) *)
End GroupMember.

Module UserProfile.
Record row : Type := Row {
  id : uuid;
  name : string;
  bio : string;
  topics : list string;
  theme : string;
  view_code : option string;        (* UNIQUE *)
  profile_picture_url : option string;
  custom_avatar_url : option string;
  gender : option string            (* CHECK (gender IN ('male', 'female', 'other')) *)
}.
End UserProfile.

Module Meeting.
Record row : Type := Row {
  id : uuid;
  group_id : option uuid;           (* REFERENCES groups(id) ON DELETE CASCADE *)
  topic : string;
  jitsi_link : string;
  created_by : option uuid
}.
End Meeting.

Module User.
(** [auth.users], as far as the application reads it. *)
Record row : Type := Row {
  id : uuid;
  email : option string
}.
End User.

Record db : Type := Db {
  messages : list Message.row;
  groups : list Group.row;
  group_members : list GroupMember.row;
  user_profiles : list UserProfile.row;
  meetings : list Meeting.row;
  users : list User.row
}.

(** [column = value] in a [WHERE] clause: a NULL column matches nothing. *)
Definition sql_eq (column : option string) (value : string) : bool :=
  match column with
  | Some x => String.eqb x value
  | None => false
  end.

(** [DELETE FROM t WHERE p]: the rows that stay. *)
Definition delete_where {A} (p : A -> bool) (t : list A) : list A :=
  List.filter (fun r => negb (p r)) t.

(** The trigger function [handle_group_deletion], run with [OLD]. *)
Definition handle_group_deletion (OLD : Group.row) (d : db) : db :=
  {| messages := delete_where (fun m => sql_eq (Message.group_id m) (Group.id OLD)) (messages d);
     groups := groups d;
     group_members :=
       delete_where (fun gm => String.eqb (GroupMember.group_id gm) (Group.id OLD))
                    (group_members d);
     user_profiles := user_profiles d;
     meetings := delete_where (fun mt => sql_eq (Meeting.group_id mt) (Group.id OLD)) (meetings d);
     users := users d |}.

(** The [ON DELETE CASCADE] actions of the foreign keys on [groups(id)]. *)
Definition cascade_group (OLD : Group.row) (d : db) : db :=
  {| messages := messages d;
     groups := groups d;
     group_members :=
       delete_where (fun gm => String.eqb (GroupMember.group_id gm) (Group.id OLD))
                    (group_members d);
     user_profiles := user_profiles d;
     meetings := delete_where (fun mt => sql_eq (Meeting.group_id mt) (Group.id OLD)) (meetings d);
     users := users d |}.

(** Deleting the row [OLD] of [groups]: the [before_group_delete] trigger
    fires first ([BEFORE DELETE ... FOR EACH ROW]) and returns [OLD], so the
    row is then deleted and the foreign keys cascade. *)
Definition delete_group (OLD : Group.row) (d : db) : db :=
  let d1 := handle_group_deletion OLD d in
  let d2 := {| messages := messages d1;
               groups := delete_where (fun g => String.eqb (Group.id g) (Group.id OLD)) (groups d1);
               group_members := group_members d1;
               user_profiles := user_profiles d1;
               meetings := meetings d1;
               users := users d1 |} in
  cascade_group OLD d2.

(** Why the database refuses a statement, or a request has no single row. *)
Inductive pg_error : Type :=
| unique_violation
| foreign_key_violation
| check_violation
| row_level_security
| not_a_single_row.

(** [.single()]: exactly one row, or an error. *)
Definition single {A} (rows : list A) : pg_error + A :=
  match rows with
  | [r] => inr r
  | _ => inl not_a_single_row
  end.

(** [.maybeSingle()]: no row is [null] without error. *)
Definition maybeSingle {A} (rows : list A) : pg_error + option A :=
  match rows with
  | [] => inr None
  | [r] => inr (Some r)
  | _ => inl not_a_single_row
  end.

(** [INSERT INTO group_members] by the signed-in user [auth_uid]: the policy
    "Authenticated users can join groups", the primary key and the two
    foreign keys. *)
Definition insert_group_member (auth_uid : uuid) (new : GroupMember.row) (d : db)
    : pg_error + db :=
  if negb (String.eqb auth_uid (GroupMember.user_id new)) then inl row_level_security
  else if existsb (fun gm => String.eqb (GroupMember.group_id gm) (GroupMember.group_id new)
                             && String.eqb (GroupMember.user_id gm) (GroupMember.user_id new))
                  (group_members d)
  then inl unique_violation
  else if negb (existsb (fun g => String.eqb (Group.id g) (GroupMember.group_id new)) (groups d))
  then inl foreign_key_violation
  else if negb (existsb (fun u => String.eqb (User.id u) (GroupMember.user_id new)) (users d))
  then inl foreign_key_violation
  else inr {| messages := messages d;
              groups := groups d;
              group_members := group_members d ++ [new];
              user_profiles := user_profiles d;
              meetings := meetings d;
              users := users d |}.

(** [INSERT INTO groups ... RETURNING *] with every column but [id] given;
    [fresh_id] is what [gen_random_uuid()] draws.  The insert policy is
    [WITH CHECK (true)]. *)
Definition insert_group (fresh_id : uuid) (name : string) (description : string)
    (topics : list string) (invite_code : string) (max_members : Z) (d : db)
    : pg_error + (Group.row * db) :=
  let new := {| Group.id := fresh_id;
                Group.name := name;
                Group.description := Some description;
                Group.topics := topics;
                Group.max_members := Some max_members;
                Group.invite_code := Some invite_code |} in
  if existsb (fun g => String.eqb (Group.id g) fresh_id) (groups d) then inl unique_violation
  else if existsb (fun g => sql_eq (Group.invite_code g) invite_code) (groups d)
  then inl unique_violation
  else inr (new, {| messages := messages d;
                    groups := groups d ++ [new];
                    group_members := group_members d;
                    user_profiles := user_profiles d;
                    meetings := meetings d;
                    users := users d |}).

(** The columns the dashboard supplies when it inserts a profile. *)
Record profile_values : Type := ProfileValues {
  v_id : uuid;
  v_name : string;
  v_bio : string;
  v_topics : list string;
  v_theme : string;
  v_gender : string;
  v_profile_picture_url : string
}.

(** [INSERT INTO user_profiles ... RETURNING *] (table of the second
    migration): [view_code] takes its default, which draws [fresh_code] from
    [encode(gen_random_bytes(6), 'base64')]; [custom_avatar_url] stays NULL.
    The policy "Users can create own profile", the primary key, the [UNIQUE]
    view code and the [CHECK] on [gender]. *)
Definition insert_user_profile (auth_uid : uuid) (fresh_code : string)
    (v : profile_values) (d : db) : pg_error + (UserProfile.row * db) :=
  let new := {| UserProfile.id := v_id v;
                UserProfile.name := v_name v;
                UserProfile.bio := v_bio v;
                UserProfile.topics := v_topics v;
                UserProfile.theme := v_theme v;
                UserProfile.view_code := Some fresh_code;
                UserProfile.profile_picture_url := Some (v_profile_picture_url v);
                UserProfile.custom_avatar_url := None;
                UserProfile.gender := Some (v_gender v) |} in
  if negb (String.eqb auth_uid (v_id v)) then inl row_level_security
  else if negb (existsb (String.eqb (v_gender v)) ["male"; "female"; "other"])
  then inl check_violation
  else if existsb (fun p => String.eqb (UserProfile.id p) (v_id v)) (user_profiles d)
  then inl unique_violation
  else if existsb (fun p => sql_eq (UserProfile.view_code p) fresh_code) (user_profiles d)
  then inl unique_violation
  else inr (new, {| messages := messages d;
                    groups := groups d;
                    group_members := group_members d;
                    user_profiles := user_profiles d ++ [new];
                    meetings := meetings d;
                    users := users d |}).

(** [.from(t).select(...).eq(column, value)] and [.in(column, values)]; the
    [SELECT] policies of the tables read here are all [USING (true)]. *)
Definition profiles_by_view_code (code : string) (d : db) : list UserProfile.row :=
  List.filter (fun p => sql_eq (UserProfile.view_code p) code) (user_profiles d).

Definition profiles_by_id (id : uuid) (d : db) : list UserProfile.row :=
  List.filter (fun p => String.eqb (UserProfile.id p) id) (user_profiles d).

Definition members_by_user (user_id : uuid) (d : db) : list GroupMember.row :=
  List.filter (fun gm => String.eqb (GroupMember.user_id gm) user_id) (group_members d).

Definition groups_by_ids (ids : list uuid) (d : db) : list Group.row :=
  List.filter (fun g => existsb (String.eqb (Group.id g)) ids) (groups d).

Definition groups_by_invite_code (code : string) (d : db) : list Group.row :=
  List.filter (fun g => sql_eq (Group.invite_code g) code) (groups d).

(** *** Row-level security *)

(** [EXISTS (SELECT 1 FROM group_members WHERE group_id = messages.group_id
    AND user_id = auth.uid())]: the condition of the policies "Group members
    can read messages" and "Group members can send messages". *)
Definition member_of_message_group (auth_uid : uuid) (d : db) (m : Message.row) : bool :=
  existsb (fun gm => sql_eq (Message.group_id m) (GroupMember.group_id gm)
                     && String.eqb (GroupMember.user_id gm) auth_uid)
          (group_members d).

(** [SELECT * FROM messages] as the signed-in user [auth_uid]. *)
Definition select_messages (auth_uid : uuid) (d : db) : list Message.row :=
  List.filter (member_of_message_group auth_uid d) (messages d).

(** [INSERT INTO messages] of a row with all its columns, as [auth_uid]. *)
Definition insert_message (auth_uid : uuid) (new : Message.row) (d : db) : pg_error + db :=
  if negb (member_of_message_group auth_uid d new) then inl row_level_security
  else if existsb (fun m => String.eqb (Message.id m) (Message.id new)) (messages d)
  then inl unique_violation
  else inr {| messages := messages d ++ [new];
              groups := groups d;
              group_members := group_members d;
              user_profiles := user_profiles d;
              meetings := meetings d;
              users := users d |}.

(** The condition of the policy "Group creators can delete groups". *)
Definition may_delete_group (auth_uid : uuid) (d : db) (g : Group.row) : bool :=
  existsb (fun gm => String.eqb (GroupMember.group_id gm) (Group.id g)
                     && String.eqb (GroupMember.user_id gm) auth_uid
                     && GroupMember.is_creator gm)
          (group_members d).

(** [DELETE FROM groups WHERE id = gid] as [auth_uid]: the rows the policy
    lets through are deleted one by one. *)
Definition delete_groups_by_id (auth_uid gid : uuid) (d : db) : db :=
  fold_left (fun d' g => delete_group g d')
            (List.filter (fun g => String.eqb (Group.id g) gid && may_delete_group auth_uid d g)
                         (groups d))
            d.

(** *** The trigger on [auth.users] *)

(** [SPLIT_PART(s, '@', 1)] *)
Fixpoint split_part_at (s : string) : string :=
  match s with
  | EmptyString => EmptyString
  | String c rest =>
      if Ascii.eqb c "@"%char then EmptyString else String c (split_part_at rest)
  end.

(** [handle_new_user] of the second migration, fired with [NEW] after an
    insert on [auth.users].  [avatar] is the value of ['data:image/svg+xml,'
    || encode(stickman_svg::bytea, 'base64')].  [fresh_code] is how
    [encode(gen_random_bytes(6), 'base64')] ends: the function runs with
    [SET search_path = public] and names [gen_random_bytes] without a schema,
    so the call returns a code where that function is found under [public]
    and raises where it is installed in another schema ([None]).  The
    function is a [SECURITY DEFINER]: no policy stands in the way of its
    insert, so the insert runs as the new user.  Any failure is caught
    ([EXCEPTION WHEN OTHERS]) and the trigger still returns [NEW]. *)
Definition handle_new_user (avatar : string) (fresh_code : option string)
    (NEW : User.row) (d : db) : db :=
  if existsb (fun p => String.eqb (UserProfile.id p) (User.id NEW)) (user_profiles d) then d
  else
    match fresh_code with
    | None => d
    | Some fresh_code =>
        match insert_user_profile (User.id NEW) fresh_code
                {| v_id := User.id NEW;
                   v_name := match User.email NEW with
                             | Some email => split_part_at email
                             | None => "User"
                             end;
                   v_bio := "I'm here to learn and teach";
                   v_topics := [];
                   v_theme := "dark";
                   v_gender := "other";
                   v_profile_picture_url := avatar |} d with
        | inr (_, d') => d'
        | inl _ => d
        end
    end.

(** The row that [handle_new_user] inserts. *)
Definition new_user_profile (avatar code : string) (NEW : User.row) : UserProfile.row :=
  {| UserProfile.id := User.id NEW;
     UserProfile.name := match User.email NEW with
                         | Some email => split_part_at email
                         | None => "User"
                         end;
     UserProfile.bio := "I'm here to learn and teach";
     UserProfile.topics := [];
     UserProfile.theme := "dark";
     UserProfile.view_code := Some code;
     UserProfile.profile_picture_url := Some avatar;
     UserProfile.custom_avatar_url := None;
     UserProfile.gender := Some "other" |}.

(** *** The view codes of the first migration *)

Definition chars : string := "ABCDEFGHIJKLMNOPQRSTUVWXYZ0123456789".

(** [substr(s, start, 1)] *)
Definition substr1 (s : string) (start : Z) : string :=
  if start <? 1 then "" else String.substring (Z.to_nat (start - 1)) 1 s.

(** How a PL/pgSQL function ends. *)
Inductive plpgsql (A : Type) : Type :=
| Returned (a : A)
| Raised (message : string)
| Failed (e : pg_error).
Arguments Returned {A} a.
Arguments Raised {A} message.
Arguments Failed {A} e.

Section ViewCodes.

(** The successive values of [floor(random() * length(chars) + 1)::integer]. *)
Variable random_index : nat -> Z.

(** The eight-character code built from the draws after the first [drawn]. *)
Definition draw_code (drawn : nat) : string :=
  String.concat ""
    (map (fun j => substr1 chars (random_index (drawn + j)%nat)) (seq 0 8)).

(** [WHERE id = target_id AND (view_code IS NULL OR view_code = '')] *)
Definition lacks_view_code (target_id : uuid) (p : UserProfile.row) : bool :=
  String.eqb (UserProfile.id p) target_id
  && match UserProfile.view_code p with
     | None => true
     | Some code => String.eqb code ""
     end.

Definition set_view_code (code : string) (p : UserProfile.row) : UserProfile.row :=
  {| UserProfile.id := UserProfile.id p;
     UserProfile.name := UserProfile.name p;
     UserProfile.bio := UserProfile.bio p;
     UserProfile.topics := UserProfile.topics p;
     UserProfile.theme := UserProfile.theme p;
     UserProfile.view_code := Some code;
     UserProfile.profile_picture_url := UserProfile.profile_picture_url p;
     UserProfile.custom_avatar_url := UserProfile.custom_avatar_url p;
     UserProfile.gender := UserProfile.gender p |}.

(** [UPDATE user_profiles SET view_code = code WHERE ...]: the row count, or
    the violation of [UNIQUE (view_code)] when a row is updated to a code
    that another row has. *)
Definition update_view_code (target_id : uuid) (code : string) (d : db)
    : pg_error + (nat * db) :=
  let hit := List.filter (lacks_view_code target_id) (user_profiles d) in
  let others := List.filter (fun p => negb (lacks_view_code target_id p)) (user_profiles d) in
  if (0 <? length hit)%nat
     && (existsb (fun p => sql_eq (UserProfile.view_code p) code) others
         || (1 <? length hit)%nat)
  then inl unique_violation
  else inr (length hit,
            {| messages := messages d;
               groups := groups d;
               group_members := group_members d;
               user_profiles :=
                 map (fun p => if lacks_view_code target_id p then set_view_code code p else p)
                     (user_profiles d);
               meetings := meetings d;
               users := users d |}).

(** The [WHILE i < 10] loop of [generate_unique_view_code], with the number
    of draws made so far. *)
Equations? generate_from (target_id : uuid) (i : Z) (drawn : nat) (d : db)
    : plpgsql string * nat * db by wf (Z.to_nat (10 - i)) lt :=
  generate_from target_id i drawn d with Z_lt_dec i 10 => {
    | left _ =>
        match update_view_code target_id (draw_code drawn) d with
        | inr (rows_affected, d') =>
            if (0 <? rows_affected)%nat
            then (Returned (draw_code drawn), (drawn + 8)%nat, d')
            else generate_from target_id (i + 1) (drawn + 8)%nat d'
        | inl _ =>
            (* EXCEPTION WHEN unique_violation: continue to next iteration *)
            generate_from target_id (i + 1) (drawn + 8)%nat d
        end
    | right _ =>
        (Raised "Could not generate unique view code after 10 attempts", drawn, d) }.
Proof. all: lia. Qed.

Definition generate_unique_view_code (target_id : uuid) (drawn : nat) (d : db)
    : plpgsql string * nat * db :=
  generate_from target_id 0 drawn d.

(** [handle_new_user] of the first migration: it generates the view code
    first and then inserts the profile [ON CONFLICT (id) DO NOTHING].  An
    exception undoes what the function did. *)
Definition handle_new_user_v1 (avatar : string) (NEW : User.row) (drawn : nat) (d : db)
    : plpgsql unit * nat * db :=
  match generate_unique_view_code (User.id NEW) drawn d with
  | (Returned new_view_code, drawn', d') =>
      if existsb (fun p => String.eqb (UserProfile.id p) (User.id NEW)) (user_profiles d')
      then (Returned tt, drawn', d')
      else
        match insert_user_profile (User.id NEW) new_view_code
                {| v_id := User.id NEW;
                   v_name := match User.email NEW with
                             | Some email => split_part_at email
                             | None => "User"
                             end;
                   v_bio := "I'm here to learn and teach";
                   v_topics := [];
                   v_theme := "dark";
                   v_gender := "other";
                   v_profile_picture_url := avatar |} d' with
        | inr (_, d'') => (Returned tt, drawn', d'')
        | inl e => (Failed e, drawn', d)
        end
  | (Raised message, drawn', _) => (Raised message, drawn', d)
  | (Failed e, drawn', _) => (Failed e, drawn', d)
  end.

End ViewCodes.

(** *** The constraints of the tables *)

Definition member_key (gm : GroupMember.row) : uuid * uuid :=
  (GroupMember.group_id gm, GroupMember.user_id gm).

(** Primary keys, [UNIQUE] columns, foreign keys and the [CHECK] on [gender]. *)
Record consistent (d : db) : Prop := {
  messages_pk : List.NoDup (map Message.id (messages d));
  groups_pk : List.NoDup (map Group.id (groups d));
  groups_invite_code : List.NoDup (omap Group.invite_code (groups d));
  members_pk : List.NoDup (map member_key (group_members d));
  members_group : forall gm, In gm (group_members d) ->
                    In (GroupMember.group_id gm) (map Group.id (groups d));
  members_user : forall gm, In gm (group_members d) ->
                   In (GroupMember.user_id gm) (map User.id (users d));
  profiles_pk : List.NoDup (map UserProfile.id (user_profiles d));
  profiles_view_code : List.NoDup (omap UserProfile.view_code (user_profiles d));
  profiles_gender : forall p g, In p (user_profiles d) -> UserProfile.gender p = Some g ->
                      In g ["male"; "female"; "other"];
  meetings_pk : List.NoDup (map Meeting.id (meetings d));
  meetings_group : forall mt g, In mt (meetings d) -> Meeting.group_id mt = Some g ->
                     In g (map Group.id (groups d))
}.


End Schema.

(** ** What the components share *)

Module Client.

Import Schema.

(** The backend as a signed-in browser session sees it, and the sources of
    randomness.  The components below are only rendered inside the dashboard
    of a signed-in user: [auth_uid] is the [auth.uid()] of that session. *)
Record world : Type := World {
  database : db;
  auth_uid : uuid;
  (* data.user of supabase.auth.getUser() *)
  auth_user : option User.row;
  (* successive results of gen_random_uuid() and
     encode(gen_random_bytes(6), 'base64') on the server *)
  server_random : nat -> string;
  server_draws : nat;
  (* successive values of Math.floor(Math.random() * 36) *)
  math_random : nat -> Z;
  client_draws : nat;
  (* delays handed to setTimeout, and console.error lines *)
  timeouts : list Z;
  console : list string
}.

Definition set_database (d : db) (w : world) : world :=
  World d (auth_uid w) (auth_user w) (server_random w) (server_draws w)
        (math_random w) (client_draws w) (timeouts w) (console w).

(** One draw of the server's random source. *)
Definition draw_server (w : world) : string * world :=
  (server_random w (server_draws w),
   World (database w) (auth_uid w) (auth_user w) (server_random w)
         (S (server_draws w)) (math_random w) (client_draws w) (timeouts w) (console w)).

(** [count] draws of [Math.floor(Math.random() * 36)]. *)
Definition draw_client (count : nat) (w : world) : list Z * world :=
  (map (fun k => math_random w (client_draws w + k)%nat) (seq 0 count),
   World (database w) (auth_uid w) (auth_user w) (server_random w) (server_draws w)
         (math_random w) (client_draws w + count)%nat (timeouts w) (console w)).

(** [await new Promise(resolve => setTimeout(resolve, ms))] *)
Definition sleep (ms : Z) (w : world) : world :=
  World (database w) (auth_uid w) (auth_user w) (server_random w) (server_draws w)
        (math_random w) (client_draws w) (timeouts w ++ [ms]) (console w).

Definition console_error (line : string) (w : world) : world :=
  World (database w) (auth_uid w) (auth_user w) (server_random w) (server_draws w)
        (math_random w) (client_draws w) (timeouts w) (console w ++ [line]).

(** [n.toString(36)] for an integer [n]. *)
Definition digit36 (n : Z) : string :=
  String.substring (Z.to_nat n) 1 "0123456789abcdefghijklmnopqrstuvwxyz".

Equations? to_base36 (n : Z) : string by wf (Z.to_nat n) lt :=
  to_base36 n with Z_lt_dec n 36 => {
    | left _ => digit36 n
    | right _ => (to_base36 (n / 36) ++ digit36 (n mod 36))%string }.
Proof.
  assert (n / 36 < n) by (apply Z.div_lt; lia).
  assert (0 <= n / 36) by (apply Z.div_pos; lia). lia.
Qed.

Definition toString36 (n : Z) : string :=
  if n <? 0 then ("-" ++ to_base36 (- n))%string else to_base36 n.

(** [s.split('@')[0]] *)
Fixpoint before_at (s : string) : string :=
  match s with
  | EmptyString => EmptyString
  | String c rest => if Ascii.eqb c "@"%char then EmptyString else String c (before_at rest)
  end.

(** How the backend treats a request: it answers it from the tables; it
    answers it with an error object and no data; or the request promise
    rejects. *)
Inductive response : Type :=
| Answered
| Failed (message : string)          (* { data: null, error: { message, ... } } *)
| Rejected (reason : any).

(** The responses to the successive requests of one run of a handler. *)
Definition network := nat -> response.

(** [retryOperation(() => query)] with its default arguments, three attempts
    and a delay of 1000 ms, for the request number [k] of the run: the
    error of the first response that is not a rejection ([None] when the
    request is answered), or the third rejection thrown.  After a rejected
    attempt that is not the last it waits [1000 * 2^i] ms and calls
    [checkRealtimeHealth], which never throws and writes only the variables
    of its own module.  The number of requests made is returned as well. *)
Definition retry_request (net : network) (k : nat) (w : world)
    : completion (option string) * nat * world :=
  let fulfilled (r : response) : option string :=
    match r with Failed message => Some message | _ => None end in
  match net k with
  | Rejected _ =>
      let w1 := sleep (1000 * 2 ^ 0) w in
      match net (S k) with
      | Rejected _ =>
          let w2 := sleep (1000 * 2 ^ 1) w1 in
          match net (S (S k)) with
          | Rejected error => (Throw error, S (S (S k)), w2)
          | r => (Normal (fulfilled r), S (S (S k)), w2)
          end
      | r => (Normal (fulfilled r), S (S k), w1)
      end
  | r => (Normal (fulfilled r), S k, w)
  end.

End Client.

(** ** [FindPersonModal.tsx] *)

Module Find.

Import Schema Client.

Record state : Type := State {
  profile : option UserProfile.row;
  groups : list Group.row;
  loading : bool;
  error : option string
}.

(** [handleSearch], with the [viewCode] held in the input field; [net] says
    how its three requests are treated.  The handler starts by clearing the
    error, the profile and the groups. *)
Definition handleSearch (net : network) (viewCode : string) (st : state) (w : world)
    : state * world :=
  (* catch (err): console.error; setError(err instanceof Error ? err.message
     : 'Failed to find person'); finally setLoading(false) *)
  let caught (err : any) (profile : option UserProfile.row) :=
    (State profile [] false
           (Some (match err with Error message => message | _ => "Failed to find person" end)),
     console_error "Error finding person:" w) in
  match net 0%nat with
  | Rejected err => caught err None
  | Failed _ => caught (Error "User not found") None
  | Answered =>
      match single (profiles_by_view_code viewCode (database w)) with
      | inl profileError => caught (Error "User not found") None
      | inr profileData =>
          (* setProfile(profileData) *)
          match net 1%nat with
          | Rejected err => caught err (Some profileData)
          | Failed memberError => (State (Some profileData) [] false None, w)
          | Answered =>
              let memberData := members_by_user (UserProfile.id profileData) (database w) in
              if (0 <? length memberData)%nat then
                let groupIds := map GroupMember.group_id memberData in
                match net 2%nat with
                | Rejected err => caught err (Some profileData)
                | Failed _ =>
                    (* setGroups(groupsData || []) *)
                    (State (Some profileData) [] false None, w)
                | Answered =>
                    let groupsData := groups_by_ids groupIds (database w) in
                    (State (Some profileData) groupsData false None, w)
                end
              else
                (State (Some profileData) [] false None, w)
          end
      end
  end.

End Find.

(** ** [Dashboard.tsx] *)

Module Dash.

Import Schema Client.

Record state : Type := State {
  createdGroups : list Group.row;
  joinedGroups : list Group.row;
  isCreateModalOpen : bool;
  loading : bool;
  error : option string;
  profile : option UserProfile.row;
  body_className : string                 (* document.body.className *)
}.

Section Component.

(** The props of the component, and the data URL of the stickman drawing that
    the template literal in [fetchProfile] evaluates to. *)
Variable userId : uuid.
Variable stickman : string.

(** [defaultProfile] for the user [getUser] reported. *)
Definition defaultProfile (user : User.row) : profile_values :=
  {| v_id := userId;
     v_name := match User.email user with
               | Some email =>
                   if String.eqb (before_at email) "" then "User" else before_at email
               | None => "User"
               end;
     v_bio := "I'm here to learn and teach";
     v_topics := [];
     v_theme := "dark";
     v_gender := "other";
     v_profile_picture_url := stickman |}.




(** What surrounds a run of [fetchProfile]: how the backend treats its
    successive requests, and what other sessions and the sign-up trigger have
    written to the tables by the time a request arrives. *)
Record surroundings : Type := {
  responses : network;
  others : nat -> db -> db
}.

(** The tables as request number [k] finds them. *)
Definition arrives (env : surroundings) (k : nat) (w : world) : world :=
  set_database (others env k (database w)) w.

(** The [while] loop of [fetchProfile] in these surroundings, with [rounds]
    rounds to go and [k] requests made so far.  A request that is rejected
    throws out of the loop; a response with an error carries no data. *)
Fixpoint fetch_among (env : surroundings) (rounds : nat) (retryCount : Z) (k : nat)
    (w : world) : completion (option UserProfile.row) * world :=
  match rounds with
  | O => (Normal None, w)
  | S rounds =>
      let w := arrives env k w in
      match responses env k with
      | Rejected reason => (Throw reason, w)
      | queried =>
          let data :=
            match queried with
            | Answered =>
                match maybeSingle (profiles_by_id userId (database w)) with
                | inr (Some data) => Some data
                | _ => None
                end
            | _ => None
            end in
          match data with
          | Some data => (Normal (Some data), w)
          | None =>
              let created : completion (option UserProfile.row) * nat * world :=
                if retryCount =? 0 then
                  (* supabase.auth.getUser() *)
                  match responses env (S k) with
                  | Rejected reason => (Throw reason, S (S k), w)
                  | Failed _ => (Normal None, S (S k), w)
                  | Answered =>
                      match auth_user w with
                      | Some user =>
                          let w1 := arrives env (S (S k)) w in
                          match responses env (S (S k)) with
                          | Rejected reason => (Throw reason, S (S (S k)), w1)
                          | Failed _ => (Normal None, S (S (S k)), w1)
                          | Answered =>
                              let (fresh_code, w2) := draw_server w1 in
                              match insert_user_profile (auth_uid w2) fresh_code
                                      (defaultProfile user) (database w2) with
                              | inr (newProfile, d) =>
                                  (Normal (Some newProfile), S (S (S k)), set_database d w2)
                              | inl insertError => (Normal None, S (S (S k)), w2)
                              end
                          end
                      | None => (Normal None, S (S k), w)
                      end
                  end
                else (Normal None, S k, w) in
              match created with
              | (Throw reason, _, w1) => (Throw reason, w1)
              | (Normal (Some newProfile), _, w1) => (Normal (Some newProfile), w1)
              | (Normal None, k1, w1) =>
                  fetch_among env rounds (retryCount + 1) k1
                              (sleep (1000 * 2 ^ retryCount) w1)
              end
          end
      end
  end.

(** [fetchProfile] in these surroundings: what the loop throws is caught like
    the error thrown after it. *)
Definition fetchProfile_among (env : surroundings) (st : state) (w : world)
    : state * world :=
  let failed (w1 : world) :=
    (State (createdGroups st) (joinedGroups st) (isCreateModalOpen st) (loading st)
           (Some "Failed to load profile. Please refresh the page.")
           (profile st) (body_className st),
     console_error "Error fetching profile:" w1) in
  match fetch_among env 3 0 0 w with
  | (Normal (Some profile), w1) =>
      (State (createdGroups st) (joinedGroups st) (isCreateModalOpen st) (loading st)
             None (Some profile)
             (if String.eqb (UserProfile.theme profile) "" then "dark"
              else UserProfile.theme profile),
       w1)
  | (Normal None, w1) => failed w1
  | (Throw _, w1) => failed w1
  end.

(** The waits of the rounds [retryCount], ..., [retryCount + count - 1]. *)
Definition waits (retryCount : Z) (count : nat) : list Z :=
  map (fun i => 1000 * 2 ^ (retryCount + Z.of_nat i)) (seq 0 count).

(** [fetchGroups]; [net] says how its requests are treated.  Each query is
    wrapped in [retryOperation].  A response with an error is thrown, and a
    third rejection is thrown by [retryOperation]; the [catch] block logs
    what was thrown and shows "Failed to load groups", and the [finally]
    block ends the loading.  The lists are set one after the other, so a
    failure of the last query leaves the created groups already set. *)
Definition fetchGroups (net : network) (st : state) (w : world) : state * world :=
  let failed (created joined : list Group.row) (w : world) :=
    (State created joined (isCreateModalOpen st) false (Some "Failed to load groups")
           (profile st) (body_className st),
     console_error "Error fetching groups:" w) in
  match retry_request net 0 w with
  | (Normal None, k1, w1) =>
      let memberGroups := members_by_user userId (database w1) in
      let createdGroupIds :=
        map GroupMember.group_id (List.filter GroupMember.is_creator memberGroups) in
      let joinedGroupIds :=
        map GroupMember.group_id
            (List.filter (fun mg => negb (GroupMember.is_creator mg)) memberGroups) in
      let created :=
        if (0 <? length createdGroupIds)%nat then
          match retry_request net k1 w1 with
          | (Normal None, k2, w2) => inr (groups_by_ids createdGroupIds (database w2), k2, w2)
          | (_, _, w2) => inl w2
          end
        else inr ([], k1, w1) in
      match created with
      | inr (createdGroupsData, k2, w2) =>
          let joined :=
            if (0 <? length joinedGroupIds)%nat then
              match retry_request net k2 w2 with
              | (Normal None, _, w3) => inr (groups_by_ids joinedGroupIds (database w3), w3)
              | (_, _, w3) => inl w3
              end
            else inr ([], w2) in
          match joined with
          | inr (joinedGroupsData, w3) =>
              (State createdGroupsData joinedGroupsData (isCreateModalOpen st) false
                     (error st) (profile st) (body_className st), w3)
          | inl w3 => failed createdGroupsData (joinedGroups st) w3
          end
      | inl w2 => failed (createdGroups st) (joinedGroups st) w2
      end
  | (_, _, w1) => failed (createdGroups st) (joinedGroups st) w1
  end.

(** Where a run of [handleCreateGroup] ends. *)
Inductive created : Type :=
| CreateError (e : pg_error)          (* first [return] *)
| MemberError (e : pg_error)          (* second [return] *)
| Created (group : Group.row).        (* end of the function *)

(** [handleCreateGroup]; [net] says how the requests of the [fetchGroups] it
    ends with are treated. *)
Definition handleCreateGroup (net : network) (name description : string)
    (topics : list string) (maxMembers : Z) (st : state) (w : world)
    : created * state * world :=
  let (digits, w1) := draw_client 12 w in
  let inviteCode := String.concat "" (map toString36 digits) in
  let (fresh_id, w2) := draw_server w1 in
  match insert_group fresh_id name description topics inviteCode maxMembers (database w2) with
  | inl createError =>
      (CreateError createError, st, console_error "Error creating group:" w2)
  | inr (group, d) =>
      let w3 := set_database d w2 in
      match insert_group_member (auth_uid w3)
              {| GroupMember.group_id := Group.id group;
                 GroupMember.user_id := userId;
                 GroupMember.is_creator := true |} (database w3) with
      | inl memberError =>
          (MemberError memberError, st, console_error "Error joining group:" w3)
      | inr d' =>
          let (st1, w4) := fetchGroups net st (set_database d' w3) in
          (Created group,
           State (createdGroups st1) (joinedGroups st1) false (loading st1) (error st1)
                 (profile st1) (body_className st1),
           w4)
      end
  end.

End Component.

End Dash.

(** ** Joining a group *)

Module Join.

Import Schema Client.

(** Modelled from the spec: the handler of [JoinGroupModal.tsx], which the
    dashboard imports but which is not among the sources.  The spec has it
    look up the group by its invite code and add one membership row for the
    joining user; the row goes through [INSERT INTO group_members] of the
    migration, like the creator's row in [handleCreateGroup]. *)
Definition handleJoinGroup (userId : uuid) (inviteCode : string) (w : world)
    : option pg_error * world :=
  match single (groups_by_invite_code inviteCode (database w)) with
  | inl e => (Some e, w)
  | inr group =>
      match insert_group_member (auth_uid w)
              {| GroupMember.group_id := Group.id group;
                 GroupMember.user_id := userId;
                 GroupMember.is_creator := false |} (database w) with
      | inl e => (Some e, w)
      | inr d => (None, set_database d w)
      end
  end.

(** The membership rows of the pair [(group_id, user_id)]. *)
Definition memberships (group_id user_id : uuid) (d : db) : list GroupMember.row :=
  List.filter (fun gm => String.eqb (GroupMember.group_id gm) group_id
                         && String.eqb (GroupMember.user_id gm) user_id)
              (group_members d).

End Join.

(** ** [Profile.tsx] *)

Module Prof.

Import Schema.

(** A file picked in the file input. *)
Record File : Type := {
  file_name : string;
  size : Z;                       (* bytes *)
  type : string                   (* MIME type *)
}.

(** A Number of the language is an IEEE 754 double.  [Number z] is the
    Number for an integer attribute of the DOM (an [unsigned long]); the
    conversion is exact below [2 ^ 53]. *)
Definition Number (z : Z) : float := PrimFloat.of_uint63 (Uint63.of_Z z).

(** [Math.max(a, b)]: NaN when an argument is NaN, and [+0] is larger than
    [-0]. *)
Definition Math_max (a b : float) : float :=
  if PrimFloat.is_nan a || PrimFloat.is_nan b then PrimFloat.nan
  else if PrimFloat.ltb a b then b
  else if PrimFloat.ltb b a then a
  else if PrimFloat.get_sign a then b else a.

(** The calls made on the 2D context of a canvas, with their arguments. *)
Inductive drawing : Type :=
| fillRect (fillStyle : string) (x y w h : float)
| drawImage (source : File) (dx dy dw dh : float).

Record canvas : Type := Canvas {
  width : Z;
  height : Z;
  drawn : list drawing
}.

(** The result of [canvas.toBlob(callback, type, quality)]. *)
Record Blob : Type := {
  encoded : canvas;
  blob_type : string;
  quality : float
}.

(** What can be handed to [storage.from(bucket).upload]. *)
Inductive body : Type :=
| FileBody (f : File)
| BlobBody (b : Blob).

Record upload : Type := Upload {
  bucket : string;
  path : string;
  payload : body;
  contentType : string;
  upsert : bool
}.

(** The browser and the storage service. *)
Record browser : Type := {
  (* what the statements of the try block throw before any callback runs
     (createElement, getContext, new Image, createObjectURL), if they throw;
     the image then never starts to load *)
  setup_throws : File -> option any;
  (* canvas.getContext('2d') is not null *)
  has_context : bool;
  (* the image loads, with its width and height; otherwise onload never fires *)
  decode : File -> option (Z * Z);
  (* the calls on the context return and toBlob hands a blob (not null) to
     its callback *)
  encodes : canvas -> bool;
  Date_now : Z;
  (* the upload: it fulfils with the error field of its response, or rejects *)
  upload_result : upload -> completion any;
  getPublicUrl : string -> string
}.

Record world : Type := World {
  profile : UserProfile.row;
  alerts : list string;
  uploads : list upload;
  console : list string                  (* the first argument of console.error *)
}.

Definition alert (msg : string) (w : world) : world :=
  World (profile w) (alerts w ++ [msg]) (uploads w) (console w).

Definition console_error (line : string) (w : world) : world :=
  World (profile w) (alerts w) (uploads w) (console w ++ [line]).

(** The body of [img.onload] up to [canvas.toBlob]: the canvas it draws for
    an image with the Numbers [img_width] and [img_height] as its width and
    height. *)
Definition composite (file : File) (img_width img_height : float) : canvas :=
  let canvas_width := 1000 in
  let canvas_height := 1000 in
  let scale := Math_max (Number canvas_width / img_width)%float
                        (Number canvas_height / img_height)%float in
  let x := ((Number canvas_width - img_width * scale) / 2)%float in
  let y := ((Number canvas_height - img_height * scale) / 2)%float in
  Canvas canvas_width canvas_height
    [ fillRect "white" 0 0 (Number canvas_width) (Number canvas_height);
      drawImage file x y (img_width * scale)%float (img_height * scale)%float ].

(** The callback of [canvas.toBlob]. *)
Definition on_blob (env : browser) (userId : uuid) (blob : Blob) (w : world) : world :=
  let fileName := (userId ++ "-" ++ pretty (Date_now env) ++ ".jpg")%string in
  let request := Upload "avatars" fileName (BlobBody blob) "image/jpeg" true in
  let w1 := World (profile w) (alerts w) (uploads w ++ [request]) (console w) in
  match upload_result env request with
  | Throw _ => w1                              (* the await throws: nobody catches it *)
  | Normal error =>
      if truthy error then
        w1                                     (* throw error: nobody catches it *)
      else
        let publicUrl := getPublicUrl env fileName in
        let prev := profile w1 in
        World {| UserProfile.id := UserProfile.id prev;
                 UserProfile.name := UserProfile.name prev;
                 UserProfile.bio := UserProfile.bio prev;
                 UserProfile.topics := UserProfile.topics prev;
                 UserProfile.theme := UserProfile.theme prev;
                 UserProfile.view_code := UserProfile.view_code prev;
                 UserProfile.profile_picture_url := Some publicUrl;
                 UserProfile.custom_avatar_url := Some publicUrl;
                 UserProfile.gender := UserProfile.gender prev |}
              (alerts w1) (uploads w1) (console w1)
  end.

(** The JPEG that [canvas.toBlob(callback, 'image/jpeg', 0.9)] hands over. *)
Definition jpeg (c : canvas) : Blob :=
  {| encoded := c; blob_type := "image/jpeg"; quality := 0x1.ccccccccccccdp-1 |}.

(** [handleFileUpload] for [e.target.files?.[0]], with the callbacks it
    registers run in turn. *)
Definition handleFileUpload (env : browser) (userId : uuid) (file : option File)
    (w : world) : world :=
  match file with
  | None => w
  | Some file =>
      if size file >? 5 * 1024 * 1024 then alert "File size must be less than 5MB" w
      else if negb (String.prefix "image/" (type file)) then
        alert "Only image files are allowed" w
      else
        match setup_throws env file with
        | Some error =>
            (* catch (error) *)
            alert "Failed to upload image. Please try again."
                  (console_error "Error uploading file:" w)
        | None =>
            (* img.onload *)
            match decode env file with
            | Some (img_width, img_height) =>
                if has_context env then
                  let canvas := composite file (Number img_width) (Number img_height) in
                  if encodes env canvas then on_blob env userId (jpeg canvas) w
                  else w
                else w
            | None => w
            end
        end
  end.

(** Whether the image drawn for a [w] by [h] image covers the canvas up to
    the rounding of the last place: the drawn width and height are at least
    the double before 1000 and one of them at most the double after it, the
    left and top edges are at most [2 ^ -44], and the middle of the drawn
    image is the middle of the canvas. *)
Definition covers (c : canvas) : bool :=
  match drawn c with
  | [fillRect _ _ _ _ _; drawImage _ x y dw dh] =>
      let before := 0x1.f3fffffffffffp+9%float in
      let after := 0x1.f400000000001p+9%float in
      (before <=? dw)%float && (before <=? dh)%float &&
      ((dw <=? after)%float || (dh <=? after)%float) &&
      (x <=? 0x1p-44)%float && (y <=? 0x1p-44)%float &&
      (x + dw / 2 =? 500)%float && (y + dh / 2 =? 500)%float
  | _ => false
  end.

(** The widths and heights from 1 to [n], and their Numbers. *)
Definition sizes (n : nat) : list Z := map Z.of_nat (seq 1 n).

Definition Numbers (n : nat) : list float := map Number (sizes n).

(** Whether the canvas drawn covers, for every width and height in [l]. *)
Definition all_cover (l : list float) : bool :=
  forallb (fun img_width =>
             forallb (fun img_height =>
                        covers (composite {| file_name := ""; size := 0; type := "" |}
                                          img_width img_height)) l) l.

(** [handleRemoveCustomAvatar]; [stickman] is the data URL of the built-in
    drawing. *)
Definition handleRemoveCustomAvatar (stickman : string) (w : world) : world :=
  let prev := profile w in
  World {| UserProfile.id := UserProfile.id prev;
           UserProfile.name := UserProfile.name prev;
           UserProfile.bio := UserProfile.bio prev;
           UserProfile.topics := UserProfile.topics prev;
           UserProfile.theme := UserProfile.theme prev;
           UserProfile.view_code := UserProfile.view_code prev;
           UserProfile.profile_picture_url := Some stickman;
           UserProfile.custom_avatar_url := None;
           UserProfile.gender := UserProfile.gender prev |}
        (alerts w) (uploads w) (console w).

(** [handleGenderChange] *)
Definition handleGenderChange (newGender : string) (w : world) : world :=
  let prev := profile w in
  World {| UserProfile.id := UserProfile.id prev;
           UserProfile.name := UserProfile.name prev;
           UserProfile.bio := UserProfile.bio prev;
           UserProfile.topics := UserProfile.topics prev;
           UserProfile.theme := UserProfile.theme prev;
           UserProfile.view_code := UserProfile.view_code prev;
           UserProfile.profile_picture_url := UserProfile.profile_picture_url prev;
           UserProfile.custom_avatar_url := UserProfile.custom_avatar_url prev;
           UserProfile.gender := Some newGender |}
        (alerts w) (uploads w) (console w).

(** The object [handleSave] hands to [upsert]. *)
Record saved : Type := Saved {
  saved_id : uuid;
  saved_name : string;
  saved_bio : string;
  saved_topics : list string;
  saved_gender : option string;
  saved_profile_picture_url : string;
  saved_custom_avatar_url : option string
}.

Definition save_payload (userId : uuid) (stickman : string) (w : world) : saved :=
  let profile := profile w in
  {| saved_id := userId;
     saved_name := UserProfile.name profile;
     saved_bio := UserProfile.bio profile;
     saved_topics := UserProfile.topics profile;
     saved_gender := UserProfile.gender profile;
     saved_profile_picture_url :=
       (* profile.custom_avatar_url || `data:image/svg+xml,...` *)
       match UserProfile.custom_avatar_url profile with
       | Some url => if String.eqb url "" then stickman else url
       | None => stickman
       end;
     saved_custom_avatar_url := UserProfile.custom_avatar_url profile |}.

(** *** The topics input

    The input shows [profile.topics.join(', ')] and on every change stores
    [e.target.value.split(',').map(t => t.trim()).filter(Boolean)].  A
    character of a [string] stands for one UTF-16 code unit below 256. *)

(** The code units below 256 that [trim] removes: the white space and line
    terminators of the language. *)
Definition is_white_space (c : ascii) : bool :=
  existsb (Nat.eqb (nat_of_ascii c)) [9; 10; 11; 12; 13; 32; 160]%nat.

Fixpoint trim_start (s : string) : string :=
  match s with
  | EmptyString => EmptyString
  | String c rest => if is_white_space c then trim_start rest else s
  end.

Fixpoint trim_end (s : string) : string :=
  match s with
  | EmptyString => EmptyString
  | String c rest =>
      match trim_end rest with
      | EmptyString => if is_white_space c then EmptyString else String c EmptyString
      | kept => String c kept
      end
  end.

(** [s.trim()] *)
Definition trim (s : string) : string := trim_end (trim_start s).

(** [s.split(',')] *)
Fixpoint split_comma (s : string) : list string :=
  match s with
  | EmptyString => [EmptyString]
  | String c rest =>
      if Ascii.eqb c ","%char then EmptyString :: split_comma rest
      else match split_comma rest with
           | piece :: pieces => String c piece :: pieces
           | [] => [String c EmptyString]
           end
  end.

(** The value the [onChange] handler stores for the text typed. *)
Definition parse_topics (value : string) : list string :=
  List.filter (fun t => negb (String.eqb t "")) (map trim (split_comma value)).

(** The value the input shows. *)
Definition show_topics (topics : list string) : string := String.concat ", " topics.

Fixpoint has_comma (s : string) : bool :=
  match s with
  | EmptyString => false
  | String c rest => Ascii.eqb c ","%char || has_comma rest
  end.

(** A topic as [parse_topics] stores it: not empty, trimmed, without comma. *)
Definition stored_topic (t : string) : Prop :=
  t <> EmptyString /\ trim t = t /\ has_comma t = false.

End Prof.

(** ** [Auth.tsx] *)

Module Auth.

(** The calls the component makes to the outside. *)
Inductive event : Type :=
| ResetPasswordForEmail (email : string)
| SignUp (email password : string)
| SignInWithPassword (email password : string)
| SignInWithOAuth (provider : string)
| OnAuthSuccess
| ConsoleError (msg : string) (err : any).

Record state : Type := State {
  email : string;
  password : string;
  confirmPassword : string;
  isSignUp : bool;
  isForgotPassword : bool;
  error : any;                    (* a string or null by its type *)
  message : option string;
  loading : bool
}.

(** The auth provider and the [onAuthSuccess] prop.  A provider call answers
    with the fields the component reads from the response, or rejects. *)
Record provider : Type := {
  resetPasswordForEmail : string -> completion any;            (* error *)
  signUp : string -> string -> completion (any * any);         (* data.user, error *)
  signInWithPassword : string -> string -> completion any;     (* error *)
  signInWithOAuth : string -> completion any;                  (* error *)
  onAuthSuccess : completion unit;
  (* the TypeError thrown for reading a property of null or undefined *)
  type_error : any -> any
}.

(** [fields.name] for an object given by its fields, each name once. *)
Fixpoint field (name : string) (fields : list (string * any)) : any :=
  match fields with
  | [] => undefined
  | (key, v) :: rest => if String.eqb key name then v else field name rest
  end.

Section Component.

Variable env : provider.

(** [(err as AuthError).message] *)
Definition message_of (err : any) : completion any :=
  match err with
  | undefined | null => Throw (type_error env err)
  | Error m => Normal (text m)
  | object fields => Normal (field "message" fields)
  | boolean _ | number _ | text _ => Normal undefined
  end.

(** The [try] block of [handleSubmit]: how it ends, the calls it made, and
    the message it set. *)
Definition submit (st : state) : completion unit * list event * option string :=
  if isForgotPassword st then
    let called := [ResetPasswordForEmail (email st)] in
    match resetPasswordForEmail env (email st) with
    | Normal error =>
        if truthy error then (Throw error, called, None)
        else (Normal tt, called,
              Some "If an account exists with this email, we'll send you a password reset link.")
    | Throw e => (Throw e, called, None)
    end
  else if isSignUp st then
    if negb (String.eqb (password st) (confirmPassword st)) then
      (Throw (Error "Passwords do not match"), [], None)
    else
      let called := [SignUp (email st) (password st)] in
      match signUp env (email st) (password st) with
      | Normal (user, signUpError) =>
          if truthy signUpError then (Throw signUpError, called, None)
          else if negb (truthy user) then
            (Throw (Error "No user returned after signup"), called, None)
          else
            match onAuthSuccess env with
            | Normal _ => (Normal tt, called ++ [OnAuthSuccess], None)
            | Throw e => (Throw e, called ++ [OnAuthSuccess], None)
            end
      | Throw e => (Throw e, called, None)
      end
  else
    let called := [SignInWithPassword (email st) (password st)] in
    match signInWithPassword env (email st) (password st) with
    | Normal error =>
        if truthy error then (Throw error, called, None)
        else
          match onAuthSuccess env with
          | Normal _ => (Normal tt, called ++ [OnAuthSuccess], None)
          | Throw e => (Throw e, called ++ [OnAuthSuccess], None)
          end
    | Throw e => (Throw e, called, None)
    end.

(** [handleSubmit]: the state it starts from has [error] and [message] null
    and [loading] true; the [finally] block sets [loading] to false. *)
Definition handleSubmit (st : state) : completion unit * state * list event :=
  match submit st with
  | (Normal _, called, msg) =>
      (Normal tt,
       State (email st) (password st) (confirmPassword st) (isSignUp st)
             (isForgotPassword st) null msg false,
       called)
  | (Throw err, called, msg) =>
      let called := called ++ [ConsoleError "Auth error:" err] in
      match message_of err with
      | Normal m =>
          (Normal tt,
           State (email st) (password st) (confirmPassword st) (isSignUp st)
                 (isForgotPassword st) m msg false,
           called)
      | Throw e =>
          (Throw e,
           State (email st) (password st) (confirmPassword st) (isSignUp st)
                 (isForgotPassword st) null msg false,
           called)
      end
  end.

(** [handleGoogleSignIn]: there is no [finally]; [loading] is reset in the
    [catch] block only. *)
Definition handleGoogleSignIn (st : state) : completion unit * state * list event :=
  let called := [SignInWithOAuth "google"] in
  let thrown :=
    match signInWithOAuth env "google" with
    | Normal error => if truthy error then Some error else None
    | Throw e => Some e
    end in
  match thrown with
  | None =>
      (Normal tt,
       State (email st) (password st) (confirmPassword st) (isSignUp st)
             (isForgotPassword st) null None true,
       called)
  | Some err =>
      match message_of err with
      | Normal m =>
          (Normal tt,
           State (email st) (password st) (confirmPassword st) (isSignUp st)
                 (isForgotPassword st) m None false,
           called)
      | Throw e =>
          (Throw e,
           State (email st) (password st) (confirmPassword st) (isSignUp st)
                 (isForgotPassword st) null None true,
           called)
      end
  end.

(** The ways the [try] block of [handleSubmit] ends. *)
Inductive submitted (st : state) : completion unit * list event * option string -> Prop :=
| reset_sent error :
    isForgotPassword st = true ->
    resetPasswordForEmail env (email st) = Normal error -> truthy error = false ->
    submitted st
      (Normal tt, [ResetPasswordForEmail (email st)],
       Some "If an account exists with this email, we'll send you a password reset link.")
| reset_failed err :
    isForgotPassword st = true ->
    (resetPasswordForEmail env (email st) = Throw err \/
     resetPasswordForEmail env (email st) = Normal err /\ truthy err = true) ->
    submitted st (Throw err, [ResetPasswordForEmail (email st)], None)
| passwords_differ :
    isForgotPassword st = false -> isSignUp st = true ->
    password st <> confirmPassword st ->
    submitted st (Throw (Error "Passwords do not match"), [], None)
| sign_up_failed err :
    isForgotPassword st = false -> isSignUp st = true ->
    password st = confirmPassword st ->
    (signUp env (email st) (password st) = Throw err \/
     (exists user, signUp env (email st) (password st) = Normal (user, err) /\
                   truthy err = true) \/
     (exists user error, signUp env (email st) (password st) = Normal (user, error) /\
                   truthy error = false /\ truthy user = false /\
                   err = Error "No user returned after signup")) ->
    submitted st (Throw err, [SignUp (email st) (password st)], None)
| signed_up user error r :
    isForgotPassword st = false -> isSignUp st = true ->
    password st = confirmPassword st ->
    signUp env (email st) (password st) = Normal (user, error) ->
    truthy error = false -> truthy user = true ->
    (r = Normal tt \/ exists e, r = Throw e /\ onAuthSuccess env = Throw e) ->
    submitted st (r, [SignUp (email st) (password st); OnAuthSuccess], None)
| sign_in_failed err :
    isForgotPassword st = false -> isSignUp st = false ->
    (signInWithPassword env (email st) (password st) = Throw err \/
     signInWithPassword env (email st) (password st) = Normal err /\ truthy err = true) ->
    submitted st (Throw err, [SignInWithPassword (email st) (password st)], None)
| signed_in error r :
    isForgotPassword st = false -> isSignUp st = false ->
    signInWithPassword env (email st) (password st) = Normal error ->
    truthy error = false ->
    (r = Normal tt \/ exists e, r = Throw e /\ onAuthSuccess env = Throw e) ->
    submitted st (r, [SignInWithPassword (email st) (password st); OnAuthSuccess], None).

End Component.

(** [resetForm] *)
Definition resetForm (st : state) : state :=
  State "" "" "" (isSignUp st) (isForgotPassword st) null None (loading st).

(** The calls to the auth provider among the calls made. *)
Definition is_provider_call (ev : event) : bool :=
  match ev with
  | ResetPasswordForEmail _ | SignUp _ _ | SignInWithPassword _ _ | SignInWithOAuth _ => true
  | OnAuthSuccess | ConsoleError _ _ => false
  end.

End Auth.


(** ** [MessageList.tsx] *)

Module Msgs.

Import Schema Client.

(** What the component reads from the [userProfiles] prop for a sender:
    [userProfiles[sender]?.name] and [userProfiles[sender]?.profile_picture_url],
    whatever kind of object the prop is. *)
Record profiles : Type := {
  name_at : string -> any;
  picture_at : string -> any
}.

(** The prop for an object whose own properties are the given rows (and
    which inherits nothing under the names asked for). *)
Definition of_rows (rows : gmap string UserProfile.row) : profiles :=
  {| name_at := fun sender =>
       match rows !! sender with
       | Some p => text (UserProfile.name p)
       | None => undefined
       end;
     picture_at := fun sender =>
       match rows !! sender with
       | Some p => match UserProfile.profile_picture_url p with
                   | Some url => text url
                   | None => undefined
                   end
       | None => undefined
       end |}.

(** [a || b] *)
Definition or_else (a b : any) : any := if truthy a then a else b.

Definition isSystemMessage (message : Message.row) : bool :=
  String.eqb (Message.sender message) "system".

(** What is rendered for one message.  The line with the time is left out:
    the rows of [messages] are modelled without [created_at]. *)
Inductive rendered : Type :=
| SystemNote (key : uuid) (innerHTML : string)     (* dangerouslySetInnerHTML *)
| Bubble (key : uuid) (isOwn : bool) (src : any) (displayName : any) (body : string).

Definition render (currentUser : string) (userProfiles : profiles) (message : Message.row)
    : rendered :=
  if isSystemMessage message then SystemNote (Message.id message) (Message.text message)
  else
    let isOwn := String.eqb (Message.sender message) currentUser in
    let displayName :=
      or_else (name_at userProfiles (Message.sender message))
              (or_else (text (before_at (Message.sender message))) (text "Unknown User")) in
    let src :=
      or_else (picture_at userProfiles (Message.sender message))
              (text ("https://api.dicebear.com/7.x/avataaars/svg?seed="
                     ++ Message.sender message)) in
    Bubble (Message.id message) isOwn src displayName (Message.text message).

Definition MessageList (messages : list Message.row) (currentUser : string)
    (userProfiles : profiles) : list rendered :=
  map (render currentUser userProfiles) messages.

End Msgs.


(** ** Sample data *)

Module Sample.

Import Schema Client.

Definition ada : User.row := {| User.id := "user-1"; User.email := Some "ada@example.org" |}.

Definition bob : User.row := {| User.id := "user-2"; User.email := Some "bob@example.org" |}.

Definition algebra : Group.row :=
  {| Group.id := "group-1";
     Group.name := "Algebra";
     Group.description := Some "Linear algebra";
     Group.topics := ["math"];
     Group.max_members := Some 10;
     Group.invite_code := Some "k3y" |}.

Definition logic : Group.row :=
  {| Group.id := "group-2";
     Group.name := "Logic";
     Group.description := Some "";
     Group.topics := [];
     Group.max_members := Some 5;
     Group.invite_code := Some "c0de" |}.

Definition carol : UserProfile.row :=
  {| UserProfile.id := "user-3";
     UserProfile.name := "carol";
     UserProfile.bio := "I'm here to learn and teach";
     UserProfile.topics := [];
     UserProfile.theme := "dark";
     UserProfile.view_code := Some "VIEW0001";
     UserProfile.profile_picture_url := None;
     UserProfile.custom_avatar_url := None;
     UserProfile.gender := Some "other" |}.

(** Two groups; ada created the first, carol joined both. *)
Definition database : db :=
  {| messages :=
       [ Message.Row "message-1" "hello" "ada@example.org" (Some "group-1");
         Message.Row "message-2" "welcome" "system" (Some "group-2");
         Message.Row "message-3" "draft" "system" None ];
     groups := [algebra; logic];
     group_members :=
       [ GroupMember.Row "group-1" "user-1" true;
         GroupMember.Row "group-1" "user-3" false;
         GroupMember.Row "group-2" "user-3" false ];
     user_profiles := [carol];
     meetings := [ Meeting.Row "meeting-1" (Some "group-1") "Matrices" "https://meet.jit.si/a" (Some "user-1") ];
     users := [ada; bob; User.Row "user-3" (Some "carol@example.org")] |}.

(** A backend that answers every request. *)
Definition online : network := fun _ => Answered.

(** A backend whose answer to the second request of a run is an error. *)
Definition faltering : network :=
  fun k => if (k =? 1)%nat then Failed "JWT expired" else Answered.

(** The browser session of a signed-in user. *)
Definition session (user : User.row) : world :=
  {| Client.database := database;
     auth_uid := User.id user;
     auth_user := Some user;
     server_random := fun n => ("generated-" ++ pretty n)%string;
     server_draws := 0;
     math_random := fun k => Z.of_nat ((7 * k + 3) mod 36);
     client_draws := 0;
     timeouts := [];
     console := [] |}.


Definition dashboard : Dash.state :=
  {| Dash.createdGroups := [];
     Dash.joinedGroups := [];
     Dash.isCreateModalOpen := true;
     Dash.loading := true;
     Dash.error := None;
     Dash.profile := None;
     Dash.body_className := "" |}.

Definition search : Find.state :=
  {| Find.profile := None; Find.groups := []; Find.loading := false; Find.error := None |}.

Definition stickman : string := "data:image/svg+xml,%3Csvg%3E".

(** Surroundings in which the sign-up trigger writes bob's profile only
    while the dashboard is waiting: the auth request of the first round
    comes back with an error, and the row is there for the second query. *)
Definition late_trigger : Dash.surroundings :=
  {| Dash.responses := faltering;
     Dash.others := fun k d =>
       if (k =? 2)%nat then handle_new_user stickman (Some "Zm9vYmFy") bob d else d |}.

Definition photo : Prof.File :=
  {| Prof.file_name := "me.png"; Prof.size := 204800; Prof.type := "image/png" |}.

Definition browser : Prof.browser :=
  {| Prof.setup_throws := fun _ => None;
     Prof.has_context := true;
     Prof.decode := fun _ => Some (640, 480);
     Prof.encodes := fun _ => true;
     Prof.Date_now := 1740000000000;
     Prof.upload_result := fun _ => Normal null;
     Prof.getPublicUrl := fun name => ("https://storage.example/avatars/" ++ name)%string |}.

Definition editor : Prof.world :=
  {| Prof.profile := carol; Prof.alerts := []; Prof.uploads := []; Prof.console := [] |}.

End Sample.

(** ** More sample data *)

Module Fixture.

(** An SDK that hands three statuses to the callback and has two channels. *)
Definition lively : Lib.sdk :=
  {| Lib.channel_returns := fun _ => Normal 7%nat;
     Lib.subscribe_settles :=
       fun _ => Normal ([text "CHANNEL_ERROR"; text "TIMED_OUT"; text "SUBSCRIBED"],
                        text "SUBSCRIBED");
     Lib.getChannels_returns := fun _ => Normal [3%nat; 7%nat];
     Lib.removeChannel_returns := fun _ => Normal tt;
     Lib.unsubscribe_returns := fun _ => Normal tt;
     Lib.removeItem_returns := fun _ => Normal tt;
     Lib.storageKey := Some "supabase.auth.token";
     Lib.auth_signOut_settles := fun _ => Normal null |}.

(** The same SDK when the provider reports an error on sign-out. *)
Definition refusing : Lib.sdk :=
  {| Lib.channel_returns := fun _ => Normal 7%nat;
     Lib.subscribe_settles := fun _ => Normal ([], undefined);
     Lib.getChannels_returns := fun _ => Normal [3%nat; 7%nat];
     Lib.removeChannel_returns := fun _ => Normal tt;
     Lib.unsubscribe_returns := fun _ => Normal tt;
     Lib.removeItem_returns := fun _ => Normal tt;
     Lib.storageKey := Some "supabase.auth.token";
     Lib.auth_signOut_settles := fun _ => Normal (Error "network") |}.

(** A browser with a session and a setting in local storage. *)
Definition browsing : Lib.world :=
  {| Lib.isConnected := true;
     Lib.realtimeHealthCheck := true;
     Lib.localStorage :=
       {[ "supabase.auth.token" := "session";
          "supabase.auth.refreshToken" := "refresh";
          "theme" := "dark" ]};
     Lib.href := "/dashboard";
     Lib.trace := [] |}.

(** The tables of the first migration with a profile that has no view code
    yet. *)
Definition codeless : Schema.UserProfile.row :=
  {| Schema.UserProfile.id := "user-2";
     Schema.UserProfile.name := "bob";
     Schema.UserProfile.bio := "";
     Schema.UserProfile.topics := [];
     Schema.UserProfile.theme := "dark";
     Schema.UserProfile.view_code := None;
     Schema.UserProfile.profile_picture_url := None;
     Schema.UserProfile.custom_avatar_url := None;
     Schema.UserProfile.gender := Some "other" |}.

Definition first_migration : Schema.db :=
  {| Schema.messages := Schema.messages Sample.database;
     Schema.groups := Schema.groups Sample.database;
     Schema.group_members := Schema.group_members Sample.database;
     Schema.user_profiles := [Sample.carol; codeless];
     Schema.meetings := Schema.meetings Sample.database;
     Schema.users := Schema.users Sample.database |}.

(** [random()] below 1/36 at every call. *)
Definition always_first : nat -> Z := fun _ => 1.


End Fixture.


(** * Properties of the client wrapper *)

Section LibFacts.

Import Lib.

Variable env : sdk.

Lemma retry_from_eq op N d i :
  retry_from env op N d i =
  if decide (i < N) then
    try_catch (call Operation op)
      (fun error =>
         if i =? N - 1 then throw error
         else _ ← emit (SetTimeout (d * 2 ^ i));
              _ ← checkRealtimeHealth env;
              retry_from env op N d (i + 1))
  else ret undefined.
Proof.
  rewrite retry_from_equation_1. unfold decide, decide_rel.
  destruct (Z_lt_dec i N), (Z.lt_dec i N); try lia; reflexivity.
Qed.

Lemma schedule_app h1 h2 : schedule (h1 ++ h2) = schedule h1 ++ schedule h2.
Proof. apply List.filter_app. Qed.

Lemma invocations_app h1 h2 :
  invocations (h1 ++ h2) = (invocations h1 + invocations h2)%nat.
Proof. unfold invocations. rewrite List.filter_app. apply length_app. Qed.

Lemma invocations_schedule h : invocations (schedule h) = invocations h.
Proof.
  unfold invocations, schedule. induction h as [|ev h IH]; [reflexivity|].
  destruct ev; simpl; auto.
Qed.

(** The status callback only talks to the SDK and the console. *)
Lemma on_status_run s w :
  exists w' rest, on_status s w = (Normal tt, w') /\
    trace w' = trace w ++ rest /\ schedule rest = [].
Proof.
  unfold on_status, mbind, M_bind, bind, set_isConnected, modify, get_isConnected.
  simpl. destruct (strict_eq_text s "SUBSCRIBED"); simpl.
  - eexists _, []. rewrite app_nil_r. auto.
  - unfold emit, call. simpl. eexists _, [_; _; _].
    split; [reflexivity|]. simpl. rewrite <- !app_assoc. auto.
Qed.

Lemma deliver_run ss w :
  exists w' rest, deliver ss w = (Normal tt, w') /\
    trace w' = trace w ++ rest /\ schedule rest = [].
Proof.
  revert w. induction ss as [|s ss IH]; intros w.
  - exists w, []. rewrite app_nil_r. auto.
  - simpl. unfold mbind, M_bind, bind.
    destruct (on_status_run s w) as (w1 & r1 & -> & Ht1 & Hs1).
    destruct (IH w1) as (w2 & r2 & -> & Ht2 & Hs2).
    exists w2, (r1 ++ r2). split; [reflexivity|].
    rewrite Ht2, Ht1, <- app_assoc, schedule_app, Hs1, Hs2. auto.
Qed.

(** [checkRealtimeHealth] never throws, and is one entry in the schedule. *)
Lemma checkRealtimeHealth_run w :
  exists b w' rest, checkRealtimeHealth env w = (Normal b, w') /\
    trace w' = trace w ++ HealthCheck :: rest /\ schedule rest = [].
Proof.
  unfold checkRealtimeHealth, mbind, M_bind, bind, try_catch, emit, call. simpl.
  destruct (channel_returns env (trace w ++ [HealthCheck])) as [c|e].
  - destruct (subscribe_settles env _) as [[ss v]|e]; simpl.
    + match goal with |- context [deliver ss ?w0] =>
        destruct (deliver_run ss w0) as (w1 & r1 & -> & Ht1 & Hs1) end.
      simpl in Ht1. eexists _, w1, (_ :: _ :: r1). split; [reflexivity|].
      rewrite Ht1, <- !app_assoc. simpl. auto.
    + eexists _, _, [_; _; _]. split; [reflexivity|].
      simpl. rewrite <- !app_assoc. auto.
  - eexists _, _, [_; _]. split; [reflexivity|].
    simpl. rewrite <- !app_assoc. auto.
Qed.

Lemma rounds_succ d i k : rounds d i (S k) = round d i ++ rounds d (S i) k.
Proof. reflexivity. Qed.

(** Where an event sits in a history whose first part does not have it. *)
Lemma split_after (x : event) (l1 l2 p q : history) :
  l1 ++ l2 = p ++ x :: q -> ~ In x l1 ->
  exists p2, p = l1 ++ p2 /\ l2 = p2 ++ x :: q.
Proof.
  revert p. induction l1 as [|y l1 IH]; intros p Heq Hno.
  - exists p. auto.
  - destruct p as [|z p]; simpl in Heq; injection Heq as -> Heq.
    + exfalso. apply Hno. left. reflexivity.
    + destruct (IH p Heq) as (p2 & -> & ->).
      * intros Hin. apply Hno. right. exact Hin.
      * exists p2. auto.
Qed.

Lemma not_invoked (l : history) : invocations l = 0%nat -> ~ In Operation l.
Proof.
  unfold invocations. induction l as [|y l IH]; [intros _ []|].
  intros Hno [Heq|Hin]; simpl in *.
  - subst y. discriminate Hno.
  - destruct (is_operation y); [discriminate|exact (IH Hno Hin)].
Qed.

Lemma split_after_unscheduled (l1 l2 p q : history) :
  l1 ++ l2 = p ++ Operation :: q -> invocations l1 = 0%nat ->
  exists p2, p = l1 ++ p2 /\ l2 = p2 ++ Operation :: q.
Proof. intros Heq Hno. eapply split_after; eauto using not_invoked. Qed.

(** One run of the loop entered at index [i] with [S m] attempts left: it
    makes [k] full rounds and a last attempt, every attempt before the last
    one threw, and the loop ends the way the last attempt does. *)
Lemma retry_from_run op N d (m : nat) : forall (i : nat) w,
  Z.of_nat i + Z.of_nat (S m) = N ->
  exists (k : nat) r w' pre,
    retry_from env op N d (Z.of_nat i) w = (r, w') /\
    trace w' = trace w ++ pre ++ [Operation] /\
    schedule pre = rounds d i k /\
    (k <= m)%nat /\
    r = op (trace w ++ pre) /\
    (forall e, r = Throw e -> k = m) /\
    (forall p q, pre = p ++ Operation :: q -> exists e, op (trace w ++ p) = Throw e).
Proof.
  induction m as [|m IH]; intros i w HN; rewrite retry_from_eq;
    (destruct (decide (Z.of_nat i < N)); [|lia]);
    unfold try_catch, call at 1; simpl; destruct (op (trace w)) as [a|e] eqn:Hop.
  - exists 0%nat, (Normal a), (World (isConnected w) (realtimeHealthCheck w)
      (localStorage w) (href w) (trace w ++ [Operation])), [].
    rewrite app_nil_r. repeat split; auto; try discriminate.
    intros [|] ? ?; discriminate.
  - replace (Z.of_nat i =? N - 1) with true by lia.
    exists 0%nat, (Throw e), (World (isConnected w) (realtimeHealthCheck w)
      (localStorage w) (href w) (trace w ++ [Operation])), [].
    rewrite app_nil_r. repeat split; auto.
    intros [|] ? ?; discriminate.
  - exists 0%nat, (Normal a), (World (isConnected w) (realtimeHealthCheck w)
      (localStorage w) (href w) (trace w ++ [Operation])), [].
    rewrite app_nil_r. repeat split; auto; try discriminate; try lia.
    intros [|] ? ?; discriminate.
  - replace (Z.of_nat i =? N - 1) with false by lia.
    unfold mbind, M_bind, bind, emit, call. simpl.
    match goal with |- context [checkRealtimeHealth env ?w0] =>
      destruct (checkRealtimeHealth_run w0) as (b & w1 & rest & -> & Ht1 & Hs1) end.
    simpl in Ht1.
    replace (Z.of_nat i + 1) with (Z.of_nat (S i)) by lia.
    destruct (IH (S i) w1 ltac:(lia)) as (k & r & w2 & pre & -> & Ht2 & Hsch & Hk & Hr & Hthrow & Hearlier).
    exists (S k), r, w2,
      ([Operation; SetTimeout (d * 2 ^ Z.of_nat i)] ++ (HealthCheck :: rest) ++ pre).
    assert (Hprefix : trace w1 ++ pre =
        trace w ++ [Operation; SetTimeout (d * 2 ^ Z.of_nat i)] ++ (HealthCheck :: rest) ++ pre).
    { rewrite Ht1, <- !app_assoc. reflexivity. }
    split; [reflexivity|]. split; [|split; [|split; [|split; [|split]]]].
    + rewrite Ht2, Ht1, <- !app_assoc. reflexivity.
    + rewrite rounds_succ, !schedule_app, Hsch. simpl. rewrite Hs1. reflexivity.
    + lia.
    + rewrite <- Hprefix. exact Hr.
    + intros e' He'. f_equal. eauto.
    + intros p q Hpq. destruct p as [|x p]; simpl in Hpq.
      * rewrite app_nil_r. eauto.
      * injection Hpq as <- Hpq.
        change (SetTimeout (d * 2 ^ Z.of_nat i) :: HealthCheck :: rest ++ pre)
          with ((SetTimeout (d * 2 ^ Z.of_nat i) :: HealthCheck :: rest) ++ pre) in Hpq.
        apply split_after_unscheduled in Hpq as (p2 & -> & Hpre).
        -- destruct (Hearlier p2 q Hpre) as [e' He']. exists e'.
           rewrite <- He', Ht1, <- !app_assoc. reflexivity.
        -- rewrite <- invocations_schedule. simpl. rewrite Hs1. reflexivity.
Qed.

Lemma invocations_rounds d i k : invocations (rounds d i k) = k.
Proof.
  revert i. induction k as [|k IH]; intros i; [reflexivity|].
  rewrite rounds_succ, invocations_app, IH. reflexivity.
Qed.





End LibFacts.

(** ** The retry helper *)

(** C1.  With [N = maxRetries >= 1]: an operation that is rejected on its
    first [N - 1] invocations and fulfils with [v] on the [N]-th is invoked
    exactly [N] times and [retryOperation] resolves with [v]; an operation
    that is rejected on every invocation is invoked exactly [N] times and
    [retryOperation] rejects with the error of that [N]-th invocation. *)
Theorem retryOperation_attempts (env : Lib.sdk) op (N d : Z) (w : Lib.world) :
  1 <= N ->
  (forall v,
     (forall h, Z.of_nat (Lib.invocations h) < N - 1 ->
                exists e, op (Lib.trace w ++ h) = Throw e) ->
     (forall h, Z.of_nat (Lib.invocations h) = N - 1 ->
                op (Lib.trace w ++ h) = Normal v) ->
     exists w' h,
       Lib.retryOperation env op N d w = (Normal v, w') /\
       Lib.trace w' = Lib.trace w ++ h /\
       Z.of_nat (Lib.invocations h) = N) /\
  ((forall h, exists e, op (Lib.trace w ++ h) = Throw e) ->
     exists e w' h,
       Lib.retryOperation env op N d w = (Throw e, w') /\
       Lib.trace w' = Lib.trace w ++ h ++ [Lib.Operation] /\
       Z.of_nat (Lib.invocations (h ++ [Lib.Operation])) = N /\
       op (Lib.trace w ++ h) = Throw e).
Proof.
  intros HN.
  destruct (retry_from_run env op N d (Z.to_nat N - 1) 0 w ltac:(lia))
    as (k & r & w' & pre & Hrun & Htrace & Hsch & Hk & Hr & Hthrow & _).
  assert (Hinv : Lib.invocations pre = k).
  { rewrite <- invocations_schedule, Hsch. apply invocations_rounds. }
  change (Lib.retry_from env op N d (Z.of_nat 0)) with (Lib.retryOperation env op N d) in Hrun.
  split.
  - intros v Hfail Hlast. exists w', (pre ++ [Lib.Operation]).
    assert (Hk' : k = (Z.to_nat N - 1)%nat).
    { destruct (decide (k = (Z.to_nat N - 1)%nat)) as [|Hne]; [assumption|].
      destruct (Hfail pre) as [e He]; [rewrite Hinv; lia|].
      apply (Hthrow e). congruence. }
    rewrite Hrun, Hr, Hlast by (rewrite Hinv; lia). repeat split; [assumption|].
    rewrite invocations_app, Hinv.
    change (Lib.invocations [Lib.Operation]) with 1%nat. lia.
  - intros Hfail. destruct (Hfail pre) as [e He].
    exists e, w', pre. rewrite Hrun, Hr, He. repeat split; [assumption|].
    rewrite invocations_app, Hinv, (Hthrow e) by congruence.
    change (Lib.invocations [Lib.Operation]) with 1%nat. lia.
Qed.

Lemma retryOperation_attempts_witness :
  exists w' h,
    Lib.retryOperation Lib.quiet Lib.flaky 3 1000 Lib.loaded = (Normal (text "rows"), w') /\
    Lib.trace w' = Lib.trace Lib.loaded ++ h /\
    Z.of_nat (Lib.invocations h) = 3.
Proof.
  destruct (retryOperation_attempts Lib.quiet Lib.flaky 3 1000 Lib.loaded ltac:(lia))
    as [Hfulfil _].
  apply Hfulfil; intros h Hh; simpl; unfold Lib.flaky.
  - exists (Error "Failed to fetch").
    destruct (Nat.ltb_spec (Lib.invocations h) 2); [reflexivity|lia].
  - destruct (Nat.ltb_spec (Lib.invocations h) 2); [lia|reflexivity].
Defined.




(** C9.  With [maxRetries <= 0] the loop body never runs: [retryOperation]
    resolves with [undefined], the operation is not invoked and nothing else
    happens. *)
Theorem retryOperation_no_attempts (env : Lib.sdk) op (N d : Z) (w : Lib.world) :
  N <= 0 ->
  Lib.retryOperation env op N d w = (Normal undefined, w).
Proof.
  intros HN. unfold Lib.retryOperation. rewrite retry_from_eq.
  destruct (decide (0 < N)); [lia|reflexivity].
Qed.

Lemma retryOperation_no_attempts_witness :
  Lib.retryOperation Lib.quiet Lib.flaky 0 1000 Lib.loaded = (Normal undefined, Lib.loaded).
Proof.
  apply (retryOperation_no_attempts Lib.quiet Lib.flaky 0 1000 Lib.loaded). lia.
Defined.

(** ** Sign-out *)

Section SignOutFacts.

Import Lib.

Variable rev : revision.
Variable env : sdk.

Lemma succeeded_app h0 h1 h2 :
  succeeded env h0 (h1 ++ h2) <->
  succeeded env h0 h1 /\ succeeded env (h0 ++ h1) h2.
Proof.
  revert h0. induction h1 as [|ev h1 IH]; intros h0; simpl.
  - rewrite app_nil_r. tauto.
  - rewrite IH, <- app_assoc. simpl. tauto.
Qed.

Lemma failed_at_last_app h0 h1 h2 e :
  succeeded env h0 h1 -> failed_at_last env (h0 ++ h1) h2 e ->
  failed_at_last env h0 (h1 ++ h2) e.
Proof.
  intros H1 (p & ev & -> & Hp & Hev). exists (h1 ++ p), ev.
  rewrite <- !app_assoc in *. rewrite succeeded_app. auto.
Qed.

Lemma run_ok_ret {A} (shape : history -> Prop) (post : A -> Prop) a :
  shape [] -> post a -> run_ok env shape post (ret a).
Proof.
  intros Hs Hp w. exists (Normal a), w, []. rewrite app_nil_r. simpl. auto.
Qed.

Lemma run_ok_modify (shape : history -> Prop) f :
  shape [] -> (forall w, trace (f w) = trace w) ->
  run_ok env shape (fun _ => True) (modify f).
Proof.
  intros Hs Hf w. exists (Normal tt), (f w), []. rewrite app_nil_r, Hf. simpl. auto.
Qed.

Lemma run_ok_call {A} (shape : history -> Prop) ev (answer : history -> completion A) :
  (forall h, failure env h ev =
             match answer h with Throw e => Some e | Normal _ => None end) ->
  shape [ev] -> run_ok env shape (fun _ => True) (call ev answer).
Proof.
  intros Hfail Hs w. unfold call. eexists _, _, [ev].
  split; [reflexivity|]. split; [reflexivity|]. split; [assumption|].
  specialize (Hfail (trace w)). destruct (answer (trace w)) as [a|e]; simpl.
  - auto.
  - exists [], ev. rewrite app_nil_r. simpl. auto.
Qed.

Lemma run_ok_bind {A B} (P Q R : history -> Prop) (postm : A -> Prop)
    (post : B -> Prop) (m : M A) (k : A -> M B) :
  run_ok env P postm m -> (forall a, postm a -> run_ok env Q post (k a)) ->
  (forall h, P h -> R h) -> (forall h1 h2, P h1 -> Q h2 -> R (h1 ++ h2)) ->
  run_ok env R post (m ≫= k).
Proof.
  intros Hm Hk HPR HPQR w. unfold mbind, M_bind, bind.
  destruct (Hm w) as (r1 & w1 & h1 & -> & Ht1 & Hs1 & He1).
  destruct r1 as [a|e]; simpl in He1.
  - destruct He1 as [Ha Hok1].
    destruct (Hk a Ha w1) as (r2 & w2 & h2 & -> & Ht2 & Hs2 & He2).
    exists r2, w2, (h1 ++ h2). split; [reflexivity|].
    split; [rewrite Ht2, Ht1, app_assoc; reflexivity|]. split; [auto|].
    rewrite Ht1 in He2. destruct r2 as [b|e]; simpl in *.
    + rewrite succeeded_app. tauto.
    + apply failed_at_last_app; assumption.
  - exists (Throw e), w1, h1. simpl. auto.
Qed.

(** An outside call fails exactly when its oracle throws. *)
Ltac outside_call :=
  apply run_ok_call; [intros ?; reflexivity|first [reflexivity|repeat constructor]].

Lemma after_cleanup_app h1 h2 :
  after_cleanup_shape h1 -> after_cleanup_shape h2 -> after_cleanup_shape (h1 ++ h2).
Proof.
  unfold after_cleanup_shape. intros H1 H2. rewrite List.filter_app, H1, H2. reflexivity.
Qed.

(** Sequencing two computations that make no call of [cleanup]. *)
Lemma run_ok_then {A B} (postm : A -> Prop) (post : B -> Prop) (m : M A) (k : A -> M B) :
  run_ok env after_cleanup_shape postm m ->
  (forall a, postm a -> run_ok env after_cleanup_shape post (k a)) ->
  run_ok env after_cleanup_shape post (m ≫= k).
Proof.
  intros Hm Hk. eapply run_ok_bind; eauto using after_cleanup_app.
Qed.

Lemma removeItem_ok key :
  run_ok env after_cleanup_shape (fun _ => True) (removeItem env key).
Proof.
  unfold removeItem. eapply run_ok_then.
  - outside_call.
  - intros _ _. apply run_ok_modify; reflexivity.
Qed.

Lemma set_href_ok url :
  run_ok env after_cleanup_shape (fun _ => True) (set_href url).
Proof.
  unfold set_href. eapply run_ok_then.
  - outside_call.
  - intros _ _. apply run_ok_modify; reflexivity.
Qed.

(** The provider sign-out followed by [if (error) throw error]. *)
Lemma auth_signOut_ok {A} (post : A -> Prop) (k : M A) :
  run_ok env after_cleanup_shape post k ->
  run_ok env after_cleanup_shape post
    (error ← call AuthSignOut (auth_signOut_settles env);
     _ ← (if truthy error then throw error else ret tt);
     k).
Proof.
  intros Hk w. unfold mbind, M_bind, bind, call, throw, ret. simpl.
  assert (Hfail : forall e, failure env (trace w) AuthSignOut = Some e ->
            failed_at_last env (trace w) [AuthSignOut] e).
  { intros e He. exists [], AuthSignOut. rewrite app_nil_r. simpl. auto. }
  destruct (auth_signOut_settles env (trace w)) as [error|e] eqn:Hauth.
  - destruct (truthy error) eqn:Htruthy.
    + eexists _, _, [AuthSignOut]. split; [reflexivity|]. split; [reflexivity|].
      split; [reflexivity|]. apply Hfail. simpl. rewrite Hauth, Htruthy. reflexivity.
    + match goal with |- context [k ?w0] =>
        destruct (Hk w0) as (r & w2 & h2 & -> & Ht2 & Hs2 & He2) end.
      simpl in Ht2, He2. exists r, w2, (AuthSignOut :: h2).
      split; [reflexivity|]. split; [rewrite Ht2, <- app_assoc; reflexivity|].
      split; [exact (after_cleanup_app [AuthSignOut] h2 eq_refl Hs2)|].
      assert (Hok : succeeded env (trace w) [AuthSignOut]).
      { simpl. rewrite Hauth, Htruthy. auto. }
      destruct r as [a|e]; simpl in *.
      * rewrite Hauth, Htruthy. tauto.
      * apply (failed_at_last_app (trace w) [AuthSignOut] h2); assumption.
  - eexists _, _, [AuthSignOut]. split; [reflexivity|]. split; [reflexivity|].
    split; [reflexivity|]. apply Hfail. simpl. rewrite Hauth. reflexivity.
Qed.

(** Sequencing two computations that only make calls of [cleanup]. *)
Lemma run_ok_cleanup_then {A B} (postm : A -> Prop) (post : B -> Prop)
    (m : M A) (k : A -> M B) :
  run_ok env (Forall (fun ev => is_cleanup ev = true)) postm m ->
  (forall a, postm a -> run_ok env (Forall (fun ev => is_cleanup ev = true)) post (k a)) ->
  run_ok env (Forall (fun ev => is_cleanup ev = true)) post (m ≫= k).
Proof.
  intros Hm Hk. eapply run_ok_bind; eauto.
  intros h1 h2 H1 H2. apply Forall_app; auto.
Qed.

Lemma removeChannels_ok cs :
  run_ok env (Forall (fun ev => is_cleanup ev = true)) (fun _ => True)
    (removeChannels rev env cs).
Proof.
  induction cs as [|c cs IH]; simpl.
  - apply run_ok_ret; [constructor|exact I].
  - eapply run_ok_cleanup_then with (postm := fun _ => True).
    + destruct rev.
      * apply run_ok_ret; [constructor|exact I].
      * outside_call.
    + intros _ _. eapply run_ok_cleanup_then with (postm := fun _ => True).
      * outside_call.
      * intros _ _. exact IH.
Qed.

(** [getChannels] and the removal of each channel it returns. *)
Lemma getChannels_ok : forall w0 : world,
  exists r w' h,
    (channels ← call GetChannels (getChannels_returns env);
     removeChannels rev env channels) w0 = (r, w') /\
    trace w' = trace w0 ++ GetChannels :: h /\
    Forall (fun ev => is_cleanup ev = true) h /\
    ends env (fun _ => True) r (trace w0) (GetChannels :: h).
Proof.
  intros w0. unfold mbind, M_bind, bind, call. simpl.
  destruct (getChannels_returns env (trace w0)) as [cs|e] eqn:Hcs.
  - match goal with |- context [removeChannels rev env cs ?w1] =>
      destruct (removeChannels_ok cs w1) as (r & w2 & h & -> & Ht & Hs & He) end.
    simpl in Ht, He. exists r, w2, h. split; [reflexivity|].
    split; [rewrite Ht, <- app_assoc; reflexivity|]. split; [assumption|].
    assert (Hok : succeeded env (trace w0) [GetChannels]).
    { simpl. rewrite Hcs. auto. }
    destruct r as [a|e]; simpl in *.
    + rewrite Hcs. tauto.
    + apply (failed_at_last_app (trace w0) [GetChannels] h); assumption.
  - eexists _, _, []. split; [reflexivity|]. split; [reflexivity|].
    split; [constructor|]. exists [], GetChannels. rewrite app_nil_r. simpl.
    rewrite Hcs. auto.
Qed.

Lemma cleanup_ok : run_ok env cleanup_shape (fun _ => True) (cleanup rev env).
Proof.
  intros w. unfold cleanup.
  change ((get_realtimeHealthCheck ≫= _) w) with
    (((if realtimeHealthCheck w then emit ClearInterval else ret tt) ≫=
      (fun _ => channels ← call GetChannels (getChannels_returns env);
                removeChannels rev env channels)) w).
  destruct (realtimeHealthCheck w).
  - change ((emit ClearInterval ≫= ?k) w) with
      (k tt (World (isConnected w) (realtimeHealthCheck w) (localStorage w)
                   (href w) (trace w ++ [ClearInterval]))).
    cbv beta.
    match goal with |- context [(_ ≫= _) ?w0] =>
      destruct (getChannels_ok w0) as (r & w' & h & -> & Ht & Hs & He) end.
    simpl in Ht, He. exists r, w', (ClearInterval :: GetChannels :: h).
    split; [reflexivity|]. split; [rewrite Ht, <- app_assoc; reflexivity|].
    split; [split; [repeat constructor; assumption|right; left; reflexivity]|].
    destruct r as [a|e].
    + simpl in *. tauto.
    + apply (failed_at_last_app (trace w) [ClearInterval] (GetChannels :: h));
        simpl; auto.
  - change ((ret tt ≫= ?k) w) with (k tt w). cbv beta.
    destruct (getChannels_ok w) as (r & w' & h & -> & Ht & Hs & He).
    exists r, w', (GetChannels :: h). split; [reflexivity|]. split; [assumption|].
    split; [split; [constructor; [reflexivity|assumption]|left; reflexivity]|assumption].
Qed.

Lemma signOut_try_ok :
  run_ok env signOut_shape (fun v => v = object [("error", null)])
    (signOut_try rev env).
Proof.
  unfold signOut_try.
  eapply run_ok_bind with (Q := after_cleanup_shape); [apply cleanup_ok| | |].
  - intros _ _. eapply run_ok_then with (postm := fun _ => True).
    + destruct (storageKey env) as [k|].
      * destruct (truthy (text k)); [apply removeItem_ok|].
        apply run_ok_ret; [reflexivity|exact I].
      * apply run_ok_ret; [reflexivity|exact I].
    + intros _ _. apply auth_signOut_ok.
      eapply run_ok_then; [apply removeItem_ok|intros _ _].
      eapply run_ok_then; [apply removeItem_ok|intros _ _].
      eapply run_ok_then; [apply set_href_ok|intros _ _].
      apply run_ok_ret; reflexivity.
  - intros h Hh. exists h, []. rewrite app_nil_r. repeat split; auto; apply Hh.
  - intros h1 h2 H1 H2. exists h1, h2. auto.
Qed.

(** In a run of [signOut] the provider sign-out comes after [cleanup]. *)
Lemma signOut_shape_ordered h :
  signOut_shape h ->
  forall p q, h = p ++ AuthSignOut :: q ->
    In GetChannels p /\ List.filter is_cleanup q = [].
Proof.
  intros (hc & tail & -> & [Hall Hget] & Htail) p q Heq.
  apply split_after in Heq as (p2 & -> & ->).
  - split; [apply List.in_or_app; left; exact Hget|].
    unfold after_cleanup_shape in Htail. rewrite List.filter_app in Htail.
    apply app_eq_nil in Htail as [_ Htail]. exact Htail.
  - intros Hin. rewrite List.Forall_forall in Hall.
    specialize (Hall _ Hin). discriminate Hall.
Qed.

(** *** The calls of a run, one by one *)

Lemma follows_ret {A} (post : A -> Prop) a : post a -> follows env [] post (ret a).
Proof.
  intros Hp w. exists (Normal a), w, []. rewrite app_nil_r. simpl. auto.
Qed.

Lemma follows_modify f :
  (forall w, trace (f w) = trace w) -> follows env [] (fun _ => True) (modify f).
Proof.
  intros Hf w. exists (Normal tt), (f w), []. rewrite app_nil_r, Hf. simpl. auto.
Qed.

Lemma follows_call {A} ev (answer : history -> completion A) :
  (forall h, failure env h ev =
             match answer h with Throw e => Some e | Normal _ => None end) ->
  follows env [ev] (fun _ => True) (call ev answer).
Proof.
  intros Hfail w. unfold call. eexists _, _, [ev].
  split; [reflexivity|]. split; [reflexivity|].
  specialize (Hfail (trace w)). destruct (answer (trace w)) as [a|e]; simpl.
  - auto.
  - exists [], ev, []. rewrite app_nil_r. simpl. auto.
Qed.

Lemma follows_bind {A B} (full1 full2 : history) (postm : A -> Prop) (post : B -> Prop)
    (m : M A) (k : A -> M B) :
  follows env full1 postm m -> (forall a, postm a -> follows env full2 post (k a)) ->
  follows env (full1 ++ full2) post (m ≫= k).
Proof.
  intros Hm Hk w. unfold mbind, M_bind, bind.
  destruct (Hm w) as (r1 & w1 & h1 & -> & Ht1 & He1).
  destruct r1 as [a|e].
  - destruct He1 as (Ha & -> & Hok1).
    destruct (Hk a Ha w1) as (r2 & w2 & h2 & -> & Ht2 & He2).
    exists r2, w2, (full1 ++ h2). split; [reflexivity|].
    split; [rewrite Ht2, Ht1, app_assoc; reflexivity|].
    rewrite Ht1 in He2. destruct r2 as [b|e].
    + destruct He2 as (Hb & -> & Hok2). rewrite succeeded_app. auto.
    + destruct He2 as (p & ev & q & -> & -> & Hp & Hev).
      exists (full1 ++ p), ev, q. rewrite <- !app_assoc in *.
      rewrite succeeded_app. auto.
  - destruct He1 as (p & ev & q & -> & -> & Hp & Hev).
    exists (Throw e), w1, (p ++ [ev]). split; [reflexivity|]. split; [exact Ht1|].
    exists p, ev, (q ++ full2). rewrite <- app_assoc. auto.
Qed.

Ltac next_call := apply follows_call; intros ?; reflexivity.

Lemma removeItem_follows key :
  follows env [RemoveItem key] (fun _ => True) (removeItem env key).
Proof.
  unfold removeItem. apply (follows_bind [RemoveItem key] [] (fun _ => True)).
  - next_call.
  - intros _ _. apply follows_modify. reflexivity.
Qed.

Lemma set_href_follows url : follows env [SetHref url] (fun _ => True) (set_href url).
Proof.
  unfold set_href. apply (follows_bind [SetHref url] [] (fun _ => True)).
  - next_call.
  - intros _ _. apply follows_modify. reflexivity.
Qed.

Lemma removeChannels_follows cs :
  follows env (channel_calls rev cs) (fun _ => True) (removeChannels rev env cs).
Proof.
  induction cs as [|c cs IH]; simpl.
  - apply follows_ret. exact I.
  - unfold channel_calls. simpl. fold (channel_calls rev cs). destruct rev.
    + apply (follows_bind [] (RemoveChannel c :: channel_calls Earlier cs) (fun _ => True));
        [apply follows_ret; exact I|intros _ _].
      apply (follows_bind [RemoveChannel c] (channel_calls Earlier cs) (fun _ => True));
        [next_call|intros _ _; exact IH].
    + apply (follows_bind [UnsubscribeChannel c]
               (RemoveChannel c :: channel_calls Later cs) (fun _ => True));
        [next_call|intros _ _].
      apply (follows_bind [RemoveChannel c] (channel_calls Later cs) (fun _ => True));
        [next_call|intros _ _; exact IH].
Qed.

(** The provider sign-out followed by [if (error) throw error]. *)
Lemma auth_signOut_follows :
  follows env [AuthSignOut] (fun _ => True)
    (error ← call AuthSignOut (auth_signOut_settles env);
     if truthy error then throw error else ret tt).
Proof.
  intros w. unfold mbind, M_bind, bind, call, throw, ret. simpl.
  assert (Hfail : forall e, failure env (trace w) AuthSignOut = Some e ->
            exists p ev q, [AuthSignOut] = p ++ ev :: q /\ [AuthSignOut] = p ++ [ev] /\
              succeeded env (trace w) p /\ failure env (trace w ++ p) ev = Some e).
  { intros e He. exists [], AuthSignOut, []. rewrite app_nil_r. simpl. auto. }
  destruct (auth_signOut_settles env (trace w)) as [error|e] eqn:Hauth.
  - destruct (truthy error) eqn:Htruthy.
    + eexists _, _, [AuthSignOut]. split; [reflexivity|]. split; [reflexivity|].
      apply Hfail. simpl. rewrite Hauth, Htruthy. reflexivity.
    + eexists _, _, [AuthSignOut]. split; [reflexivity|]. split; [reflexivity|].
      simpl. rewrite Hauth, Htruthy. auto.
  - eexists _, _, [AuthSignOut]. split; [reflexivity|]. split; [reflexivity|].
    apply Hfail. simpl. rewrite Hauth. reflexivity.
Qed.

(** What [signOut] does after [cleanup]. *)
Lemma after_cleanup_follows :
  follows env (after_cleanup_calls env) (fun v => v = object [("error", null)])
    (_ ← match storageKey env with
         | Some storageKey =>
             if truthy (text storageKey) then removeItem env storageKey else ret tt
         | None => ret tt
         end;
     error ← call AuthSignOut (auth_signOut_settles env);
     _ ← (if truthy error then throw error else ret tt);
     _ ← removeItem env "supabase.auth.token";
     _ ← removeItem env "supabase.auth.refreshToken";
     _ ← set_href "/";
     ret (object [("error", null)])).
Proof.
  unfold after_cleanup_calls.
  apply follows_bind with (postm := fun _ => True).
  { destruct (storageKey env) as [key|]; [|apply follows_ret; exact I].
    destruct (truthy (text key)); [apply removeItem_follows|apply follows_ret; exact I]. }
  intros _ _.
  assert (Hrest : follows env
            [RemoveItem "supabase.auth.token"; RemoveItem "supabase.auth.refreshToken";
             SetHref "/"]
            (fun v => v = object [("error", null)])
            (_ ← removeItem env "supabase.auth.token";
             _ ← removeItem env "supabase.auth.refreshToken";
             _ ← set_href "/";
             ret (object [("error", null)]))).
  { apply (follows_bind [RemoveItem "supabase.auth.token"]
             [RemoveItem "supabase.auth.refreshToken"; SetHref "/"] (fun _ => True));
      [apply removeItem_follows|intros _ _].
    apply (follows_bind [RemoveItem "supabase.auth.refreshToken"] [SetHref "/"]
             (fun _ => True)); [apply removeItem_follows|intros _ _].
    apply (follows_bind [SetHref "/"] [] (fun _ => True));
      [apply set_href_follows|intros _ _].
    apply follows_ret. reflexivity. }
  intros w.
  destruct (follows_bind [AuthSignOut] _ (fun _ => True) _ _ _
              auth_signOut_follows (fun _ _ => Hrest) w) as (r & w' & h & Heq & Hrun).
  exists r, w', h. split; [|exact Hrun]. rewrite <- Heq.
  unfold mbind, M_bind, bind, call.
  destruct (auth_signOut_settles env (trace w)) as [error|e]; [|reflexivity].
  destruct (truthy error); reflexivity.
Qed.

(** [cleanup] up to the answer of [getChannels]. *)
Lemma cleanup_run w :
  let start := if realtimeHealthCheck w then [ClearInterval] else [] in
  let w1 := World (isConnected w) (realtimeHealthCheck w) (localStorage w) (href w)
                  ((trace w ++ start) ++ [GetChannels]) in
  cleanup rev env w =
  match getChannels_returns env (trace w ++ start) with
  | Normal cs => removeChannels rev env cs w1
  | Throw e => (Throw e, w1)
  end.
Proof.
  unfold cleanup, mbind, M_bind, bind, get_realtimeHealthCheck, emit, call, ret.
  destruct w as [c a s u t]. simpl. destruct a; simpl.
  - destruct (getChannels_returns env (t ++ [ClearInterval])); reflexivity.
  - rewrite app_nil_r. destruct (getChannels_returns env t); reflexivity.
Qed.

(** The calls of [signOut_try], given what [getChannels] returns. *)
Lemma signOut_try_follows w :
  let active := realtimeHealthCheck w in
  let start := if active then [ClearInterval] else [] in
  exists r w' h,
    signOut_try rev env w = (r, w') /\ trace w' = trace w ++ h /\
    match getChannels_returns env (trace w ++ start) with
    | Throw e => r = Throw e /\ h = start ++ [GetChannels]
    | Normal cs =>
        match r with
        | Normal v =>
            v = object [("error", null)] /\ h = signOut_calls rev env active cs /\
            succeeded env (trace w) h
        | Throw e =>
            exists p ev q,
              signOut_calls rev env active cs = p ++ ev :: q /\ h = p ++ [ev] /\
              succeeded env (trace w) p /\ failure env (trace w ++ p) ev = Some e
        end
    end.
Proof.
  intros active start.
  assert (Hok : succeeded env (trace w) start).
  { unfold start. destruct active; simpl; auto. }
  unfold signOut_try. unfold mbind at 1, M_bind at 1. unfold bind at 1.
  pose proof (cleanup_run w) as Hclean. cbv zeta in Hclean. fold active start in Hclean.
  rewrite Hclean. clear Hclean.
  set (w1 := World (isConnected w) (realtimeHealthCheck w) (localStorage w) (href w)
                   ((trace w ++ start) ++ [GetChannels])).
  destruct (getChannels_returns env (trace w ++ start)) as [cs|e] eqn:Hcs.
  - pose proof (follows_bind _ _ (fun _ => True) _ _ _
                  (removeChannels_follows cs) (fun _ _ => after_cleanup_follows) w1)
      as (r & w2 & h & Heq & Ht & He).
    unfold mbind at 1, M_bind at 1 in Heq. unfold bind at 1 in Heq.
    exists r, w2, (start ++ GetChannels :: h). split; [exact Heq|].
    split; [rewrite Ht; unfold w1; simpl; rewrite <- !app_assoc; reflexivity|].
    assert (Hget : succeeded env (trace w) (start ++ [GetChannels])).
    { apply succeeded_app. split; [exact Hok|]. simpl. rewrite Hcs. auto. }
    assert (Htrace : trace w1 = trace w ++ start ++ [GetChannels]).
    { unfold w1. simpl. rewrite <- app_assoc. reflexivity. }
    rewrite Htrace in He. unfold signOut_calls. fold start.
    destruct r as [v|e].
    + destruct He as (Hv & -> & Hsucc). split; [exact Hv|]. split; [reflexivity|].
      change (start ++ GetChannels :: channel_calls rev cs ++ after_cleanup_calls env)
        with (start ++ [GetChannels] ++ channel_calls rev cs ++ after_cleanup_calls env).
      rewrite app_assoc. apply succeeded_app. auto.
    + destruct He as (p & ev & q & Hfull & -> & Hp & Hev).
      exists (start ++ GetChannels :: p), ev, q. rewrite Hfull.
      split; [rewrite <- app_assoc; reflexivity|].
      split; [rewrite <- app_assoc; reflexivity|].
      change (start ++ GetChannels :: p) with (start ++ [GetChannels] ++ p).
      rewrite !app_assoc in *. split; [|exact Hev].
      apply succeeded_app. rewrite <- !app_assoc in *. auto.
  - eexists _, _, (start ++ [GetChannels]). split; [reflexivity|].
    split; [unfold w1; simpl; rewrite <- app_assoc; reflexivity|]. auto.
Qed.

End SignOutFacts.

(** C10.  [signOut] never rejects.  It resolves with [{ error: null }] when
    every call it made succeeded, and with [{ error: e }] when a call failed:
    [e] is the error of the first call that failed, which is the last call
    before the error is logged.  Whenever the provider sign-out is attempted,
    [cleanup] has run before it and none of its calls comes after.

    The calls themselves are fixed.  [cleanup] is always attempted: the run
    starts with [clearInterval] (when the handle is set) and [getChannels].
    When [getChannels] throws [e], the run ends there with [{ error: e }].
    When it returns the channels [cs], the run makes the calls of
    [signOut_calls] in order: the removal of each channel, the removal of the
    storage key, the provider sign-out, the removal of the two token keys and
    the redirect.  It makes all of them and resolves with [{ error: null }],
    or it stops at the first one that fails, with that error. *)
Theorem signOut_never_rejects (rev : Lib.revision) (env : Lib.sdk) (w : Lib.world) :
  let active := Lib.realtimeHealthCheck w in
  let start := if active then [Lib.ClearInterval] else [] in
  exists x w' h,
    Lib.signOut rev env w = (Normal (object [("error", x)]), w') /\
    Lib.trace w' = Lib.trace w ++ h /\
    ((x = null /\ Lib.succeeded env (Lib.trace w) h) \/
     (exists p ev,
        h = p ++ [ev; Lib.ConsoleError "Error during sign out:" x] /\
        Lib.succeeded env (Lib.trace w) p /\
        Lib.failure env (Lib.trace w ++ p) ev = Some x)) /\
    (forall p q, h = p ++ Lib.AuthSignOut :: q ->
       In Lib.GetChannels p /\ List.filter Lib.is_cleanup q = []) /\
    (exists rest, h = start ++ Lib.GetChannels :: rest) /\
    match Lib.getChannels_returns env (Lib.trace w ++ start) with
    | Throw e =>
        x = e /\
        h = start ++ [Lib.GetChannels; Lib.ConsoleError "Error during sign out:" e]
    | Normal cs =>
        (x = null /\ h = Lib.signOut_calls rev env active cs) \/
        (exists p ev q,
           Lib.signOut_calls rev env active cs = p ++ ev :: q /\
           h = p ++ [ev; Lib.ConsoleError "Error during sign out:" x] /\
           Lib.succeeded env (Lib.trace w) p /\
           Lib.failure env (Lib.trace w ++ p) ev = Some x)
    end.
Proof.
  intros active start.
  destruct (signOut_try_follows rev env w) as (r0 & w0 & h0 & Hrun0 & Ht0 & Hcalls).
  fold active start in Hcalls.
  unfold Lib.signOut, Lib.try_catch.
  destruct (signOut_try_ok rev env w) as (r & w1 & h & Hrun & Ht & Hs & He).
  rewrite Hrun in Hrun0. injection Hrun0 as <- <-.
  assert (h0 = h) as -> by (rewrite Ht in Ht0; exact (app_inv_head _ _ _ (eq_sym Ht0))).
  rewrite Hrun. clear Hrun Ht0.
  assert (Hstart : exists rest, h = start ++ Lib.GetChannels :: rest \/
                                h = start ++ [Lib.GetChannels] /\ rest = []).
  { destruct (Lib.getChannels_returns env (Lib.trace w ++ start)) as [cs|e0].
    - unfold Lib.signOut_calls in Hcalls. fold start in Hcalls. destruct r as [v|e].
      + destruct Hcalls as (_ & -> & _). eauto.
      + destruct Hcalls as (p & ev & q & Hfull & -> & _ & Hev).
        assert (Hpre : exists p2, p ++ [ev] = start ++ Lib.GetChannels :: p2).
        { clear - Hfull Hev. unfold start in *. clear start.
          destruct active; simpl in *.
          - destruct p as [|x [|y p]]; simpl in *.
            + injection Hfull as <- _. discriminate.
            + injection Hfull as <- <- _. exists []. reflexivity.
            + injection Hfull as <- <- _. eauto.
          - destruct p as [|x p]; simpl in *.
            + injection Hfull as <- _. exists []. reflexivity.
            + injection Hfull as <- _. eauto. }
        destruct Hpre as (p2 & ->). eauto.
    - destruct Hcalls as (_ & ->). exists []. auto. }
  destruct r as [v|e]; simpl in He.
  - destruct He as [-> Hok]. exists null, w1, h.
    split; [reflexivity|]. split; [assumption|]. split; [left; auto|].
    split; [apply signOut_shape_ordered, Hs|]. split.
    + destruct Hstart as (rest & [Heq|[Heq _]]); eauto.
    + destruct (Lib.getChannels_returns env (Lib.trace w ++ start)) as [cs|e0].
      * left. destruct Hcalls as (_ & Heq & _). auto.
      * destruct Hcalls as (Heq & _). discriminate.
  - destruct He as (p & ev & -> & Hp & Hev).
    unfold mbind, Lib.M_bind, Lib.bind, Lib.emit, Lib.call, Lib.ret. simpl.
    eexists e, _, (p ++ [ev; Lib.ConsoleError "Error during sign out:" e]).
    split; [reflexivity|]. simpl.
    split; [rewrite Ht, <- !app_assoc; reflexivity|].
    split; [right; exists p, ev; auto|]. split; [|split].
    + apply signOut_shape_ordered.
      destruct Hs as (hc & tail & Heq & Hc & Htail).
      exists hc, (tail ++ [Lib.ConsoleError "Error during sign out:" e]).
      split; [|split; [assumption|]].
      * change [ev; Lib.ConsoleError "Error during sign out:" e]
          with ([ev] ++ [Lib.ConsoleError "Error during sign out:" e]).
        rewrite !app_assoc, Heq. reflexivity.
      * apply after_cleanup_app; [assumption|reflexivity].
    + change [ev; Lib.ConsoleError "Error during sign out:" e]
        with ([ev] ++ [Lib.ConsoleError "Error during sign out:" e]).
      rewrite app_assoc.
      destruct Hstart as (rest & [->|[-> _]]).
      * exists (rest ++ [Lib.ConsoleError "Error during sign out:" e]).
        rewrite <- app_assoc. reflexivity.
      * exists [Lib.ConsoleError "Error during sign out:" e].
        rewrite <- app_assoc. reflexivity.
    + destruct (Lib.getChannels_returns env (Lib.trace w ++ start)) as [cs|e0].
      * right. destruct Hcalls as (p' & ev' & q & Hfull & Heq & Hp' & Hev').
        apply app_inj_tail in Heq as [<- <-]. exists p, ev, q. auto.
      * destruct Hcalls as (Heq & Hh). injection Heq as <-. split; [reflexivity|].
        change [ev; Lib.ConsoleError "Error during sign out:" e]
          with ([ev] ++ [Lib.ConsoleError "Error during sign out:" e]).
        rewrite app_assoc, Hh, <- app_assoc. reflexivity.
Qed.

(** * Properties of the database and of the components *)

Section SchemaFacts.

Import Schema.

Lemma sql_eq_true column value : sql_eq column value = true <-> column = Some value.
Proof.
  destruct column as [x|]; simpl.
  - rewrite String.eqb_eq. split; congruence.
  - split; discriminate.
Qed.

Lemma sql_eq_false column value : sql_eq column value = false <-> column <> Some value.
Proof.
  rewrite <- sql_eq_true. destruct (sql_eq column value); split; congruence.
Qed.

Lemma in_delete_where {A} (p : A -> bool) (t : list A) (r : A) :
  In r (delete_where p t) <-> In r t /\ p r = false.
Proof.
  unfold delete_where. rewrite List.filter_In, negb_true_iff. reflexivity.
Qed.

(** The tables that reference a group, after the group is deleted. *)
Lemma delete_group_messages g d :
  messages (delete_group g d) =
  delete_where (fun m => sql_eq (Message.group_id m) (Group.id g)) (messages d).
Proof. reflexivity. Qed.

Lemma delete_group_meetings g d mt :
  In mt (meetings (delete_group g d)) <->
  In mt (meetings d) /\ Meeting.group_id mt <> Some (Group.id g).
Proof.
  unfold delete_group, cascade_group, handle_group_deletion. simpl.
  rewrite !in_delete_where, sql_eq_false. tauto.
Qed.

Lemma delete_group_members g d gm :
  In gm (group_members (delete_group g d)) <->
  In gm (group_members d) /\ GroupMember.group_id gm <> Group.id g.
Proof.
  unfold delete_group, cascade_group, handle_group_deletion. simpl.
  rewrite !in_delete_where, String.eqb_neq. tauto.
Qed.

End SchemaFacts.

(** C2.  Deleting a group [g] deletes every message, every membership and
    every meeting whose [group_id] is the id of [g], and the row of [g]
    itself; the messages, memberships and meetings of other groups, and the
    messages and meetings of no group, all stay. *)
Theorem group_deletion_cascades (g : Schema.Group.row) (d : Schema.db) :
  let d' := Schema.delete_group g d in
  (forall m, In m (Schema.messages d') ->
     Schema.Message.group_id m <> Some (Schema.Group.id g)) /\
  (forall gm, In gm (Schema.group_members d') ->
     Schema.GroupMember.group_id gm <> Schema.Group.id g) /\
  (forall mt, In mt (Schema.meetings d') ->
     Schema.Meeting.group_id mt <> Some (Schema.Group.id g)) /\
  (forall g', In g' (Schema.groups d') -> Schema.Group.id g' <> Schema.Group.id g) /\
  (forall m, In m (Schema.messages d) ->
     Schema.Message.group_id m <> Some (Schema.Group.id g) -> In m (Schema.messages d')) /\
  (forall gm, In gm (Schema.group_members d) ->
     Schema.GroupMember.group_id gm <> Schema.Group.id g -> In gm (Schema.group_members d')) /\
  (forall mt, In mt (Schema.meetings d) ->
     Schema.Meeting.group_id mt <> Some (Schema.Group.id g) -> In mt (Schema.meetings d')).
Proof.
  intros d'. subst d'. repeat split.
  - intros m Hm. rewrite delete_group_messages, in_delete_where, sql_eq_false in Hm. tauto.
  - intros gm Hgm. apply delete_group_members in Hgm. tauto.
  - intros mt Hmt. apply delete_group_meetings in Hmt. tauto.
  - intros g' Hg'. simpl in Hg'. apply in_delete_where in Hg' as [_ Hne].
    apply String.eqb_neq in Hne. exact Hne.
  - intros m Hm Hne. rewrite delete_group_messages, in_delete_where, sql_eq_false. tauto.
  - intros gm Hgm Hne. apply delete_group_members. tauto.
  - intros mt Hmt Hne. apply delete_group_meetings. tauto.
Qed.

(** ** Finding a person *)

Section FindFacts.

Import Schema Client.

(** The ids collected from the membership rows of a user name the groups
    that have a membership row of that user. *)
Lemma member_ids_spec (pid gid : uuid) (gms : list GroupMember.row) :
  existsb (String.eqb gid)
          (map GroupMember.group_id
               (List.filter (fun gm => String.eqb (GroupMember.user_id gm) pid) gms)) =
  existsb (fun gm => String.eqb (GroupMember.user_id gm) pid
                     && String.eqb (GroupMember.group_id gm) gid) gms.
Proof.
  induction gms as [|gm gms IH]; [reflexivity|]. simpl.
  destruct (String.eqb (GroupMember.user_id gm) pid); simpl; rewrite IH.
  - rewrite (String.eqb_sym gid). reflexivity.
  - reflexivity.
Qed.

Lemma groups_of_member (pid : uuid) (d : db) :
  groups_by_ids (map GroupMember.group_id (members_by_user pid d)) d =
  List.filter (fun g => existsb (fun gm => String.eqb (GroupMember.user_id gm) pid
                                     && String.eqb (GroupMember.group_id gm) (Group.id g))
                           (group_members d))
              (groups d).
Proof.
  unfold groups_by_ids, members_by_user. apply List.filter_ext.
  intros g. apply member_ids_spec.
Qed.

Lemma filter_none {A} (p : A -> bool) (l : list A) :
  (forall x, In x l -> p x = false) -> List.filter p l = [].
Proof.
  induction l as [|x l IH]; intros Hp; [reflexivity|]. simpl.
  rewrite (Hp x) by (left; reflexivity). apply IH. intros y Hy. apply Hp. right. exact Hy.
Qed.

End FindFacts.

(** C3 (as amended).  When the backend answers the three requests of a
    search: if the profiles stored with view code [c] are exactly the one row
    [p], [handleSearch] displays [p] and, as groups, exactly the groups in
    which [p] has a membership row, and no error; if no stored profile has
    view code [c], it displays the error "User not found" and leaves the
    displayed profile (and groups) empty. *)
Theorem handleSearch_by_view_code (net : Client.network) (c : string) (st : Find.state)
    (w : Client.world) :
  (forall k, (k < 3)%nat -> net k = Client.Answered) ->
  let d := Client.database w in
  let st' := fst (Find.handleSearch net c st w) in
  (forall p,
     List.filter (fun q => Schema.sql_eq (Schema.UserProfile.view_code q) c)
                 (Schema.user_profiles d) = [p] ->
     Find.profile st' = Some p /\
     Find.error st' = None /\
     (forall g, In g (Find.groups st') <->
        In g (Schema.groups d) /\
        exists gm, In gm (Schema.group_members d) /\
          Schema.GroupMember.user_id gm = Schema.UserProfile.id p /\
          Schema.GroupMember.group_id gm = Schema.Group.id g) /\
     Find.groups st' =
       List.filter
         (fun g => existsb
            (fun gm => String.eqb (Schema.GroupMember.user_id gm) (Schema.UserProfile.id p)
                       && String.eqb (Schema.GroupMember.group_id gm) (Schema.Group.id g))
            (Schema.group_members d))
         (Schema.groups d)) /\
  ((forall q, In q (Schema.user_profiles d) -> Schema.UserProfile.view_code q <> Some c) ->
     Find.profile st' = None /\
     Find.error st' = Some "User not found" /\
     Find.groups st' = []).
Proof.
  intros Hnet d st'. subst d st'. unfold Find.handleSearch, Schema.profiles_by_view_code.
  rewrite (Hnet 0%nat), (Hnet 1%nat), (Hnet 2%nat) by lia. split.
  - intros p Hp. rewrite Hp. simpl.
    assert (Hgroups :
      fst (if (0 <? length (Schema.members_by_user (Schema.UserProfile.id p) (Client.database w)))%nat
           then (Find.State (Some p)
                   (Schema.groups_by_ids
                      (map Schema.GroupMember.group_id
                         (Schema.members_by_user (Schema.UserProfile.id p) (Client.database w)))
                      (Client.database w)) false None, w)
           else (Find.State (Some p) [] false None, w)) =
      Find.State (Some p)
        (Schema.groups_by_ids
           (map Schema.GroupMember.group_id
              (Schema.members_by_user (Schema.UserProfile.id p) (Client.database w)))
           (Client.database w)) false None).
    { destruct (Schema.members_by_user _ _) as [|gm gms] eqn:Hm; simpl; [|reflexivity].
      f_equal. unfold Schema.groups_by_ids. symmetry. apply filter_none. reflexivity. }
    rewrite Hgroups. simpl. rewrite groups_of_member.
    split; [reflexivity|]. split; [reflexivity|]. split; [|reflexivity].
    intros g. rewrite List.filter_In, List.existsb_exists.
    split; intros [Hg (gm & Hgm & Hkey)]; (split; [exact Hg|]); exists gm; (split; [exact Hgm|]).
    + apply andb_true_iff in Hkey as [Hu Hgid].
      apply String.eqb_eq in Hu, Hgid. auto.
    + destruct Hkey as [-> ->]. rewrite !String.eqb_refl. reflexivity.
  - intros Hnone. rewrite filter_none; [simpl; auto|].
    intros q Hq. apply sql_eq_false, Hnone, Hq.
Qed.

Lemma handleSearch_by_view_code_witness :
  let d := Client.database (Sample.session Sample.ada) in
  let st' := fst (Find.handleSearch Sample.online "VIEW0001" Sample.search
                    (Sample.session Sample.ada)) in
  Find.profile st' = Some Sample.carol /\
  Find.error st' = None /\
  (forall g, In g (Find.groups st') <->
     In g (Schema.groups d) /\
     exists gm, In gm (Schema.group_members d) /\
       Schema.GroupMember.user_id gm = "user-3" /\
       Schema.GroupMember.group_id gm = Schema.Group.id g) /\
  Find.groups st' =
    List.filter
      (fun g => existsb
         (fun gm => String.eqb (Schema.GroupMember.user_id gm) "user-3"
                    && String.eqb (Schema.GroupMember.group_id gm) (Schema.Group.id g))
         (Schema.group_members d))
      (Schema.groups d).
Proof.
  apply (proj1 (handleSearch_by_view_code Sample.online "VIEW0001" Sample.search
                  (Sample.session Sample.ada) (fun k _ => eq_refl)) Sample.carol).
  reflexivity.
Defined.

(** When the request for the membership rows is answered with an error, the
    profile with the code is displayed without any group and without an
    error, although it has membership rows in two groups. *)
Lemma handleSearch_drops_groups_on_failed_request :
  let w := Sample.session Sample.ada in
  let d := Client.database w in
  let st' := fst (Find.handleSearch Sample.faltering "VIEW0001" Sample.search w) in
  List.filter (fun q => Schema.sql_eq (Schema.UserProfile.view_code q) "VIEW0001")
              (Schema.user_profiles d) = [Sample.carol] /\
  List.filter
    (fun g => existsb
       (fun gm => String.eqb (Schema.GroupMember.user_id gm) "user-3"
                  && String.eqb (Schema.GroupMember.group_id gm) (Schema.Group.id g))
       (Schema.group_members d))
    (Schema.groups d) = [Sample.algebra; Sample.logic] /\
  Find.profile st' = Some Sample.carol /\
  Find.error st' = None /\
  Find.groups st' = [].
Proof. vm_compute. repeat split. Qed.


(** ** Joining a group *)

Section JoinFacts.

Import Schema Client.

Lemma existsb_false {A} (p : A -> bool) (l : list A) :
  existsb p l = false <-> List.filter p l = [].
Proof.
  induction l as [|x l IH]; simpl; [tauto|].
  destruct (p x); simpl; [split; discriminate|exact IH].
Qed.

Lemma existsb_id_in {A} (id : A -> string) (key : string) (l : list A) :
  In key (map id l) -> existsb (fun r => String.eqb (id r) key) l = true.
Proof.
  intros Hin. apply List.in_map_iff in Hin as (r & <- & Hr).
  apply List.existsb_exists. exists r. rewrite String.eqb_refl. auto.
Qed.

(** A membership row that is already there is refused, and the table stays. *)
Lemma insert_group_member_again uid new d :
  Join.memberships (GroupMember.group_id new) (GroupMember.user_id new) d <> [] ->
  uid = GroupMember.user_id new ->
  insert_group_member uid new d = inl unique_violation.
Proof.
  intros Hthere ->. unfold insert_group_member. rewrite String.eqb_refl. simpl.
  destruct (existsb _ (group_members d)) eqn:Hex; [reflexivity|].
  apply existsb_false in Hex. contradiction.
Qed.

End JoinFacts.

(** C5.  Let [g] be the group with invite code [c] and [u] the signed-in
    user, not yet a member of [g].  A first join with [c] adds exactly one
    row to [group_members], the row [(g.id, u)]; every further attempt with
    the same code is refused and leaves the table as it is, with exactly one
    row for [(g.id, u)]. *)
Theorem join_adds_one_membership (w : Client.world) (g : Schema.Group.row)
    (u c : string) :
  Schema.groups_by_invite_code c (Client.database w) = [g] ->
  Client.auth_uid w = u ->
  In u (map Schema.User.id (Schema.users (Client.database w))) ->
  Join.memberships (Schema.Group.id g) u (Client.database w) = [] ->
  let row := Schema.GroupMember.Row (Schema.Group.id g) u false in
  exists w1,
    Join.handleJoinGroup u c w = (None, w1) /\
    Schema.group_members (Client.database w1) =
      Schema.group_members (Client.database w) ++ [row] /\
    Join.memberships (Schema.Group.id g) u (Client.database w1) = [row] /\
    forall n, Nat.iter n (fun w' => snd (Join.handleJoinGroup u c w')) w1 = w1.
Proof.
  intros Hg Huid Huser Hfirst row.
  assert (Hin : In g (Schema.groups (Client.database w))).
  { unfold Schema.groups_by_invite_code in Hg.
    assert (Hin : In g [g]) by (left; reflexivity).
    rewrite <- Hg in Hin. apply List.filter_In in Hin. tauto. }
  set (d1 := Schema.Db (Schema.messages (Client.database w))
               (Schema.groups (Client.database w))
               (Schema.group_members (Client.database w) ++ [row])
               (Schema.user_profiles (Client.database w))
               (Schema.meetings (Client.database w))
               (Schema.users (Client.database w))).
  assert (Hinsert : Schema.insert_group_member u row (Client.database w) = inr d1).
  { unfold Schema.insert_group_member. simpl. rewrite String.eqb_refl. simpl.
    apply existsb_false in Hfirst. unfold Join.memberships in Hfirst. rewrite Hfirst.
    rewrite (existsb_id_in Schema.Group.id) by (apply List.in_map, Hin).
    rewrite (existsb_id_in Schema.User.id) by exact Huser. reflexivity. }
  assert (Hone : Join.memberships (Schema.Group.id g) u d1 = [row]).
  { unfold Join.memberships, d1. simpl. rewrite List.filter_app.
    unfold Join.memberships in Hfirst. rewrite Hfirst. simpl.
    rewrite !String.eqb_refl. reflexivity. }
  exists (Client.set_database d1 w).
  split; [|split; [reflexivity|split; [exact Hone|]]].
  - unfold Join.handleJoinGroup. rewrite Hg, Huid. simpl. fold row.
    rewrite Hinsert. reflexivity.
  - induction n as [|n IH]; [reflexivity|]. simpl. rewrite IH.
    unfold Join.handleJoinGroup.
    change (Schema.groups_by_invite_code c (Client.database (Client.set_database d1 w)))
      with (Schema.groups_by_invite_code c (Client.database w)).
    rewrite Hg. simpl. fold row.
    rewrite insert_group_member_again; [reflexivity| |exact Huid].
    simpl. fold d1. rewrite Hone. discriminate.
Qed.

Lemma join_adds_one_membership_witness :
  let w := Sample.session Sample.bob in
  let row := Schema.GroupMember.Row "group-1" "user-2" false in
  exists w1,
    Join.handleJoinGroup "user-2" "k3y" w = (None, w1) /\
    Schema.group_members (Client.database w1) =
      Schema.group_members (Client.database w) ++ [row] /\
    Join.memberships "group-1" "user-2" (Client.database w1) = [row] /\
    forall n, Nat.iter n (fun w' => snd (Join.handleJoinGroup "user-2" "k3y" w')) w1 = w1.
Proof.
  apply (join_adds_one_membership (Sample.session Sample.bob) Sample.algebra "user-2" "k3y").
  - reflexivity.
  - reflexivity.
  - simpl. auto.
  - reflexivity.
Defined.


(** ** Creating a group *)

Section DashFacts.

Import Schema Client.

Lemma substring_one (s : string) : forall k : nat,
  (k < String.length s)%nat -> String.substring k 1 s <> "".
Proof.
  induction s as [|c s IH]; intros k Hk; simpl in Hk; [lia|].
  destruct k as [|k]; simpl; [discriminate|]. apply IH. lia.
Qed.

Lemma digit36_nonempty n : n < 36 -> digit36 n <> "".
Proof.
  intros Hn. unfold digit36. apply substring_one. simpl. lia.
Qed.

Lemma append_nonempty (s t : string) : t <> "" -> (s ++ t)%string <> "".
Proof.
  intros Ht. destruct s; simpl; [exact Ht|discriminate].
Qed.

Lemma to_base36_nonempty n : to_base36 n <> "".
Proof.
  rewrite to_base36_equation_1. destruct (Z_lt_dec n 36) as [Hlt|Hge]; simpl.
  - apply digit36_nonempty, Hlt.
  - apply append_nonempty, digit36_nonempty.
    apply Z.mod_pos_bound. lia.
Qed.

Lemma toString36_nonempty n : toString36 n <> "".
Proof.
  unfold toString36. destruct (n <? 0); [discriminate|apply to_base36_nonempty].
Qed.

(** Joining at least one non-empty piece gives a non-empty string. *)
Lemma concat_nonempty (x : string) (l : list string) :
  x <> "" -> String.concat "" (x :: l) <> "".
Proof.
  intros Hx. destruct x as [|c x]; [contradiction|].
  destruct l; simpl; discriminate.
Qed.

Lemma existsb_none {A} (p : A -> bool) (l : list A) :
  existsb p l = false -> forall x, In x l -> p x = false.
Proof.
  intros Hex x Hx. destruct (p x) eqn:Hp; [|reflexivity].
  rewrite <- Hex. symmetry. apply List.existsb_exists. eauto.
Qed.

(** What an accepted insert into [groups] did. *)
Lemma insert_group_ok fresh name description topics code max d g d' :
  insert_group fresh name description topics code max d = inr (g, d') ->
  g = Group.Row fresh name (Some description) topics (Some max) (Some code) /\
  groups d' = groups d ++ [g] /\
  group_members d' = group_members d /\
  (forall g', In g' (groups d) -> Group.invite_code g' <> Some code).
Proof.
  unfold insert_group.
  destruct (existsb (fun g0 => String.eqb (Group.id g0) fresh) (groups d)); [discriminate|].
  destruct (existsb (fun g0 => sql_eq (Group.invite_code g0) code) (groups d)) eqn:Hcode;
    [discriminate|].
  intros Heq. injection Heq as <- <-. simpl. repeat split.
  intros g' Hg'. apply sql_eq_false. exact (existsb_none _ _ Hcode g' Hg').
Qed.

(** What an accepted insert into [group_members] did. *)
Lemma insert_group_member_ok uid new d d' :
  insert_group_member uid new d = inr d' ->
  uid = GroupMember.user_id new /\
  group_members d' = group_members d ++ [new] /\
  groups d' = groups d.
Proof.
  unfold insert_group_member.
  destruct (String.eqb uid (GroupMember.user_id new)) eqn:Huid; [|discriminate]. simpl.
  destruct (existsb _ (group_members d)); [discriminate|].
  destruct (existsb _ (groups d)); [|discriminate].
  destruct (existsb _ (users d)); [|discriminate]. simpl.
  intros Heq. injection Heq as <-. simpl. apply String.eqb_eq in Huid. auto.
Qed.

(** Waiting for a request changes nothing but the list of delays. *)
Lemma retry_request_frame net k w :
  let w' := snd (retry_request net k w) in
  database w' = database w /\ client_draws w' = client_draws w /\
  server_draws w' = server_draws w /\ console w' = console w.
Proof.
  unfold retry_request.
  destruct (net k); [simpl; auto|simpl; auto|].
  destruct (net (S k)); [simpl; auto|simpl; auto|].
  destruct (net (S (S k))); simpl; auto.
Qed.

(** [fetchGroups] leaves the tables and the random sources alone. *)
Lemma fetchGroups_frame userId net st w :
  let w' := snd (Dash.fetchGroups userId net st w) in
  database w' = database w /\ client_draws w' = client_draws w /\
  server_draws w' = server_draws w.
Proof.
  unfold Dash.fetchGroups.
  pose proof (retry_request_frame net 0 w) as H1.
  destruct (retry_request net 0 w) as [[[[m|]|e] k1] w1]; simpl in H1;
    destruct H1 as (Hd1 & Hc1 & Hs1 & _); [simpl; auto| |simpl; auto].
  cbv zeta.
  set (createdGroupIds := map GroupMember.group_id
         (List.filter GroupMember.is_creator (members_by_user userId (database w1)))).
  set (joinedGroupIds := map GroupMember.group_id
         (List.filter (fun mg => negb (GroupMember.is_creator mg))
                      (members_by_user userId (database w1)))).
  assert (Hjoin : forall created k2 w2,
            database w2 = database w -> client_draws w2 = client_draws w ->
            server_draws w2 = server_draws w ->
            let w' := snd
              (match (if (0 <? length joinedGroupIds)%nat
                      then match retry_request net k2 w2 with
                           | (Normal None, _, w3) =>
                               inr (groups_by_ids joinedGroupIds (database w3), w3)
                           | (_, _, w3) => inl w3
                           end
                      else inr ([], w2)) with
               | inr (joinedGroupsData, w3) =>
                   (Dash.State created joinedGroupsData (Dash.isCreateModalOpen st) false
                               (Dash.error st) (Dash.profile st) (Dash.body_className st), w3)
               | inl w3 =>
                   (Dash.State created (Dash.joinedGroups st) (Dash.isCreateModalOpen st) false
                               (Some "Failed to load groups") (Dash.profile st)
                               (Dash.body_className st),
                    console_error "Error fetching groups:" w3)
               end) in
            database w' = database w /\ client_draws w' = client_draws w /\
            server_draws w' = server_draws w).
  { intros created k2 w2 Hd2 Hc2 Hs2.
    destruct (0 <? length joinedGroupIds)%nat; [|simpl; auto].
    pose proof (retry_request_frame net k2 w2) as H3.
    destruct (retry_request net k2 w2) as [[[[m|]|e] k3] w3]; simpl in H3;
      destruct H3 as (Hd3 & Hc3 & Hs3 & _); simpl;
      rewrite Hd3, Hc3, Hs3; auto. }
  destruct (0 <? length createdGroupIds)%nat.
  - pose proof (retry_request_frame net k1 w1) as H2.
    destruct (retry_request net k1 w1) as [[[[m|]|e] k2] w2]; simpl in H2;
      destruct H2 as (Hd2 & Hc2 & Hs2 & _).
    + simpl. rewrite Hd2, Hc2, Hs2. auto.
    + apply Hjoin; congruence.
    + simpl. rewrite Hd2, Hc2, Hs2. auto.
  - apply Hjoin; assumption.
Qed.

End DashFacts.

(** C4.  In every run of [handleCreateGroup] that reaches its end, the group
    created has an invite code that is not empty and that no group already in
    the table has, and the run adds exactly one row to [group_members]: the
    row of the new group and the creating user, with [is_creator = true].
    This holds however the requests of the closing [fetchGroups] are
    treated. *)
Theorem handleCreateGroup_invite_code (userId : string) (net : Client.network)
    (name description : string) (topics : list string) (maxMembers : Z)
    (st st' : Dash.state) (w w' : Client.world) (g : Schema.Group.row) :
  Dash.handleCreateGroup userId net name description topics maxMembers st w
    = (Dash.Created g, st', w') ->
  exists code,
    Schema.Group.invite_code g = Some code /\
    code <> "" /\
    (forall g', In g' (Schema.groups (Client.database w)) ->
       Schema.Group.invite_code g' <> Some code) /\
    Schema.groups (Client.database w') = Schema.groups (Client.database w) ++ [g] /\
    Schema.group_members (Client.database w') =
      Schema.group_members (Client.database w)
      ++ [Schema.GroupMember.Row (Schema.Group.id g) userId true] /\
    userId = Client.auth_uid w.
Proof.
  unfold Dash.handleCreateGroup.
  lazy beta iota zeta delta [Client.draw_client Client.draw_server].
  assert (Hne : String.concat ""
            (map Client.toString36
               (map (fun k => Client.math_random w (Client.client_draws w + k)%nat)
                    (seq 0 12))) <> "").
  { change (seq 0 12) with (0%nat :: seq 1 11).
    apply concat_nonempty, toString36_nonempty. }
  remember (String.concat "" _) as code eqn:Hdef. clear Hdef.
  destruct (Schema.insert_group _ _ _ _ _ _ _) as [e|[group d]] eqn:Hgroup;
    [intros Hrun; congruence|].
  apply insert_group_ok in Hgroup as (Hrow & Hgroups & Hmembers & Hfresh).
  simpl in Hgroups, Hmembers, Hfresh.
  destruct (Schema.insert_group_member _ _ _) as [e|d'] eqn:Hmember;
    [intros Hrun; congruence|].
  apply insert_group_member_ok in Hmember as (Huid & Hmembers' & Hgroups').
  simpl in Huid, Hmembers', Hgroups'.
  match goal with |- context [Dash.fetchGroups userId net st ?w0] =>
    pose proof (fetchGroups_frame userId net st w0) as (Hdb & _);
    destruct (Dash.fetchGroups userId net st w0) as [st1 w4] end.
  simpl in Hdb. intros Hrun. injection Hrun as <- _ <-.
  exists code. rewrite Hdb.
  split; [rewrite Hrow; reflexivity|]. split; [exact Hne|]. split; [exact Hfresh|].
  split; [congruence|]. split; [congruence|]. congruence.
Qed.

Lemma handleCreateGroup_invite_code_witness :
  exists g st' w',
    Dash.handleCreateGroup "user-1" Sample.online "Sets" "Set theory" [] 20
      Sample.dashboard (Sample.session Sample.ada) = (Dash.Created g, st', w') /\
    exists code,
      Schema.Group.invite_code g = Some code /\
      code <> "" /\
      (forall g', In g' (Schema.groups (Client.database (Sample.session Sample.ada))) ->
         Schema.Group.invite_code g' <> Some code) /\
      Schema.groups (Client.database w') =
        Schema.groups (Client.database (Sample.session Sample.ada)) ++ [g] /\
      Schema.group_members (Client.database w') =
        Schema.group_members (Client.database (Sample.session Sample.ada))
        ++ [Schema.GroupMember.Row (Schema.Group.id g) "user-1" true] /\
      "user-1" = Client.auth_uid (Sample.session Sample.ada).
Proof.
  eexists _, _, _. split.
  - vm_compute. reflexivity.
  - eapply (handleCreateGroup_invite_code "user-1" Sample.online "Sets" "Set theory" [] 20
              Sample.dashboard _ (Sample.session Sample.ada)).
    vm_compute. reflexivity.
Defined.


(** ** Fetching the profile *)

Section ProfileFacts.

Import Schema Client.

Variable userId : uuid.
Variable stickman : string.



End ProfileFacts.





(** ** Uploading an avatar *)

(** C8.  For a file [f] picked in the avatar uploader: something is uploaded
    only if [f] has at most [5 * 1024 * 1024] bytes and a MIME type that
    starts with "image/"; when either check fails nothing is uploaded and the
    profile state stays as it was; and whatever is uploaded goes to the bucket
    "avatars" as "image/jpeg" and is the JPEG of the 1000 by 1000 canvas,
    filled white, on which [f] was drawn at its decoded size: never the file
    itself.  When both checks pass, the try block does not throw, the image
    loads, the canvas has a context and [toBlob] hands over a blob, exactly
    that JPEG is uploaded, once, under [userId-<Date.now()>.jpg] with
    [upsert: true]. *)
Theorem handleFileUpload_guards (env : Prof.browser) (userId : string)
    (f : Prof.File) (w : Prof.world) :
  let w' := Prof.handleFileUpload env userId (Some f) w in
  (exists new,
     Prof.uploads w' = Prof.uploads w ++ new /\
     (new <> [] ->
        Prof.size f <= 5 * 1024 * 1024 /\ String.prefix "image/" (Prof.type f) = true) /\
     (5 * 1024 * 1024 < Prof.size f \/ String.prefix "image/" (Prof.type f) = false ->
        new = [] /\ Prof.profile w' = Prof.profile w) /\
     (forall u, In u new ->
        Prof.bucket u = "avatars" /\
        Prof.contentType u = "image/jpeg" /\
        Prof.payload u <> Prof.FileBody f /\
        exists b,
          Prof.payload u = Prof.BlobBody b /\
          Prof.blob_type b = "image/jpeg" /\
          Prof.width (Prof.encoded b) = 1000 /\
          Prof.height (Prof.encoded b) = 1000 /\
          (exists img_width img_height,
             Prof.decode env f = Some (img_width, img_height) /\
             Prof.encoded b =
               Prof.composite f (Prof.Number img_width) (Prof.Number img_height)) /\
          exists x y dw dh,
            Prof.drawn (Prof.encoded b) =
              [Prof.fillRect "white" 0 0 (Prof.Number 1000) (Prof.Number 1000);
               Prof.drawImage f x y dw dh])) /\
  (Prof.size f <= 5 * 1024 * 1024 -> String.prefix "image/" (Prof.type f) = true ->
   Prof.setup_throws env f = None ->
   forall img_width img_height,
     Prof.decode env f = Some (img_width, img_height) ->
     Prof.has_context env = true ->
     Prof.encodes env (Prof.composite f (Prof.Number img_width) (Prof.Number img_height)) = true ->
     Prof.uploads w' =
       Prof.uploads w ++
       [Prof.Upload "avatars" (userId ++ "-" ++ pretty (Prof.Date_now env) ++ ".jpg")
          (Prof.BlobBody (Prof.jpeg (Prof.composite f (Prof.Number img_width) (Prof.Number img_height))))
          "image/jpeg" true]).
Proof.
  intros w'. subst w'. unfold Prof.handleFileUpload. split.
  - assert (Hnothing : forall w0 : Prof.world,
      Prof.uploads w0 = Prof.uploads w -> Prof.profile w0 = Prof.profile w ->
      exists new,
        Prof.uploads w0 = Prof.uploads w ++ new /\
        (new <> [] ->
           Prof.size f <= 5 * 1024 * 1024 /\ String.prefix "image/" (Prof.type f) = true) /\
        (5 * 1024 * 1024 < Prof.size f \/ String.prefix "image/" (Prof.type f) = false ->
           new = [] /\ Prof.profile w0 = Prof.profile w) /\
        (forall u, In u new ->
           Prof.bucket u = "avatars" /\
           Prof.contentType u = "image/jpeg" /\
           Prof.payload u <> Prof.FileBody f /\
           exists b,
             Prof.payload u = Prof.BlobBody b /\
             Prof.blob_type b = "image/jpeg" /\
             Prof.width (Prof.encoded b) = 1000 /\
             Prof.height (Prof.encoded b) = 1000 /\
             (exists img_width img_height,
                Prof.decode env f = Some (img_width, img_height) /\
                Prof.encoded b =
               Prof.composite f (Prof.Number img_width) (Prof.Number img_height)) /\
             exists x y dw dh,
               Prof.drawn (Prof.encoded b) =
                 [Prof.fillRect "white" 0 0 (Prof.Number 1000) (Prof.Number 1000);
                  Prof.drawImage f x y dw dh])).
    { intros w0 Hu Hp. exists []. rewrite List.app_nil_r.
      split; [exact Hu|]. split; [intros Hne; destruct (Hne eq_refl)|].
      split; [auto|]. intros u []. }
    destruct (Z.gtb_spec (Prof.size f) (5 * 1024 * 1024)) as [Hbig|Hsmall];
      [apply Hnothing; reflexivity|].
    destruct (String.prefix "image/" (Prof.type f)) eqn:Himage; simpl;
      [|apply Hnothing; reflexivity].
    destruct (Prof.setup_throws env f); [apply Hnothing; reflexivity|].
    destruct (Prof.decode env f) as [[img_width img_height]|];
      [|apply Hnothing; reflexivity].
    destruct (Prof.has_context env); [|apply Hnothing; reflexivity].
    destruct (Prof.encodes env _); [|apply Hnothing; reflexivity].
    assert (Hsent : forall w0 : Prof.world,
      Prof.uploads w0 =
        Prof.uploads w ++
        [Prof.Upload "avatars" (userId ++ "-" ++ pretty (Prof.Date_now env) ++ ".jpg")
           (Prof.BlobBody (Prof.jpeg (Prof.composite f (Prof.Number img_width) (Prof.Number img_height))))
           "image/jpeg" true] ->
      exists new,
        Prof.uploads w0 = Prof.uploads w ++ new /\
        (new <> [] -> Prof.size f <= 5 * 1024 * 1024 /\ true = true) /\
        (5 * 1024 * 1024 < Prof.size f \/ true = false ->
           new = [] /\ Prof.profile w0 = Prof.profile w) /\
        (forall u, In u new ->
           Prof.bucket u = "avatars" /\
           Prof.contentType u = "image/jpeg" /\
           Prof.payload u <> Prof.FileBody f /\
           exists b,
             Prof.payload u = Prof.BlobBody b /\
             Prof.blob_type b = "image/jpeg" /\
             Prof.width (Prof.encoded b) = 1000 /\
             Prof.height (Prof.encoded b) = 1000 /\
             (exists img_width0 img_height0,
                Some (img_width, img_height) = Some (img_width0, img_height0) /\
                Prof.encoded b =
                  Prof.composite f (Prof.Number img_width0) (Prof.Number img_height0)) /\
             exists x y dw dh,
               Prof.drawn (Prof.encoded b) =
                 [Prof.fillRect "white" 0 0 (Prof.Number 1000) (Prof.Number 1000);
                  Prof.drawImage f x y dw dh])).
    { intros w0 Hu. eexists. split; [exact Hu|].
      split; [intros _; split; [lia|reflexivity]|].
      split; [intros [Hbig|Hno]; [lia|discriminate]|].
      intros u [<-|[]]. simpl.
      split; [reflexivity|]. split; [reflexivity|]. split; [discriminate|].
      eexists. split; [reflexivity|]. simpl.
      split; [reflexivity|]. split; [reflexivity|]. split; [reflexivity|].
      split; [eauto|]. eexists _, _, _, _. reflexivity. }
    unfold Prof.on_blob.
    destruct (Prof.upload_result env _) as [error|reason];
      [destruct (truthy error)|]; apply Hsent; reflexivity.
  - intros Hsmall Himage Hsetup img_width img_height Hdecode Hcontext Hblob.
    destruct (Z.gtb_spec (Prof.size f) (5 * 1024 * 1024)) as [Hbig|_]; [lia|].
    rewrite Himage, Hsetup, Hdecode, Hcontext, Hblob. simpl.
    unfold Prof.on_blob.
    destruct (Prof.upload_result env _) as [error|reason];
      [destruct (truthy error)|]; reflexivity.
Qed.

Lemma handleFileUpload_guards_witness :
  Prof.uploads (Prof.handleFileUpload Sample.browser "user-3" (Some Sample.photo)
                  Sample.editor) =
    [Prof.Upload "avatars" "user-3-1740000000000.jpg"
       (Prof.BlobBody (Prof.jpeg (Prof.composite Sample.photo (Prof.Number 640) (Prof.Number 480))))
       "image/jpeg" true].
Proof.
  apply (proj2 (handleFileUpload_guards Sample.browser "user-3" Sample.photo Sample.editor)).
  - vm_compute. discriminate.
  - reflexivity.
  - reflexivity.
  - reflexivity.
  - reflexivity.
  - reflexivity.
Defined.

(** * Runs on the sample data *)

Example signOut_quiet :
  fst (Lib.signOut Lib.Later Lib.quiet Lib.loaded) = Normal (object [("error", null)]) /\
  Lib.trace (snd (Lib.signOut Lib.Later Lib.quiet Lib.loaded)) =
    [Lib.ClearInterval; Lib.GetChannels; Lib.RemoveItem "supabase.auth.token";
     Lib.AuthSignOut; Lib.RemoveItem "supabase.auth.token";
     Lib.RemoveItem "supabase.auth.refreshToken"; Lib.SetHref "/"].
Proof. vm_compute. split; reflexivity. Qed.

Example retry_flaky_trace :
  Lib.schedule (Lib.trace (snd (Lib.retryOperation Lib.quiet Lib.flaky 3 1000 Lib.loaded))) =
    [Lib.Operation; Lib.SetTimeout 1000; Lib.HealthCheck;
     Lib.Operation; Lib.SetTimeout 2000; Lib.HealthCheck; Lib.Operation].
Proof. vm_compute. reflexivity. Qed.

Example toString36_digits :
  map Client.toString36 [0; 9; 10; 35; 36; 1295; 1296; -1; -37] =
    ["0"; "9"; "a"; "z"; "10"; "zz"; "100"; "-1"; "-11"].
Proof. vm_compute. reflexivity. Qed.

Example search_carol :
  Find.groups (fst (Find.handleSearch Sample.online "VIEW0001" Sample.search
                      (Sample.session Sample.ada)))
    = [Sample.algebra; Sample.logic] /\
  Find.error (fst (Find.handleSearch Sample.online "NOBODY" Sample.search
                     (Sample.session Sample.ada)))
    = Some "User not found".
Proof. vm_compute. split; reflexivity. Qed.

Example delete_algebra :
  let d' := Schema.delete_group Sample.algebra Sample.database in
  map Schema.Message.id (Schema.messages d') = ["message-2"; "message-3"] /\
  Schema.group_members d' = [Schema.GroupMember.Row "group-2" "user-3" false] /\
  Schema.meetings d' = [] /\
  Schema.groups d' = [Sample.logic].
Proof. vm_compute. repeat split. Qed.

Example upload_photo :
  map Prof.path (Prof.uploads
    (Prof.handleFileUpload Sample.browser "user-3" (Some Sample.photo) Sample.editor))
    = ["user-3-1740000000000.jpg"] /\
  Prof.alerts (Prof.handleFileUpload Sample.browser "user-3"
    (Some {| Prof.file_name := "notes.pdf"; Prof.size := 1024; Prof.type := "application/pdf" |})
    Sample.editor) = ["Only image files are allowed"].
Proof. vm_compute. split; reflexivity. Qed.

(** * Further properties of the client wrapper *)

(** X1.  For a retry count [n >= 0] the reconnect delay starts at 1000 ms,
    never decreases with the count, never exceeds the cap of the revision
    (30000 or 60000 ms), and is [1000 * 2^n] exactly while [n] is at most 4
    (earlier revision) or 5 (later revision). *)
Theorem reconnectAfterMs_bounds (rev : Lib.revision) (m n : Z) :
  0 <= m <= n ->
  let cap := match rev with Lib.Earlier => 30000 | Lib.Later => 60000 end in
  let last_exact := match rev with Lib.Earlier => 4 | Lib.Later => 5 end in
  Lib.reconnectAfterMs rev 0 = 1000 /\
  1000 <= Lib.reconnectAfterMs rev m /\
  Lib.reconnectAfterMs rev m <= Lib.reconnectAfterMs rev n /\
  Lib.reconnectAfterMs rev n <= cap /\
  (n <= last_exact -> Lib.reconnectAfterMs rev n = 1000 * 2 ^ n) /\
  (last_exact < n -> Lib.reconnectAfterMs rev n = cap).
Proof.
  intros [Hm Hmn] cap last_exact. unfold Lib.reconnectAfterMs. fold cap.
  assert (Hpow : forall a b, 0 <= a <= b -> 2 ^ a <= 2 ^ b)
    by (intros a b Hab; apply Z.pow_le_mono_r; lia).
  assert (Hm1 : 1 <= 2 ^ m) by (apply (Hpow 0 m); lia).
  assert (Hmn' : 2 ^ m <= 2 ^ n) by (apply Hpow; lia).
  split; [destruct rev; reflexivity|].
  split; [destruct rev; subst cap; lia|].
  split; [lia|]. split; [lia|]. split.
  - intros Hn. assert (2 ^ n <= 2 ^ last_exact) by (apply Hpow; lia).
    destruct rev; subst cap last_exact; simpl in *; lia.
  - intros Hn. assert (2 ^ (last_exact + 1) <= 2 ^ n)
      by (apply Hpow; destruct rev; subst last_exact; lia).
    destruct rev; subst cap last_exact; simpl in *; lia.
Qed.

Lemma reconnectAfterMs_bounds_witness :
  Lib.reconnectAfterMs Lib.Earlier 0 = 1000 /\
  1000 <= Lib.reconnectAfterMs Lib.Earlier 3 /\
  Lib.reconnectAfterMs Lib.Earlier 3 <= Lib.reconnectAfterMs Lib.Earlier 7 /\
  Lib.reconnectAfterMs Lib.Earlier 7 <= 30000 /\
  (7 <= 4 -> Lib.reconnectAfterMs Lib.Earlier 7 = 1000 * 2 ^ 7) /\
  (4 < 7 -> Lib.reconnectAfterMs Lib.Earlier 7 = 30000).
Proof. apply (reconnectAfterMs_bounds Lib.Earlier 3 7). lia. Defined.

Section HealthFacts.

Import Lib.

Variable env : sdk.

Lemma fold_left_last {A B} (f : A -> B) (l : list A) : forall b,
  fold_left (fun _ x => f x) l b = match last l with Some x => f x | None => b end.
Proof.
  induction l as [|x l IH]; intros b; [reflexivity|]. simpl. rewrite IH.
  destruct l as [|a l]; [reflexivity|].
  change (last (x :: a :: l)) with (last (a :: l)).
  destruct (last (a :: l)) eqn:Hlast; [reflexivity|].
  apply last_None in Hlast. discriminate.
Qed.

(** The statuses handed to the callback: each one overwrites [isConnected],
    and each one that is not SUBSCRIBED is answered in the trace. *)
Lemma deliver_fold ss : forall w,
  deliver ss w =
  (Normal tt,
   World (fold_left (fun _ s => strict_eq_text s "SUBSCRIBED") ss (isConnected w))
         (realtimeHealthCheck w) (localStorage w) (href w)
         (trace w ++ reactions ss)).
Proof.
  induction ss as [|s ss IH]; intros w.
  - simpl. unfold ret, reactions. simpl. rewrite app_nil_r. destruct w; reflexivity.
  - change (deliver (s :: ss) w) with ((_ ← on_status s; deliver ss) w).
    change (reactions (s :: ss)) with
      ((if strict_eq_text s "SUBSCRIBED" then []
        else [ConsoleWarn "Realtime connection lost, attempting to reconnect...";
              Unsubscribe; RemoveSubscribed]) ++ reactions ss).
    unfold mbind, M_bind, bind, on_status, set_isConnected, modify, get_isConnected.
    unfold mbind, M_bind, bind. simpl.
    destruct (strict_eq_text s "SUBSCRIBED") eqn:Hs; simpl;
      unfold emit, call, ret; simpl; rewrite IH; simpl;
      rewrite <- ?app_assoc; reflexivity.
Qed.

Lemma deliver_effect ss w :
  deliver ss w =
  (Normal tt,
   World (match last ss with
          | Some s => strict_eq_text s "SUBSCRIBED"
          | None => isConnected w
          end)
         (realtimeHealthCheck w) (localStorage w) (href w)
         (trace w ++ reactions ss)).
Proof. rewrite deliver_fold, fold_left_last. reflexivity. Qed.

End HealthFacts.

(** X2.  [checkRealtimeHealth] never throws and touches neither local storage,
    the location nor the interval handle.  It answers [true] only when the
    channel was obtained and the awaited subscription is "SUBSCRIBED"; when
    the SDK throws, it answers [false], logs that error as its last call and
    leaves [isConnected] as it was. *)
Theorem checkRealtimeHealth_verdict (env : Lib.sdk) (w : Lib.world) :
  exists b w',
    Lib.checkRealtimeHealth env w = (Normal b, w') /\
    Lib.localStorage w' = Lib.localStorage w /\
    Lib.href w' = Lib.href w /\
    Lib.realtimeHealthCheck w' = Lib.realtimeHealthCheck w /\
    (b = true ->
       exists c ss,
         Lib.channel_returns env (Lib.trace w ++ [Lib.HealthCheck]) = Normal c /\
         Lib.subscribe_settles env
           ((Lib.trace w ++ [Lib.HealthCheck]) ++ [Lib.Channel "system"])
           = Normal (ss, text "SUBSCRIBED")) /\
    (forall e,
       Lib.channel_returns env (Lib.trace w ++ [Lib.HealthCheck]) = Throw e \/
       (exists c, Lib.channel_returns env (Lib.trace w ++ [Lib.HealthCheck]) = Normal c) /\
       Lib.subscribe_settles env
         ((Lib.trace w ++ [Lib.HealthCheck]) ++ [Lib.Channel "system"]) = Throw e ->
       b = false /\
       Lib.isConnected w' = Lib.isConnected w /\
       exists h, Lib.trace w' =
         h ++ [Lib.ConsoleError "Error checking realtime health:" e]).
Proof.
  unfold Lib.checkRealtimeHealth, mbind, Lib.M_bind, Lib.bind, Lib.try_catch,
    Lib.emit, Lib.call. simpl.
  destruct (Lib.channel_returns env (Lib.trace w ++ [Lib.HealthCheck])) as [c|e].
  - destruct (Lib.subscribe_settles env _) as [[ss v]|e]; simpl.
    + rewrite deliver_effect. simpl. eexists _, _. split; [reflexivity|]. simpl.
      split; [reflexivity|]. split; [reflexivity|]. split; [reflexivity|]. split.
      * intros Hb. exists c, ss. split; [reflexivity|].
        destruct v; simpl in Hb; try discriminate.
        apply String.eqb_eq in Hb. subst. reflexivity.
      * intros e [H|[_ H]]; discriminate.
    + eexists _, _. split; [reflexivity|]. simpl.
      split; [reflexivity|]. split; [reflexivity|]. split; [reflexivity|]. split.
      * discriminate.
      * intros e' [H|[_ H]]; [discriminate|]. injection H as <-.
        split; [reflexivity|]. split; [reflexivity|]. eexists. reflexivity.
  - eexists _, _. split; [reflexivity|]. simpl.
    split; [reflexivity|]. split; [reflexivity|]. split; [reflexivity|]. split.
    + discriminate.
    + intros e' [H|[[c Hc] _]]; [|discriminate]. injection H as <-.
      split; [reflexivity|]. split; [reflexivity|]. eexists. reflexivity.
Qed.

(** X3.  When the channel is obtained and the subscription settles, the last
    status handed to the callback wins: [isConnected] ends as whether that
    status was "SUBSCRIBED" (and is unchanged when no status was handed over),
    while the answer of the check is whether the awaited value is
    "SUBSCRIBED".  Every status that is not "SUBSCRIBED" is answered by a
    warning, an unsubscribe and a removal of the channel, and nothing else
    is called. *)
Theorem checkRealtimeHealth_last_status_wins (env : Lib.sdk) (w : Lib.world)
    (c : Lib.channel) (ss : list any) (v : any) :
  Lib.channel_returns env (Lib.trace w ++ [Lib.HealthCheck]) = Normal c ->
  Lib.subscribe_settles env
    ((Lib.trace w ++ [Lib.HealthCheck]) ++ [Lib.Channel "system"]) = Normal (ss, v) ->
  let run := Lib.checkRealtimeHealth env w in
  fst run = Normal (strict_eq_text v "SUBSCRIBED") /\
  Lib.isConnected (snd run) =
    match last ss with
    | Some s => strict_eq_text s "SUBSCRIBED"
    | None => Lib.isConnected w
    end /\
  Lib.trace (snd run) =
    Lib.trace w ++ [Lib.HealthCheck; Lib.Channel "system"; Lib.Subscribe]
    ++ Lib.reactions ss.
Proof.
  intros Hc Hs run. subst run.
  unfold Lib.checkRealtimeHealth, mbind, Lib.M_bind, Lib.bind, Lib.try_catch,
    Lib.emit, Lib.call. simpl.
  rewrite Hc, Hs. simpl. rewrite deliver_effect. simpl.
  rewrite <- !app_assoc. auto.
Qed.

Lemma checkRealtimeHealth_last_status_wins_witness :
  let run := Lib.checkRealtimeHealth Fixture.lively Fixture.browsing in
  fst run = Normal true /\
  Lib.isConnected (snd run) = true /\
  Lib.trace (snd run) =
    Lib.trace Fixture.browsing
    ++ [Lib.HealthCheck; Lib.Channel "system"; Lib.Subscribe]
    ++ Lib.reactions [text "CHANNEL_ERROR"; text "TIMED_OUT"; text "SUBSCRIBED"].
Proof.
  apply (checkRealtimeHealth_last_status_wins Fixture.lively Fixture.browsing 7%nat
           [text "CHANNEL_ERROR"; text "TIMED_OUT"; text "SUBSCRIBED"]
           (text "SUBSCRIBED")); reflexivity.
Defined.

Section CleanupFacts.

Import Lib.

Variable rev : revision.
Variable env : sdk.

(** The loop of [cleanup] walks the channels in order and stops at the first
    call that throws. *)
Lemma removeChannels_in_order cs : forall w,
  exists r w' h (k k' : nat),
    removeChannels rev env cs w = (r, w') /\
    trace w' = trace w ++ h /\
    isConnected w' = isConnected w /\
    realtimeHealthCheck w' = realtimeHealthCheck w /\
    localStorage w' = localStorage w /\
    href w' = href w /\
    removed h = take k cs /\
    unsubscribed h = take k' cs /\
    (r = Normal tt -> removed h = cs) /\
    ~ In ClearInterval h /\
    match rev with
    | Earlier => unsubscribed h = []
    | Later => (k <= k' <= S k)%nat /\ (r = Normal tt -> unsubscribed h = cs)
    end.
Proof.
  induction cs as [|c cs IH]; intros w.
  - exists (Normal tt), w, [], 0%nat, 0%nat. simpl. rewrite app_nil_r.
    destruct rev; repeat split; auto.
  - simpl. unfold mbind, M_bind, bind.
    destruct rev; simpl.
    + destruct (removeChannel_returns env (trace w)) as [[]|e].
      * match goal with |- context [removeChannels Earlier env cs ?w0] =>
          destruct (IH w0) as (r & w' & h & k & k' & -> & Ht & ? & ? & ? & ? & Hr & Hu & Hall & Hno & Hrev)
        end.
        simpl in *. exists r, w', (RemoveChannel c :: h), (S k), 0%nat.
        split; [reflexivity|]. split; [rewrite Ht, <- app_assoc; reflexivity|].
        repeat split; auto; simpl.
        -- rewrite Hr. reflexivity.
        -- intros Hn. rewrite (Hall Hn). reflexivity.
        -- intros [Heq|Hin]; [discriminate|contradiction].
      * eexists (Throw e), _, [RemoveChannel c], 1%nat, 0%nat.
        split; [reflexivity|]. simpl. rewrite take_0.
        repeat split; auto; try discriminate.
        intros [Heq|[]]. discriminate.
    + destruct (unsubscribe_returns env (trace w)) as [[]|e].
      * destruct (removeChannel_returns env _) as [[]|e].
        -- match goal with |- context [removeChannels Later env cs ?w0] =>
             destruct (IH w0) as (r & w' & h & k & k' & -> & Ht & ? & ? & ? & ? & Hr & Hu & Hall & Hno & Hk & Hallu)
           end.
           simpl in *.
           exists r, w', (UnsubscribeChannel c :: RemoveChannel c :: h), (S k), (S k').
           split; [reflexivity|]. split; [rewrite Ht, <- !app_assoc; reflexivity|].
           repeat split; auto; simpl; try lia.
           ++ rewrite Hr. reflexivity.
           ++ rewrite Hu. reflexivity.
           ++ intros Hn. rewrite (Hall Hn). reflexivity.
           ++ intros [Heq|[Heq|Hin]]; [discriminate|discriminate|contradiction].
           ++ intros Hn. rewrite (Hallu Hn). reflexivity.
        -- eexists (Throw e), _, [UnsubscribeChannel c; RemoveChannel c], 1%nat, 1%nat.
           split; [reflexivity|]. simpl. rewrite take_0, <- app_assoc.
           repeat split; auto; try discriminate; try lia.
           intros [Heq|[Heq|[]]]; discriminate.
      * eexists (Throw e), _, [UnsubscribeChannel c], 0%nat, 1%nat.
        split; [reflexivity|]. simpl. rewrite take_0.
        repeat split; auto; try discriminate; try lia.
        intros [Heq|[]]; discriminate.
Qed.

End CleanupFacts.

(** X4.  [cleanup] clears the interval exactly when the handle is set, and
    hands the channels [getChannels] returned to [removeChannel] in that
    order, stopping at the first call that throws: the channels handed over
    are a prefix of the list, and the whole list when [cleanup] returns.  The
    earlier revision never unsubscribes a channel; the later one unsubscribes
    each channel just before it hands it over.  The module variables, local
    storage and the location are left as they were. *)
Theorem cleanup_hands_over_channels (rev : Lib.revision) (env : Lib.sdk)
    (w : Lib.world) (cs : list Lib.channel) :
  Lib.getChannels_returns env
    (if Lib.realtimeHealthCheck w then Lib.trace w ++ [Lib.ClearInterval]
     else Lib.trace w) = Normal cs ->
  let run := Lib.cleanup rev env w in
  exists h (k k' : nat),
    Lib.trace (snd run) = Lib.trace w ++ h /\
    Lib.removed h = take k cs /\
    Lib.unsubscribed h = take k' cs /\
    (fst run = Normal tt -> Lib.removed h = cs) /\
    match rev with
    | Lib.Earlier => Lib.unsubscribed h = []
    | Lib.Later => (k <= k' <= S k)%nat /\ (fst run = Normal tt -> Lib.unsubscribed h = cs)
    end /\
    (In Lib.ClearInterval h <-> Lib.realtimeHealthCheck w = true) /\
    Lib.isConnected (snd run) = Lib.isConnected w /\
    Lib.realtimeHealthCheck (snd run) = Lib.realtimeHealthCheck w /\
    Lib.localStorage (snd run) = Lib.localStorage w /\
    Lib.href (snd run) = Lib.href w.
Proof.
  intros Hcs run. subst run.
  unfold Lib.cleanup, mbind, Lib.M_bind, Lib.bind, Lib.get_realtimeHealthCheck.
  destruct (Lib.realtimeHealthCheck w) eqn:Hactive; simpl; rewrite Hcs.
  - match goal with |- context [Lib.removeChannels rev env cs ?w0] =>
      destruct (removeChannels_in_order rev env cs w0)
        as (r & w' & h & k & k' & -> & Ht & ? & Hrhc & ? & ? & Hr & Hu & Hall & Hno & Hrev)
    end.
    simpl in *. exists (Lib.ClearInterval :: Lib.GetChannels :: h), k, k'.
    split; [rewrite Ht, <- !app_assoc; reflexivity|].
    repeat split; auto; try congruence.
    left. reflexivity.
  - match goal with |- context [Lib.removeChannels rev env cs ?w0] =>
      destruct (removeChannels_in_order rev env cs w0)
        as (r & w' & h & k & k' & -> & Ht & ? & Hrhc & ? & ? & Hr & Hu & Hall & Hno & Hrev)
    end.
    simpl in *. exists (Lib.GetChannels :: h), k, k'.
    split; [rewrite Ht, <- !app_assoc; reflexivity|].
    repeat split; auto; try congruence.
    intros [Heq|Hin]; [discriminate|contradiction].
Qed.

Lemma cleanup_hands_over_channels_witness :
  let run := Lib.cleanup Lib.Later Fixture.lively Fixture.browsing in
  exists h (k k' : nat),
    Lib.trace (snd run) = Lib.trace Fixture.browsing ++ h /\
    Lib.removed h = take k [3%nat; 7%nat] /\
    Lib.unsubscribed h = take k' [3%nat; 7%nat] /\
    (fst run = Normal tt -> Lib.removed h = [3%nat; 7%nat]) /\
    ((k <= k' <= S k)%nat /\
     (fst run = Normal tt -> Lib.unsubscribed h = [3%nat; 7%nat])) /\
    (In Lib.ClearInterval h <-> Lib.realtimeHealthCheck Fixture.browsing = true) /\
    Lib.isConnected (snd run) = Lib.isConnected Fixture.browsing /\
    Lib.realtimeHealthCheck (snd run) = Lib.realtimeHealthCheck Fixture.browsing /\
    Lib.localStorage (snd run) = Lib.localStorage Fixture.browsing /\
    Lib.href (snd run) = Lib.href Fixture.browsing.
Proof.
  apply (cleanup_hands_over_channels Lib.Later Fixture.lively Fixture.browsing
           [3%nat; 7%nat]).
  reflexivity.
Defined.

Section StorageFacts.

Import Lib.

Variable rev : revision.
Variable env : sdk.

Lemma only_removes_ret {A} keys (a : A) : only_removes keys (ret a).
Proof. intros w r w' Heq. injection Heq as <- <-. auto. Qed.

Lemma only_removes_throw {A} keys e : only_removes keys (@throw A e).
Proof. intros w r w' Heq. injection Heq as <- <-. auto. Qed.

Lemma only_removes_call {A} keys ev (answer : history -> completion A) :
  only_removes keys (call ev answer).
Proof. intros w r w' Heq. injection Heq as <- <-. simpl. auto. Qed.

Lemma only_removes_bind {A B} keys (m : M A) (k : A -> M B) :
  only_removes keys m -> (forall a, only_removes keys (k a)) ->
  only_removes keys (m ≫= k).
Proof.
  intros Hm Hk w r w' Heq. unfold mbind, M_bind, bind in Heq.
  destruct (m w) as [[a|e] w1] eqn:Hrun.
  - destruct (Hm _ _ _ Hrun) as (Hc & Hi & Hsub & Hkeep).
    destruct (Hk a _ _ _ Heq) as (Hc' & Hi' & Hsub' & Hkeep').
    split; [congruence|]. split; [congruence|].
    split; [etransitivity; eassumption|].
    intros key Hkey. rewrite Hkeep', Hkeep; auto.
  - injection Heq as <- <-. exact (Hm _ _ _ Hrun).
Qed.

Lemma only_removes_try_catch {A} keys (body : M A) (handler : any -> M A) :
  only_removes keys body -> (forall e, only_removes keys (handler e)) ->
  only_removes keys (try_catch body handler).
Proof.
  intros Hb Hh w r w' Heq. unfold try_catch in Heq.
  destruct (body w) as [[a|e] w1] eqn:Hrun.
  - injection Heq as <- <-. exact (Hb _ _ _ Hrun).
  - destruct (Hb _ _ _ Hrun) as (Hc & Hi & Hsub & Hkeep).
    destruct (Hh e _ _ _ Heq) as (Hc' & Hi' & Hsub' & Hkeep').
    split; [congruence|]. split; [congruence|].
    split; [etransitivity; eassumption|].
    intros key Hkey. rewrite Hkeep', Hkeep; auto.
Qed.

Lemma only_removes_removeItem keys key :
  In key keys -> only_removes keys (removeItem env key).
Proof.
  intros Hin. unfold removeItem. apply only_removes_bind; [apply only_removes_call|].
  intros _ w r w' Heq. injection Heq as <- <-. simpl.
  split; [reflexivity|]. split; [reflexivity|]. split; [apply delete_subseteq|].
  intros k Hk. apply lookup_delete_ne. intros ->. contradiction.
Qed.

Lemma only_removes_removeChannels keys cs : only_removes keys (removeChannels rev env cs).
Proof.
  induction cs as [|c cs IH]; simpl; [apply only_removes_ret|].
  apply only_removes_bind; [destruct rev; [apply only_removes_ret|apply only_removes_call]|].
  intros _. apply only_removes_bind; [apply only_removes_call|]. intros _. exact IH.
Qed.

Lemma only_removes_cleanup keys : only_removes keys (cleanup rev env).
Proof.
  unfold cleanup. apply only_removes_bind.
  - intros w r w' Heq. injection Heq as <- <-. auto.
  - intros active. apply only_removes_bind.
    + destruct active; [apply only_removes_call|apply only_removes_ret].
    + intros _. apply only_removes_bind; [apply only_removes_call|].
      intros cs. apply only_removes_removeChannels.
Qed.

Lemma only_removes_signOut : only_removes (session_keys env) (signOut rev env).
Proof.
  unfold signOut. apply only_removes_try_catch.
  - unfold signOut_try. apply only_removes_bind; [apply only_removes_cleanup|].
    intros _. apply only_removes_bind.
    + unfold session_keys. destruct (storageKey env) as [k|]; [|apply only_removes_ret].
      destruct (truthy (text k)); [|apply only_removes_ret].
      apply only_removes_removeItem. left. reflexivity.
    + intros _. apply only_removes_bind; [apply only_removes_call|].
      intros error. apply only_removes_bind.
      { destruct (truthy error); [apply only_removes_throw|apply only_removes_ret]. }
      intros _. apply only_removes_bind.
      { apply only_removes_removeItem. unfold session_keys.
        apply List.in_or_app. right. left. reflexivity. }
      intros _. apply only_removes_bind.
      { apply only_removes_removeItem. unfold session_keys.
        apply List.in_or_app. right. right. left. reflexivity. }
      intros _. apply only_removes_bind; [|intros _; apply only_removes_ret].
      intros w r w' Heq. injection Heq as <- <-. simpl. auto.
  - intros e. apply only_removes_bind; [apply only_removes_call|].
    intros _. apply only_removes_ret.
Qed.

End StorageFacts.

(** X5.  Whatever the SDK and the browser answer, [signOut] never adds or
    changes an entry of local storage: it can only remove entries, and only
    under the configured storage key, "supabase.auth.token" and
    "supabase.auth.refreshToken"; every other key keeps its value.  It
    changes neither [isConnected] nor the interval handle. *)
Theorem signOut_only_removes_session_keys (rev : Lib.revision) (env : Lib.sdk)
    (w : Lib.world) :
  let w' := snd (Lib.signOut rev env w) in
  Lib.localStorage w' ⊆ Lib.localStorage w /\
  (forall k, ~ In k (Lib.session_keys env) ->
     Lib.localStorage w' !! k = Lib.localStorage w !! k) /\
  Lib.isConnected w' = Lib.isConnected w /\
  Lib.realtimeHealthCheck w' = Lib.realtimeHealthCheck w.
Proof.
  intros w'. subst w'.
  destruct (Lib.signOut rev env w) as [r w'] eqn:Hrun.
  destruct (only_removes_signOut rev env w r w' Hrun) as (Hc & Hi & Hsub & Hkeep).
  simpl. auto.
Qed.

Section CooperativeFacts.

Import Lib.

Variable rev : revision.
Variable env : sdk.
Hypothesis Hcoop : cooperative env.

Lemma removeChannels_cooperative cs : forall w,
  exists h, removeChannels rev env cs w =
    (Normal tt, World (isConnected w) (realtimeHealthCheck w) (localStorage w)
                      (href w) (trace w ++ h)) /\
    ~ In (SetHref "/") h.
Proof.
  destruct Hcoop as (_ & Hremove & Hunsub & _).
  induction cs as [|c cs IH]; intros w.
  - exists []. rewrite app_nil_r. destruct w; simpl; auto.
  - simpl. unfold mbind, M_bind, bind. destruct rev; simpl.
    + rewrite Hremove.
      match goal with |- context [removeChannels _ env cs ?w0] =>
        destruct (IH w0) as (h & -> & Hno) end.
      simpl. exists (RemoveChannel c :: h). rewrite <- app_assoc.
      split; [reflexivity|]. intros [Heq|Hin]; [discriminate|contradiction].
    + rewrite Hunsub, Hremove.
      match goal with |- context [removeChannels _ env cs ?w0] =>
        destruct (IH w0) as (h & -> & Hno) end.
      simpl. exists (UnsubscribeChannel c :: RemoveChannel c :: h). rewrite <- !app_assoc.
      split; [reflexivity|].
      intros [Heq|[Heq|Hin]]; [discriminate|discriminate|contradiction].
Qed.

Lemma cleanup_cooperative w :
  exists h, cleanup rev env w =
    (Normal tt, World (isConnected w) (realtimeHealthCheck w) (localStorage w)
                      (href w) (trace w ++ h)) /\
    ~ In (SetHref "/") h.
Proof.
  unfold cleanup, mbind, M_bind, bind, get_realtimeHealthCheck.
  destruct (realtimeHealthCheck w) eqn:Hactive; simpl.
  - destruct (proj1 Hcoop (trace w ++ [ClearInterval])) as [cs ->].
    match goal with |- context [removeChannels rev env cs ?w0] =>
      destruct (removeChannels_cooperative cs w0) as (h & -> & Hno) end.
    simpl. exists (ClearInterval :: GetChannels :: h). rewrite <- !app_assoc, Hactive.
    split; [reflexivity|].
    intros [Heq|[Heq|Hin]]; [discriminate|discriminate|contradiction].
  - destruct (proj1 Hcoop (trace w)) as [cs ->].
    match goal with |- context [removeChannels rev env cs ?w0] =>
      destruct (removeChannels_cooperative cs w0) as (h & -> & Hno) end.
    simpl. exists (GetChannels :: h). rewrite <- !app_assoc, Hactive.
    split; [reflexivity|].
    intros [Heq|Hin]; [discriminate|contradiction].
Qed.

End CooperativeFacts.

(** X6.  When the storage and channel calls return and the provider signs
    the user out without error, [signOut] resolves with [{ error: null }],
    the location ends as "/", and local storage has no entry left under the
    configured storage key (when it is a non-empty string),
    "supabase.auth.token" or "supabase.auth.refreshToken". *)
Theorem signOut_clears_session (rev : Lib.revision) (env : Lib.sdk) (w : Lib.world) :
  Lib.cooperative env ->
  (forall h, exists error,
     Lib.auth_signOut_settles env h = Normal error /\ truthy error = false) ->
  let run := Lib.signOut rev env w in
  fst run = Normal (object [("error", null)]) /\
  Lib.href (snd run) = "/" /\
  forall k, In k (Lib.session_keys env) -> Lib.localStorage (snd run) !! k = None.
Proof.
  intros Hcoop Hauth run. subst run.
  assert (Hitem : forall h, Lib.removeItem_returns env h = Normal tt) by apply Hcoop.
  destruct (cleanup_cooperative rev env Hcoop w) as (h & Hclean & _).
  unfold Lib.session_keys.
  unfold Lib.signOut, Lib.try_catch, Lib.signOut_try.
  destruct (Lib.storageKey env) as [key|]; [destruct (truthy (text key))|];
    unfold mbind, Lib.M_bind, Lib.bind, Lib.removeItem, Lib.set_href, Lib.modify,
      Lib.emit, Lib.call, Lib.ret;
    unfold mbind, Lib.M_bind, Lib.bind; simpl; rewrite Hclean; simpl;
    rewrite ?Hitem; simpl;
    match goal with |- context [Lib.auth_signOut_settles env ?h0] =>
      destruct (Hauth h0) as (error & -> & ->) end;
    simpl; rewrite ?Hitem; simpl; rewrite ?Hitem; simpl;
    (split; [reflexivity|]); (split; [reflexivity|]);
    intros k Hk; simpl in Hk;
    repeat (destruct Hk as [<-|Hk];
            [first [apply lookup_delete_eq
                   | rewrite lookup_delete; case_decide; [reflexivity|];
                     first [apply lookup_delete_eq
                           | rewrite lookup_delete; case_decide; [reflexivity|];
                             apply lookup_delete_eq]]|]);
    try contradiction.
Qed.

Lemma signOut_clears_session_witness :
  let run := Lib.signOut Lib.Later Lib.quiet Fixture.browsing in
  fst run = Normal (object [("error", null)]) /\
  Lib.href (snd run) = "/" /\
  forall k, In k (Lib.session_keys Lib.quiet) -> Lib.localStorage (snd run) !! k = None.
Proof.
  apply (signOut_clears_session Lib.Later Lib.quiet Fixture.browsing).
  - unfold Lib.cooperative. simpl. eauto.
  - intros h. exists null. simpl. auto.
Defined.

(** X7.  When the storage and channel calls return but the provider sign-out
    fails with [e] (it rejects, or reports a truthy error), [signOut] resolves
    with [{ error: e }] and does not redirect: the location is unchanged.
    Local storage has by then lost the entry under the configured storage
    key (when that is a non-empty string), which is removed before the
    provider is called, and nothing else: every entry under another key is
    still there. *)
Theorem signOut_failed_provider (rev : Lib.revision) (env : Lib.sdk) (w : Lib.world)
    (e : any) :
  Lib.cooperative env ->
  (forall h, Lib.failure env h Lib.AuthSignOut = Some e) ->
  let run := Lib.signOut rev env w in
  fst run = Normal (object [("error", e)]) /\
  Lib.href (snd run) = Lib.href w /\
  Lib.localStorage (snd run) =
    match Lib.storageKey env with
    | Some key => if truthy (text key) then delete key (Lib.localStorage w)
                  else Lib.localStorage w
    | None => Lib.localStorage w
    end.
Proof.
  intros Hcoop Hfail run. subst run.
  assert (Hitem : forall h, Lib.removeItem_returns env h = Normal tt) by apply Hcoop.
  destruct (cleanup_cooperative rev env Hcoop w) as (h & Hclean & _).
  unfold Lib.signOut, Lib.try_catch, Lib.signOut_try.
  destruct (Lib.storageKey env) as [key|]; [destruct (truthy (text key))|];
    unfold mbind, Lib.M_bind, Lib.bind, Lib.removeItem, Lib.set_href, Lib.modify,
      Lib.emit, Lib.call, Lib.ret, Lib.throw;
    unfold mbind, Lib.M_bind, Lib.bind; simpl; rewrite Hclean; simpl;
    rewrite ?Hitem; simpl;
    match goal with |- context [Lib.auth_signOut_settles env ?h0] =>
      specialize (Hfail h0); simpl in Hfail;
      destruct (Lib.auth_signOut_settles env h0) as [error|e']
    end;
    try (destruct (truthy error); [|discriminate Hfail]);
    injection Hfail as ->; simpl; auto.
Qed.

Lemma signOut_failed_provider_witness :
  let run := Lib.signOut Lib.Later Fixture.refusing Fixture.browsing in
  fst run = Normal (object [("error", Error "network")]) /\
  Lib.href (snd run) = Lib.href Fixture.browsing /\
  Lib.localStorage (snd run) =
    delete "supabase.auth.token" (Lib.localStorage Fixture.browsing).
Proof.
  apply (signOut_failed_provider Lib.Later Fixture.refusing Fixture.browsing
           (Error "network")).
  - unfold Lib.cooperative. simpl. eauto.
  - intros h. reflexivity.
Defined.

Section WaitFacts.

Import Lib.

Lemma total_app l1 l2 : total (l1 ++ l2) = total l1 + total l2.
Proof. induction l1 as [|x l1 IH]; simpl; [reflexivity|]. rewrite IH. lia. Qed.


End WaitFacts.



(** * Further properties of the database *)

Section ConstraintFacts.

Import Schema.

Lemma NoDup_snoc {A} (l : list A) (x : A) : List.NoDup l -> ~ In x l -> List.NoDup (l ++ [x]).
Proof.
  induction l as [|y l IH]; intros Hnd Hx; simpl.
  - constructor; [intros []|constructor].
  - inversion Hnd as [|? ? Hy Hl]; subst. constructor.
    + intros Hin. apply List.in_app_or in Hin as [Hin|[<-|[]]]; [contradiction|].
      apply Hx. left. reflexivity.
    + apply IH; [assumption|]. intros Hin. apply Hx. right. exact Hin.
Qed.

Lemma NoDup_map_filter {A B} (f : A -> B) (p : A -> bool) (l : list A) :
  List.NoDup (map f l) -> List.NoDup (map f (List.filter p l)).
Proof.
  induction l as [|x l IH]; intros Hnd; simpl; [constructor|].
  inversion Hnd as [|? ? Hx Hl]; subst.
  destruct (p x); simpl; [|auto]. constructor; [|auto].
  intros Hin. apply Hx. apply List.in_map_iff in Hin as (y & Hy & Hin).
  apply List.in_map_iff. exists y. apply List.filter_In in Hin. tauto.
Qed.

Lemma in_omap {A B} (f : A -> option B) (l : list A) (b : B) :
  In b (omap f l) <-> exists a, In a l /\ f a = Some b.
Proof.
  induction l as [|x l IH]; simpl.
  - split; [intros []|intros (a & [] & _)].
  - destruct (f x) as [y|] eqn:Hfx; simpl; rewrite IH; split.
    + intros [<-|(a & Ha & Hfa)]; eauto.
    + intros (a & [<-|Ha] & Hfa); [left; congruence|eauto].
    + intros (a & Ha & Hfa). eauto.
    + intros (a & [<-|Ha] & Hfa); [congruence|eauto].
Qed.

Lemma NoDup_omap_filter {A B} (f : A -> option B) (p : A -> bool) (l : list A) :
  List.NoDup (omap f l) -> List.NoDup (omap f (List.filter p l)).
Proof.
  induction l as [|x l IH]; intros Hnd; simpl; [constructor|].
  simpl in Hnd. destruct (p x); simpl; destruct (f x) as [y|] eqn:Hfx; simpl in *;
    try (inversion Hnd as [|? ? Hx Hl]; subst); auto.
  constructor; [|auto]. intros Hin. apply Hx.
  apply in_omap in Hin as (a & Ha & Hfa). apply in_omap. exists a.
  apply List.filter_In in Ha. tauto.
Qed.

Lemma omap_snoc {A B} (f : A -> option B) (l : list A) (x : A) :
  omap f (l ++ [x]) = omap f l ++ match f x with Some y => [y] | None => [] end.
Proof. rewrite omap_app. simpl. destruct (f x); reflexivity. Qed.

Lemma not_in_ids {A} (id : A -> string) (key : string) (l : list A) :
  existsb (fun r => String.eqb (id r) key) l = false -> ~ In key (map id l).
Proof.
  intros Hex Hin. apply existsb_id_in in Hin. congruence.
Qed.

Lemma insert_group_member_consistent uid new d d' :
  consistent d -> insert_group_member uid new d = inr d' -> consistent d'.
Proof.
  intros [] Hins. unfold insert_group_member in Hins.
  destruct (negb _); [discriminate|].
  destruct (existsb _ (group_members d)) eqn:Hkey; [discriminate|].
  destruct (existsb _ (groups d)) eqn:Hg; [|discriminate].
  destruct (existsb _ (users d)) eqn:Hu; [|discriminate]. simpl in Hins.
  injection Hins as <-. constructor; simpl; auto.
  - rewrite List.map_app. apply NoDup_snoc; [assumption|].
    intros Hin. apply List.in_map_iff in Hin as (gm & Heq & Hin).
    apply (existsb_none _ _ Hkey) in Hin. unfold member_key in Heq.
    injection Heq as Hgid Huid. rewrite Hgid, Huid, !String.eqb_refl in Hin. discriminate.
  - intros gm Hin. apply List.in_app_or in Hin as [Hin|[<-|[]]]; [auto|].
    apply List.existsb_exists in Hg as (g & Hg & Heq). apply String.eqb_eq in Heq.
    rewrite <- Heq. apply List.in_map, Hg.
  - intros gm Hin. apply List.in_app_or in Hin as [Hin|[<-|[]]]; [auto|].
    apply List.existsb_exists in Hu as (u & Hu & Heq). apply String.eqb_eq in Heq.
    rewrite <- Heq. apply List.in_map, Hu.
Qed.

Lemma insert_group_consistent fresh name description topics code max d g d' :
  consistent d ->
  insert_group fresh name description topics code max d = inr (g, d') -> consistent d'.
Proof.
  intros [] Hins. unfold insert_group in Hins. revert Hins.
  destruct (existsb (fun g0 => String.eqb (Group.id g0) fresh) (groups d)) eqn:Hid;
    [discriminate|].
  destruct (existsb (fun g0 => sql_eq (Group.invite_code g0) code) (groups d)) eqn:Hcode;
    [discriminate|].
  intros Hins. injection Hins as <- <-. constructor; simpl; auto.
  - rewrite List.map_app. apply NoDup_snoc; [assumption|]. apply not_in_ids, Hid.
  - rewrite omap_snoc. simpl. apply NoDup_snoc; [assumption|].
    intros Hin. apply in_omap in Hin as (g' & Hg' & Heq).
    apply (existsb_none _ _ Hcode) in Hg'. apply sql_eq_false in Hg'. contradiction.
  - intros gm Hin. rewrite List.map_app. apply List.in_or_app. left. auto.
  - intros mt g Hin Heq. rewrite List.map_app. apply List.in_or_app. left. eauto.
Qed.

Lemma insert_user_profile_consistent uid code v d p d' :
  consistent d -> insert_user_profile uid code v d = inr (p, d') -> consistent d'.
Proof.
  intros [] Hins. unfold insert_user_profile in Hins.
  destruct (negb (String.eqb uid (v_id v))); [discriminate|].
  destruct (existsb (String.eqb (v_gender v)) _) eqn:Hgender; [|discriminate].
  simpl in Hins. revert Hins.
  destruct (existsb (fun q => String.eqb (UserProfile.id q) (v_id v)) (user_profiles d))
    eqn:Hid; [discriminate|].
  destruct (existsb (fun q => sql_eq (UserProfile.view_code q) code) (user_profiles d))
    eqn:Hcode; [discriminate|].
  intros Hins. injection Hins as <- <-. constructor; simpl; auto.
  - rewrite List.map_app. apply NoDup_snoc; [assumption|]. apply not_in_ids, Hid.
  - rewrite omap_snoc. simpl. apply NoDup_snoc; [assumption|].
    intros Hin. apply in_omap in Hin as (q & Hq & Heq).
    apply (existsb_none _ _ Hcode) in Hq. apply sql_eq_false in Hq. contradiction.
  - intros q g Hin Hg.
    apply List.in_app_or in Hin as [Hin|[<-|[]]]; [exact (profiles_gender0 q g Hin Hg)|].
    simpl in Hg. injection Hg as <-.
    apply List.existsb_exists in Hgender as (x & Hx & Heq).
    apply String.eqb_eq in Heq. subst. exact Hx.
Qed.

Lemma insert_message_consistent uid new d d' :
  consistent d -> insert_message uid new d = inr d' -> consistent d'.
Proof.
  intros [] Hins. unfold insert_message in Hins.
  destruct (negb _); [discriminate|].
  destruct (existsb _ (messages d)) eqn:Hid; [discriminate|].
  injection Hins as <-. constructor; simpl; auto.
  rewrite List.map_app. apply NoDup_snoc; [assumption|]. apply not_in_ids, Hid.
Qed.

End ConstraintFacts.

(** X9.  Every insert the database accepts keeps the constraints of the
    migrations: the primary keys, the unique invite and view codes, the
    foreign keys of [group_members] and [meetings] and the check on
    [gender]. *)
Theorem inserts_keep_constraints (d : Schema.db) :
  Schema.consistent d ->
  (forall uid new d',
     Schema.insert_group_member uid new d = inr d' -> Schema.consistent d') /\
  (forall fresh name description topics code max g d',
     Schema.insert_group fresh name description topics code max d = inr (g, d') ->
     Schema.consistent d') /\
  (forall uid code v p d',
     Schema.insert_user_profile uid code v d = inr (p, d') -> Schema.consistent d') /\
  (forall uid new d',
     Schema.insert_message uid new d = inr d' -> Schema.consistent d').
Proof.
  intros Hd. split; [|split; [|split]].
  - intros uid new d'. apply insert_group_member_consistent, Hd.
  - intros fresh name description topics code max g d'.
    apply insert_group_consistent, Hd.
  - intros uid code v p d'. apply insert_user_profile_consistent, Hd.
  - intros uid new d'. apply insert_message_consistent, Hd.
Qed.

Lemma sample_database_consistent : Schema.consistent Sample.database.
Proof.
  constructor; simpl;
    try (repeat constructor; simpl; intuition discriminate).
  - intros gm [<-|[<-|[<-|[]]]]; simpl; auto.
  - intros gm [<-|[<-|[<-|[]]]]; simpl; auto.
  - intros p g [<-|[]] Hg. injection Hg as <-. auto.
  - intros mt g [<-|[]] Hg. injection Hg as <-. auto.
Qed.

Lemma inserts_keep_constraints_witness :
  (forall uid new d',
     Schema.insert_group_member uid new Sample.database = inr d' ->
     Schema.consistent d') /\
  (forall fresh name description topics code max g d',
     Schema.insert_group fresh name description topics code max Sample.database
       = inr (g, d') ->
     Schema.consistent d') /\
  (forall uid code v p d',
     Schema.insert_user_profile uid code v Sample.database = inr (p, d') ->
     Schema.consistent d') /\
  (forall uid new d',
     Schema.insert_message uid new Sample.database = inr d' -> Schema.consistent d').
Proof.
  apply (inserts_keep_constraints Sample.database). apply sample_database_consistent.
Defined.

Section DeleteFacts.

Import Schema.

Lemma delete_where_filter {A} (p : A -> bool) (t : list A) :
  delete_where p t = List.filter (fun r => negb (p r)) t.
Proof. reflexivity. Qed.

Lemma delete_group_consistent g d : consistent d -> consistent (delete_group g d).
Proof.
  intros [].
  assert (Hgroup : forall gid, gid <> Group.id g -> In gid (map Group.id (groups d)) ->
            In gid (map Group.id
                      (delete_where (fun g0 => String.eqb (Group.id g0) (Group.id g))
                                    (groups d)))).
  { intros gid Hne Hin. apply List.in_map_iff in Hin as (g0 & <- & Hin).
    apply List.in_map. apply in_delete_where. split; [exact Hin|].
    apply String.eqb_neq. exact Hne. }
  constructor; unfold delete_group, cascade_group, handle_group_deletion; simpl;
    rewrite ?delete_where_filter;
    auto using NoDup_map_filter, NoDup_omap_filter.
  - intros gm Hin. apply List.filter_In in Hin as [Hin _].
    apply List.filter_In in Hin as [Hin Hne]. apply negb_true_iff, String.eqb_neq in Hne.
    apply Hgroup; auto.
  - intros gm Hin. apply List.filter_In in Hin as [Hin _].
    apply List.filter_In in Hin as [Hin _]. auto.
  - intros mt gid Hin Hgid. apply List.filter_In in Hin as [Hin _].
    apply List.filter_In in Hin as [Hin Hne]. apply negb_true_iff, sql_eq_false in Hne.
    apply Hgroup; [intros Heq; apply Hne; rewrite Hgid, Heq; reflexivity|eauto].
Qed.

Lemma delete_groups_consistent (victims : list Group.row) : forall d,
  consistent d -> consistent (fold_left (fun d' g => delete_group g d') victims d).
Proof.
  induction victims as [|g victims IH]; intros d Hd; simpl; [exact Hd|].
  apply IH, delete_group_consistent, Hd.
Qed.

(** With unique ids, the rows of [groups] with the id of [g] are [g] alone. *)
Lemma filter_by_id (g : Group.row) (l : list Group.row) (p : Group.row -> bool) :
  List.NoDup (map Group.id l) -> In g l -> p g = true ->
  List.filter (fun g0 => String.eqb (Group.id g0) (Group.id g) && p g0) l = [g].
Proof.
  induction l as [|x l IH]; intros Hnd Hin Hp; [destruct Hin|].
  simpl in Hnd. inversion Hnd as [|? ? Hx Hl]; subst. simpl.
  destruct Hin as [->|Hin].
  - rewrite String.eqb_refl, Hp. simpl. f_equal. apply filter_none.
    intros y Hy. apply andb_false_iff. left. apply String.eqb_neq.
    intros Heq. apply Hx. rewrite <- Heq. apply List.in_map, Hy.
  - assert (Hne : Group.id x <> Group.id g).
    { intros Heq. apply Hx. rewrite Heq. apply List.in_map, Hin. }
    apply String.eqb_neq in Hne. rewrite Hne. simpl. apply IH; assumption.
Qed.

End DeleteFacts.

(** X10.  Deleting a group keeps the constraints of the migrations: after the
    trigger, the row delete and the cascades no membership and no meeting
    refers to a missing group, and the keys stay unique.  This holds for the
    deletion of one row and for a whole [DELETE FROM groups WHERE id = ...]
    issued by any user. *)
Theorem delete_keeps_constraints (d : Schema.db) :
  Schema.consistent d ->
  (forall g, Schema.consistent (Schema.delete_group g d)) /\
  (forall uid gid, Schema.consistent (Schema.delete_groups_by_id uid gid d)).
Proof.
  intros Hd. split.
  - intros g. apply delete_group_consistent, Hd.
  - intros uid gid. apply delete_groups_consistent, Hd.
Qed.

Lemma delete_keeps_constraints_witness :
  (forall g, Schema.consistent (Schema.delete_group g Sample.database)) /\
  (forall uid gid, Schema.consistent (Schema.delete_groups_by_id uid gid Sample.database)).
Proof.
  apply (delete_keeps_constraints Sample.database). apply sample_database_consistent.
Defined.

(** X11.  Only its creator can delete a group.  A [DELETE FROM groups WHERE
    id = gid] by a user who has no membership row of that group with
    [is_creator = true] leaves the whole database as it is; issued by the
    creator of the group [g], it is the deletion of [g] with its trigger and
    cascades, and of nothing else. *)
Theorem delete_needs_creator (uid : string) (g : Schema.Group.row) (d : Schema.db) :
  Schema.consistent d ->
  In g (Schema.groups d) ->
  (Schema.may_delete_group uid d g = false ->
     Schema.delete_groups_by_id uid (Schema.Group.id g) d = d) /\
  (Schema.may_delete_group uid d g = true ->
     Schema.delete_groups_by_id uid (Schema.Group.id g) d = Schema.delete_group g d) /\
  (Schema.may_delete_group uid d g = true <->
     exists gm, In gm (Schema.group_members d) /\
       Schema.GroupMember.group_id gm = Schema.Group.id g /\
       Schema.GroupMember.user_id gm = uid /\
       Schema.GroupMember.is_creator gm = true).
Proof.
  intros Hd Hg. unfold Schema.delete_groups_by_id. split; [|split].
  - intros Hno. rewrite filter_none; [reflexivity|].
    intros g' Hg'. destruct (String.eqb_spec (Schema.Group.id g') (Schema.Group.id g)) as [Heq|];
      [|reflexivity].
    simpl. unfold Schema.may_delete_group in *. rewrite Heq. exact Hno.
  - intros Hyes.
    rewrite (filter_by_id g (Schema.groups d) (Schema.may_delete_group uid d));
      [reflexivity|apply Hd|exact Hg|exact Hyes].
  - unfold Schema.may_delete_group. rewrite List.existsb_exists. split.
    + intros (gm & Hgm & Hkey). exists gm.
      apply andb_true_iff in Hkey as [Hkey Hc]. apply andb_true_iff in Hkey as [Hgid Hu].
      apply String.eqb_eq in Hgid, Hu. auto.
    + intros (gm & Hgm & Hgid & Hu & Hc). exists gm.
      rewrite Hgid, Hu, Hc, !String.eqb_refl. auto.
Qed.

Lemma delete_needs_creator_witness :
  (Schema.may_delete_group "user-3" Sample.database Sample.algebra = false ->
     Schema.delete_groups_by_id "user-3" "group-1" Sample.database = Sample.database) /\
  (Schema.may_delete_group "user-3" Sample.database Sample.algebra = true ->
     Schema.delete_groups_by_id "user-3" "group-1" Sample.database
       = Schema.delete_group Sample.algebra Sample.database) /\
  (Schema.may_delete_group "user-3" Sample.database Sample.algebra = true <->
     exists gm, In gm (Schema.group_members Sample.database) /\
       Schema.GroupMember.group_id gm = "group-1" /\
       Schema.GroupMember.user_id gm = "user-3" /\
       Schema.GroupMember.is_creator gm = true).
Proof.
  apply (delete_needs_creator "user-3" Sample.algebra Sample.database).
  - apply sample_database_consistent.
  - simpl. auto.
Defined.

Section PolicyFacts.

Import Schema.

Lemma member_of_message_group_spec uid d m :
  member_of_message_group uid d m = true <->
  exists gm, In gm (group_members d) /\
             Message.group_id m = Some (GroupMember.group_id gm) /\
             GroupMember.user_id gm = uid.
Proof.
  unfold member_of_message_group. rewrite List.existsb_exists. split.
  - intros (gm & Hgm & Hcond). apply andb_true_iff in Hcond as [Hg Hu].
    apply sql_eq_true in Hg. apply String.eqb_eq in Hu. eauto.
  - intros (gm & Hgm & Hg & Hu). exists gm. split; [exact Hgm|].
    apply andb_true_iff. split; [apply sql_eq_true, Hg|apply String.eqb_eq, Hu].
Qed.

Lemma member_of_message_group_mono uid d d' m :
  (forall gm, In gm (group_members d) -> In gm (group_members d')) ->
  member_of_message_group uid d m = true -> member_of_message_group uid d' m = true.
Proof.
  intros Hsub. rewrite !member_of_message_group_spec.
  intros (gm & Hgm & Hrest). exists gm. auto.
Qed.

Lemma insert_message_ok uid new d d' :
  insert_message uid new d = inr d' ->
  member_of_message_group uid d new = true /\
  messages d' = messages d ++ [new] /\
  group_members d' = group_members d.
Proof.
  unfold insert_message.
  destruct (member_of_message_group uid d new); [|discriminate]. simpl.
  destruct (existsb _ (messages d)); [discriminate|].
  intros Heq. injection Heq as <-. auto.
Qed.

End PolicyFacts.

(** X12.  Who reads and writes messages.  A user reads exactly the messages
    of the groups they have a membership row in, so a message without a group
    is read by nobody.  A message the policy let a user insert is among the
    messages that user reads afterwards, and neither an accepted message nor
    an accepted membership takes a readable message away from anybody. *)
Theorem messages_for_members_only (uid : string) (d : Schema.db) :
  (forall m, In m (Schema.select_messages uid d) <->
     In m (Schema.messages d) /\
     exists gm, In gm (Schema.group_members d) /\
       Schema.Message.group_id m = Some (Schema.GroupMember.group_id gm) /\
       Schema.GroupMember.user_id gm = uid) /\
  (forall m, In m (Schema.select_messages uid d) -> Schema.Message.group_id m <> None) /\
  (forall new d', Schema.insert_message uid new d = inr d' ->
     In new (Schema.select_messages uid d') /\
     forall reader m, In m (Schema.select_messages reader d) ->
                      In m (Schema.select_messages reader d')) /\
  (forall who new d', Schema.insert_group_member who new d = inr d' ->
     forall reader m, In m (Schema.select_messages reader d) ->
                      In m (Schema.select_messages reader d')).
Proof.
  assert (Hread : forall reader d0 m, In m (Schema.select_messages reader d0) <->
     In m (Schema.messages d0) /\
     exists gm, In gm (Schema.group_members d0) /\
       Schema.Message.group_id m = Some (Schema.GroupMember.group_id gm) /\
       Schema.GroupMember.user_id gm = reader).
  { intros reader d0 m. unfold Schema.select_messages.
    rewrite List.filter_In, member_of_message_group_spec. reflexivity. }
  split; [apply Hread|]. split; [|split].
  - intros m Hm. apply Hread in Hm as (_ & gm & _ & Hg & _). congruence.
  - intros new d' Hins. apply insert_message_ok in Hins as (Hmember & Hmsgs & Hgms).
    split.
    + unfold Schema.select_messages. apply List.filter_In. split.
      * rewrite Hmsgs. apply List.in_or_app. right. left. reflexivity.
      * apply (member_of_message_group_mono uid d d'); [|exact Hmember].
        intros gm. rewrite Hgms. auto.
    + intros reader m Hm. apply Hread in Hm as [Hm Hgm]. apply Hread. split.
      * rewrite Hmsgs. apply List.in_or_app. left. exact Hm.
      * rewrite Hgms. exact Hgm.
  - intros who new d' Hins reader m Hm.
    assert (Hmsgs : Schema.messages d' = Schema.messages d).
    { unfold Schema.insert_group_member in Hins.
      repeat match type of Hins with
             | (if ?c then _ else _) = _ => destruct c; [try discriminate|try discriminate]
             end.
      injection Hins as <-. reflexivity. }
    apply insert_group_member_ok in Hins as (_ & Hgms & _).
    apply Hread in Hm as (Hm & gm & Hgm & Hrest). apply Hread. split.
    + rewrite Hmsgs. exact Hm.
    + exists gm. split; [|exact Hrest]. rewrite Hgms. apply List.in_or_app. left. exact Hgm.
Qed.

Section NewUserFacts.

Import Schema.

Lemma existsb_some {A} (p : A -> bool) (l : list A) (x : A) :
  In x l -> p x = true -> existsb p l = true.
Proof. intros Hx Hp. apply List.existsb_exists. eauto. Qed.

Lemma handle_new_user_cases avatar code NEW d :
  let d' := handle_new_user avatar (Some code) NEW d in
  (existsb (fun p => String.eqb (UserProfile.id p) (User.id NEW)) (user_profiles d) = true /\
   d' = d) \/
  (existsb (fun p => String.eqb (UserProfile.id p) (User.id NEW)) (user_profiles d) = false /\
   existsb (fun p => sql_eq (UserProfile.view_code p) code) (user_profiles d) = true /\
   d' = d) \/
  (existsb (fun p => String.eqb (UserProfile.id p) (User.id NEW)) (user_profiles d) = false /\
   existsb (fun p => sql_eq (UserProfile.view_code p) code) (user_profiles d) = false /\
   insert_user_profile (User.id NEW) code
     (ProfileValues (User.id NEW)
        (match User.email NEW with Some email => split_part_at email | None => "User" end)
        "I'm here to learn and teach" [] "dark" "other" avatar) d
     = inr (new_user_profile avatar code NEW, d') /\
   d' = Db (messages d) (groups d) (group_members d)
           (user_profiles d ++ [new_user_profile avatar code NEW]) (meetings d) (users d)).
Proof.
  unfold handle_new_user, insert_user_profile. simpl.
  destruct (existsb (fun p => String.eqb (UserProfile.id p) (User.id NEW)) (user_profiles d))
    eqn:Hid; [left; auto|right].
  rewrite String.eqb_refl. simpl.
  destruct (existsb (fun p => sql_eq (UserProfile.view_code p) code) (user_profiles d))
    eqn:Hcode; [left; auto|right].
  repeat split.
Qed.

(** Without a code the trigger inserts nothing. *)
Lemma handle_new_user_no_code avatar NEW d : handle_new_user avatar None NEW d = d.
Proof. unfold handle_new_user. destruct (existsb _ _); reflexivity. Qed.

End NewUserFacts.

(** X13.  The sign-up trigger of the second migration never fails and adds at
    most one row.  It touches no table but [user_profiles] and keeps the
    constraints.  For a user who has a profile it changes nothing.  For a
    user without one it appends the default profile when the view code could
    be drawn and is free; it changes nothing when the code is taken or when
    drawing it raised, as it does where [gen_random_bytes] is not found under
    the [public] schema: the user is then signed up without a profile.  Once
    the user has a profile, firing it again changes nothing. *)
Theorem handle_new_user_adds_at_most_one_profile
    (avatar : string) (drawn : option string) (NEW : Schema.User.row) (d : Schema.db) :
  Schema.consistent d ->
  let d' := Schema.handle_new_user avatar drawn NEW d in
  let has_profile (d0 : Schema.db) :=
    exists p, In p (Schema.user_profiles d0) /\ Schema.UserProfile.id p = Schema.User.id NEW in
  Schema.consistent d' /\
  (Schema.messages d' = Schema.messages d /\ Schema.groups d' = Schema.groups d /\
   Schema.group_members d' = Schema.group_members d /\
   Schema.meetings d' = Schema.meetings d /\ Schema.users d' = Schema.users d) /\
  (has_profile d -> d' = d) /\
  (drawn = None -> d' = d) /\
  (forall code, drawn = Some code -> ~ has_profile d ->
   (forall p, In p (Schema.user_profiles d) -> Schema.UserProfile.view_code p <> Some code) ->
   Schema.user_profiles d' = Schema.user_profiles d ++ [Schema.new_user_profile avatar code NEW]) /\
  (forall code, drawn = Some code -> ~ has_profile d ->
   (exists p, In p (Schema.user_profiles d) /\ Schema.UserProfile.view_code p = Some code) ->
   d' = d) /\
  (Schema.user_profiles d' = Schema.user_profiles d \/
   exists code, drawn = Some code /\
     Schema.user_profiles d' =
       Schema.user_profiles d ++ [Schema.new_user_profile avatar code NEW]) /\
  (has_profile d' ->
   forall avatar2 drawn2, Schema.handle_new_user avatar2 drawn2 NEW d' = d').
Proof.
  intros Hd d' has_profile.
  assert (Hhas : forall d0, has_profile d0 <->
            existsb (fun p => String.eqb (Schema.UserProfile.id p) (Schema.User.id NEW))
                    (Schema.user_profiles d0) = true).
  { intros d0. unfold has_profile. rewrite List.existsb_exists.
    split; intros (p & Hp & Hid); exists p; (split; [exact Hp|]);
      apply String.eqb_eq; exact Hid. }
  assert (Hidem : forall d0, has_profile d0 ->
            forall avatar2 drawn2, Schema.handle_new_user avatar2 drawn2 NEW d0 = d0).
  { intros d0 Hp avatar2 drawn2. apply Hhas in Hp. unfold Schema.handle_new_user.
    rewrite Hp. reflexivity. }
  assert (Hsame : d' = d ->
    Schema.consistent d' /\
    (Schema.messages d' = Schema.messages d /\ Schema.groups d' = Schema.groups d /\
     Schema.group_members d' = Schema.group_members d /\
     Schema.meetings d' = Schema.meetings d /\ Schema.users d' = Schema.users d) /\
    (has_profile d -> d' = d) /\ (drawn = None -> d' = d)).
  { intros Heq. rewrite Heq. auto 10. }
  destruct drawn as [code|].
  2: { pose proof (handle_new_user_no_code avatar NEW d) as Heq. fold d' in Heq.
       destruct (Hsame Heq) as (H1 & H2 & H3 & H4).
       split; [exact H1|]. split; [exact H2|]. split; [exact H3|]. split; [exact H4|].
       split; [discriminate|]. split; [discriminate|].
       split; [left; rewrite Heq; reflexivity|apply Hidem]. }
  destruct (handle_new_user_cases avatar code NEW d)
    as [[Hid Heq]|[(Hid & Hcode & Heq)|(Hid & Hcode & Hins & Heq)]]; fold d' in Heq.
  - destruct (Hsame Heq) as (H1 & H2 & H3 & H4).
    split; [exact H1|]. split; [exact H2|]. split; [exact H3|]. split; [exact H4|].
    split; [|split; [auto|split; [left; rewrite Heq; reflexivity|apply Hidem]]].
    intros code' _ Hno. exfalso. apply Hno, Hhas, Hid.
  - destruct (Hsame Heq) as (H1 & H2 & H3 & H4).
    split; [exact H1|]. split; [exact H2|]. split; [exact H3|]. split; [exact H4|].
    split; [|split; [auto|split; [left; rewrite Heq; reflexivity|apply Hidem]]].
    intros code' Hdrawn _ Hfree. injection Hdrawn as <-. exfalso.
    apply List.existsb_exists in Hcode as (p & Hp & Hc).
    apply sql_eq_true in Hc. exact (Hfree p Hp Hc).
  - fold d' in Hins. split; [exact (insert_user_profile_consistent _ _ _ _ _ _ Hd Hins)|].
    rewrite Heq. simpl. split; [auto|]. split; [|split; [discriminate|split; [|split; [|split]]]].
    + intros Hp. apply Hhas in Hp. congruence.
    + intros code' Hdrawn _ _. injection Hdrawn as <-. reflexivity.
    + intros code' Hdrawn _ (p & Hp & Hc). injection Hdrawn as <-.
      apply sql_eq_true in Hc.
      rewrite (existsb_some _ _ p Hp Hc) in Hcode. discriminate.
    + right. eauto.
    + rewrite <- Heq. apply Hidem.
Qed.

Lemma handle_new_user_adds_at_most_one_profile_witness :
  let NEW := Sample.bob in
  let d := Sample.database in
  let drawn := Some "Zm9vYmFy" in
  let d' := Schema.handle_new_user Sample.stickman drawn NEW d in
  let has_profile (d0 : Schema.db) :=
    exists p, In p (Schema.user_profiles d0) /\ Schema.UserProfile.id p = Schema.User.id NEW in
  Schema.consistent d' /\
  (Schema.messages d' = Schema.messages d /\ Schema.groups d' = Schema.groups d /\
   Schema.group_members d' = Schema.group_members d /\
   Schema.meetings d' = Schema.meetings d /\ Schema.users d' = Schema.users d) /\
  (has_profile d -> d' = d) /\
  (drawn = None -> d' = d) /\
  (forall code, drawn = Some code -> ~ has_profile d ->
   (forall p, In p (Schema.user_profiles d) -> Schema.UserProfile.view_code p <> Some code) ->
   Schema.user_profiles d' =
   Schema.user_profiles d ++ [Schema.new_user_profile Sample.stickman code NEW]) /\
  (forall code, drawn = Some code -> ~ has_profile d ->
   (exists p, In p (Schema.user_profiles d) /\ Schema.UserProfile.view_code p = Some code) ->
   d' = d) /\
  (Schema.user_profiles d' = Schema.user_profiles d \/
   exists code, drawn = Some code /\
     Schema.user_profiles d' =
       Schema.user_profiles d ++ [Schema.new_user_profile Sample.stickman code NEW]) /\
  (has_profile d' ->
   forall avatar2 drawn2, Schema.handle_new_user avatar2 drawn2 NEW d' = d').
Proof.
  apply (handle_new_user_adds_at_most_one_profile Sample.stickman (Some "Zm9vYmFy")
           Sample.bob Sample.database).
  apply sample_database_consistent.
Defined.

Section ViewCodeFacts.

Import Schema.

Variable random_index : nat -> Z.
Variable target : uuid.

Lemma map_unless {A} (p : A -> bool) (f : A -> A) (l : list A) :
  (forall x, In x l -> p x = false) -> map (fun x => if p x then f x else x) l = l.
Proof.
  induction l as [|x l IH]; intros Hp; [reflexivity|]. simpl.
  rewrite (Hp x) by (left; reflexivity). f_equal. apply IH.
  intros y Hy. apply Hp. right. exact Hy.
Qed.

Lemma filter_length_zero {A} (p : A -> bool) (l : list A) :
  length (List.filter p l) = 0%nat -> forall x, In x l -> p x = false.
Proof.
  intros Hlen x Hx. destruct (p x) eqn:Hp; [|reflexivity].
  assert (Hin : In x (List.filter p l)) by (apply List.filter_In; auto).
  destruct (List.filter p l); [destruct Hin|discriminate].
Qed.

(** An [UPDATE] that matches no row changes nothing. *)
Lemma update_view_code_no_row code d rows d' :
  update_view_code target code d = inr (rows, d') -> (0 <? rows)%nat = false -> d' = d.
Proof.
  unfold update_view_code.
  destruct (_ && _); [discriminate|]. intros Heq Hrows. injection Heq as <- <-.
  apply Nat.ltb_ge in Hrows.
  rewrite map_unless; [destruct d; reflexivity|].
  apply filter_length_zero. lia.
Qed.

Lemma update_view_code_miss code d :
  (forall p, In p (user_profiles d) -> lacks_view_code target p = false) ->
  update_view_code target code d = inr (0%nat, d).
Proof.
  intros Hnone. unfold update_view_code.
  rewrite (filter_none _ _ Hnone). simpl.
  rewrite (map_unless _ _ _ Hnone). destruct d; reflexivity.
Qed.

Lemma generate_from_raises d (n : nat) : forall i drawn,
  (forall p, In p (user_profiles d) -> lacks_view_code target p = false) ->
  i + Z.of_nat n = 10 ->
  generate_from random_index target i drawn d =
  (Raised "Could not generate unique view code after 10 attempts", (drawn + 8 * n)%nat, d).
Proof.
  induction n as [|n IH]; intros i drawn Hnone Hi; rewrite generate_from_equation_1;
    destruct (Z_lt_dec i 10) as [Hlt|Hge]; simpl; try lia.
  - do 2 f_equal. lia.
  - rewrite (update_view_code_miss _ _ Hnone). simpl.
    rewrite (IH (i + 1) (drawn + 8)%nat Hnone) by lia. do 2 f_equal. lia.
Qed.

Lemma generate_from_returned d c drawn' d' (n : nat) : forall i drawn,
  i + Z.of_nat n = 10 ->
  generate_from random_index target i drawn d = (Returned c, drawn', d') ->
  exists (k rows : nat),
    (k < n)%nat /\ drawn' = (drawn + 8 * (k + 1))%nat /\
    c = draw_code random_index (drawn + 8 * k) /\
    update_view_code target c d = inr (rows, d') /\ (0 < rows)%nat.
Proof.
  induction n as [|n IH]; intros i drawn Hi; rewrite generate_from_equation_1;
    destruct (Z_lt_dec i 10) as [Hlt|Hge]; simpl; try lia; try discriminate.
  assert (Hnext : generate_from random_index target (i + 1) (drawn + 8)%nat d
                  = (Returned c, drawn', d') ->
          exists k rows : nat,
            (k < S n)%nat /\ drawn' = (drawn + 8 * (k + 1))%nat /\
            c = draw_code random_index (drawn + 8 * k) /\
            update_view_code target c d = inr (rows, d') /\ (0 < rows)%nat).
  { intros Hgen. apply IH in Hgen as (k & rows & Hk & Hd & Hc & Hup & Hrows); [|lia].
    exists (S k), rows.
    split; [lia|]. split; [lia|]. split; [rewrite Hc; f_equal; lia|].
    split; [exact Hup|exact Hrows]. }
  destruct (update_view_code target (draw_code random_index drawn) d)
    as [e|[rows d1]] eqn:Hup; [exact Hnext|].
  destruct (0 <? rows)%nat eqn:Hrows.
  - intros Heq. injection Heq as <- <- <-. exists 0%nat, rows.
    apply Nat.ltb_lt in Hrows.
    split; [lia|]. split; [lia|]. split; [f_equal; lia|]. split; [exact Hup|exact Hrows].
  - rewrite (update_view_code_no_row _ _ _ _ Hup Hrows). exact Hnext.
Qed.

(** What an [UPDATE] that matched a row did. *)
Lemma update_view_code_hit c d rows d' :
  update_view_code target c d = inr (rows, d') -> (0 < rows)%nat ->
  user_profiles d' =
    map (fun p => if lacks_view_code target p then set_view_code c p else p) (user_profiles d) /\
  (exists p, In p (user_profiles d) /\ lacks_view_code target p = true) /\
  (forall q, In q (user_profiles d) -> lacks_view_code target q = false ->
             UserProfile.view_code q <> Some c) /\
  messages d' = messages d /\ groups d' = groups d /\
  group_members d' = group_members d /\ meetings d' = meetings d /\ users d' = users d.
Proof.
  unfold update_view_code.
  destruct (List.filter (lacks_view_code target) (user_profiles d)) as [|p hit] eqn:Hhit;
    [simpl; intros Heq; injection Heq as <- _; lia|].
  simpl (0 <? _)%nat. cbv beta iota.
  destruct (existsb _ _) eqn:Hother; [discriminate|]. simpl orb.
  destruct (_ && _); [discriminate|].
  intros Heq _. injection Heq as _ <-. simpl. repeat split.
  - exists p. apply List.filter_In. rewrite Hhit. left. reflexivity.
  - intros q Hq Hlacks. apply sql_eq_false.
    apply (existsb_none _ _ Hother). apply List.filter_In. rewrite Hlacks. auto.
Qed.

Lemma substr1_chars (r : Z) : 1 <= r <= 36 -> String.length (substr1 chars r) = 1%nat.
Proof.
  intros Hr. unfold substr1. destruct (r <? 1) eqn:Hlt; [lia|].
  assert (Hk : (Z.to_nat (r - 1) < 36)%nat) by lia.
  generalize dependent (Z.to_nat (r - 1)). intros k Hk.
  do 36 (destruct k as [|k]; [reflexivity|]). lia.
Qed.

Lemma string_length_append (s t : string) :
  String.length (s ++ t) = (String.length s + String.length t)%nat.
Proof. induction s as [|a s IH]; simpl; [reflexivity|]. rewrite IH. reflexivity. Qed.

Lemma draw_code_length drawn :
  (forall n, 1 <= random_index n <= 36) ->
  String.length (draw_code random_index drawn) = 8%nat.
Proof.
  intros Hr. unfold draw_code. simpl.
  rewrite !string_length_append, !substr1_chars by apply Hr. reflexivity.
Qed.

End ViewCodeFacts.

(** X14.  The view-code generator of the first migration gives up for a user
    whose profile row is missing or has a code already: each of its ten
    rounds draws eight characters and updates no row, so it raises "Could not
    generate unique view code after 10 attempts" after eighty draws and
    leaves the tables as they were.  The sign-up trigger of that migration
    calls it before it inserts the profile, so for a user without a profile
    row the trigger raises the same exception and inserts nothing. *)
Theorem generate_unique_view_code_gives_up
    (random_index : nat -> Z) (target : string) (drawn : nat) (d : Schema.db) :
  (forall p, In p (Schema.user_profiles d) -> Schema.lacks_view_code target p = false) ->
  Schema.generate_unique_view_code random_index target drawn d =
    (Schema.Raised "Could not generate unique view code after 10 attempts",
     (drawn + 80)%nat, d) /\
  forall avatar NEW,
    Schema.User.id NEW = target ->
    Schema.handle_new_user_v1 random_index avatar NEW drawn d =
      (Schema.Raised "Could not generate unique view code after 10 attempts",
       (drawn + 80)%nat, d).
Proof.
  intros Hnone.
  assert (Hgen : Schema.generate_unique_view_code random_index target drawn d =
    (Schema.Raised "Could not generate unique view code after 10 attempts",
     (drawn + 80)%nat, d)).
  { unfold Schema.generate_unique_view_code.
    rewrite (generate_from_raises random_index target d 10 0 drawn Hnone) by lia.
    reflexivity. }
  split; [exact Hgen|].
  intros avatar NEW Hid. unfold Schema.handle_new_user_v1. rewrite Hid, Hgen. reflexivity.
Qed.

Lemma generate_unique_view_code_gives_up_witness :
  Schema.generate_unique_view_code Fixture.always_first "user-1" 0 Sample.database =
    (Schema.Raised "Could not generate unique view code after 10 attempts",
     80%nat, Sample.database) /\
  forall avatar NEW,
    Schema.User.id NEW = "user-1" ->
    Schema.handle_new_user_v1 Fixture.always_first avatar NEW 0 Sample.database =
      (Schema.Raised "Could not generate unique view code after 10 attempts",
       80%nat, Sample.database).
Proof.
  apply (generate_unique_view_code_gives_up Fixture.always_first "user-1" 0 Sample.database).
  intros p [<-|[]]. reflexivity.
Defined.

(** X15.  When the view-code generator returns a code, it made at most ten
    rounds of eight draws, the code is the one of its last round, and the
    tables differ from before only in that code: the rows of the target user
    that had no code now have it, no other row has it, no row was added or
    dropped, and the other tables are as they were.  With every draw between
    1 and 36 the code has eight characters. *)
Theorem generate_unique_view_code_returns
    (random_index : nat -> Z) (target : string) (drawn : nat) (d : Schema.db)
    (c : string) (drawn' : nat) (d' : Schema.db) :
  Schema.generate_unique_view_code random_index target drawn d
    = (Schema.Returned c, drawn', d') ->
  (exists k, (k < 10)%nat /\ drawn' = (drawn + 8 * (k + 1))%nat /\
             c = Schema.draw_code random_index (drawn + 8 * k)) /\
  Schema.user_profiles d' =
    map (fun p => if Schema.lacks_view_code target p then Schema.set_view_code c p else p)
        (Schema.user_profiles d) /\
  (exists p, In p (Schema.user_profiles d') /\
             Schema.UserProfile.id p = target /\ Schema.UserProfile.view_code p = Some c) /\
  (forall q, In q (Schema.user_profiles d') -> Schema.UserProfile.view_code q = Some c ->
             Schema.UserProfile.id q = target) /\
  (Schema.messages d' = Schema.messages d /\ Schema.groups d' = Schema.groups d /\
   Schema.group_members d' = Schema.group_members d /\
   Schema.meetings d' = Schema.meetings d /\ Schema.users d' = Schema.users d) /\
  ((forall n, 1 <= random_index n <= 36) -> String.length c = 8%nat).
Proof.
  intros Hgen. unfold Schema.generate_unique_view_code in Hgen.
  apply (generate_from_returned random_index target d c drawn' d' 10) in Hgen
    as (k & rows & Hk & Hdrawn & Hc & Hup & Hrows); [|lia].
  apply update_view_code_hit in Hup
    as (Hprofiles & (p & Hp & Hlacks) & Hothers & Hframe); [|exact Hrows].
  split; [eauto|]. split; [exact Hprofiles|]. split; [|split; [|split; [exact Hframe|]]].
  - exists (Schema.set_view_code c p). split; [|split; [|reflexivity]].
    + rewrite Hprofiles. apply List.in_map_iff. exists p. rewrite Hlacks. auto.
    + simpl. unfold Schema.lacks_view_code in Hlacks.
      apply andb_true_iff in Hlacks as [Hid _]. apply String.eqb_eq, Hid.
  - intros q Hq Hcode. rewrite Hprofiles in Hq.
    apply List.in_map_iff in Hq as (q0 & Heq & Hq0).
    destruct (Schema.lacks_view_code target q0) eqn:Hl.
    + subst q. simpl. unfold Schema.lacks_view_code in Hl.
      apply andb_true_iff in Hl as [Hid _]. apply String.eqb_eq, Hid.
    + subst q. exfalso. exact (Hothers q0 Hq0 Hl Hcode).
  - intros Hr. rewrite Hc. apply draw_code_length, Hr.
Qed.

Lemma generate_unique_view_code_returns_witness :
  exists c drawn' d',
    Schema.generate_unique_view_code Fixture.always_first "user-2" 0 Fixture.first_migration
      = (Schema.Returned c, drawn', d') /\
    (exists k, (k < 10)%nat /\ drawn' = (0 + 8 * (k + 1))%nat /\
               c = Schema.draw_code Fixture.always_first (0 + 8 * k)) /\
    Schema.user_profiles d' =
      map (fun p => if Schema.lacks_view_code "user-2" p then Schema.set_view_code c p else p)
          (Schema.user_profiles Fixture.first_migration) /\
    (exists p, In p (Schema.user_profiles d') /\
               Schema.UserProfile.id p = "user-2" /\ Schema.UserProfile.view_code p = Some c) /\
    (forall q, In q (Schema.user_profiles d') -> Schema.UserProfile.view_code q = Some c ->
               Schema.UserProfile.id q = "user-2") /\
    (Schema.messages d' = Schema.messages Fixture.first_migration /\
     Schema.groups d' = Schema.groups Fixture.first_migration /\
     Schema.group_members d' = Schema.group_members Fixture.first_migration /\
     Schema.meetings d' = Schema.meetings Fixture.first_migration /\
     Schema.users d' = Schema.users Fixture.first_migration) /\
    ((forall n, 1 <= Fixture.always_first n <= 36) -> String.length c = 8%nat).
Proof.
  eexists _, _, _. split; [vm_compute; reflexivity|].
  eapply (generate_unique_view_code_returns Fixture.always_first "user-2" 0
            Fixture.first_migration).
  vm_compute. reflexivity.
Defined.

(** * Further properties of the dashboard *)

Section FetchFacts.

Import Schema Client.

Variable userId : uuid.
Variable stickman : string.








End FetchFacts.


Section AmongFacts.

Import Schema Client.

Variable userId : uuid.
Variable stickman : string.
Variable env : Dash.surroundings.


Lemma auth_uid_arrives k w : auth_uid (Dash.arrives env k w) = auth_uid w.
Proof. reflexivity. Qed.


Hypothesis answered : forall k, Dash.responses env k = Answered.
Hypothesis nobody : forall k d, Dash.others env k d = d.




End AmongFacts.



Section SignUpFacts.

Import Schema Client.

Lemma split_part_at_before_at s : split_part_at s = before_at s.
Proof. induction s as [|c s IH]; simpl; [reflexivity|]. rewrite IH. reflexivity. Qed.


End SignUpFacts.



(** X18.  The dashboard and the sign-up trigger name a new user alike exactly
    when the email has a non-empty part before its first "@" or is missing:
    both then use that part, or "User" without an email.  For an email that
    starts with "@" the trigger stores the empty name, while the dashboard
    falls back to "User". *)
Theorem default_names_agree (userId stickman avatar code : string)
    (user : Schema.User.row) :
  let dashboard := Schema.v_name (Dash.defaultProfile userId stickman user) in
  let trigger := Schema.UserProfile.name (Schema.new_user_profile avatar code user) in
  (dashboard = trigger <->
     forall email, Schema.User.email user = Some email -> Client.before_at email <> "") /\
  dashboard <> "" /\
  (forall email, Schema.User.email user = Some email ->
     trigger = Client.before_at email /\
     (Client.before_at email = "" -> dashboard = "User")) /\
  (Schema.User.email user = None -> dashboard = "User" /\ trigger = "User").
Proof.
  cbv zeta. unfold Dash.defaultProfile, Schema.new_user_profile.
  cbn [Schema.v_name Schema.UserProfile.name].
  destruct (Schema.User.email user) as [email|].
  - change (Schema.split_part_at email) with (Client.before_at email).
    destruct (String.eqb_spec (Client.before_at email) "") as [Hempty|Hfull].
    + rewrite Hempty. split; [split|split; [discriminate|split]].
      * discriminate.
      * intros Hall. exfalso. exact (Hall email eq_refl Hempty).
      * intros email' Heq. injection Heq as <-. rewrite Hempty. auto.
      * discriminate.
    + split; [split|split; [exact Hfull|split]].
      * intros _ email' Heq. injection Heq as <-. exact Hfull.
      * reflexivity.
      * intros email' Heq. injection Heq as <-. split; [reflexivity|contradiction].
      * discriminate.
  - repeat split; try discriminate.
Qed.

Section GroupListFacts.

Import Schema Client.




End GroupListFacts.



Section CreateFacts.

Import Schema Client.




End CreateFacts.



Section SearchFacts.

Import Schema Client.

(** With unique view codes, the rows with the code of [p] are [p] alone. *)
Lemma filter_by_view_code (p : UserProfile.row) (c : string) (l : list UserProfile.row) :
  List.NoDup (omap UserProfile.view_code l) -> In p l -> UserProfile.view_code p = Some c ->
  List.filter (fun q => sql_eq (UserProfile.view_code q) c) l = [p].
Proof.
  induction l as [|x l IH]; intros Hnd Hin Hc; [destruct Hin|].
  simpl in Hnd. simpl. destruct Hin as [->|Hin].
  - rewrite Hc in *. simpl. rewrite String.eqb_refl. f_equal.
    inversion Hnd as [|? ? Hx Hl]; subst. apply filter_none.
    intros y Hy. apply sql_eq_false. intros Hyc. apply Hx. apply in_omap. eauto.
  - destruct (UserProfile.view_code x) as [cx|] eqn:Hcx; simpl.
    + inversion Hnd as [|? ? Hx Hl]; subst.
      destruct (String.eqb_spec cx c) as [->|Hne]; [|auto].
      exfalso. apply Hx. apply in_omap. eauto.
    + auto.
Qed.

Lemma groups_by_ids_nil d : groups_by_ids [] d = [].
Proof. unfold groups_by_ids. apply filter_none. reflexivity. Qed.

(** What [handleSearch] displays when the code names one profile and the
    three requests are answered. *)
Lemma handleSearch_found net c fs w p :
  (forall k, (k < 3)%nat -> net k = Answered) ->
  profiles_by_view_code c (database w) = [p] ->
  Find.handleSearch net c fs w =
  (Find.State (Some p)
     (groups_by_ids (map GroupMember.group_id (members_by_user (UserProfile.id p) (database w)))
                    (database w))
     false None, w).
Proof.
  intros Hnet Hp. unfold Find.handleSearch.
  rewrite (Hnet 0%nat), (Hnet 1%nat), (Hnet 2%nat) by lia. rewrite Hp. simpl.
  destruct (members_by_user (UserProfile.id p) (database w)) as [|gm gms]; simpl.
  - rewrite groups_by_ids_nil. reflexivity.
  - reflexivity.
Qed.


End SearchFacts.



(** * Further properties of the profile editor and the person finder *)

(** X22.  What one run of [handleFileUpload] can do.  It never changes the
    id, name, bio, topics, theme, view code or gender of the edited profile.
    It ends in one of four ways: nothing changed at all; one of the two
    alerts "File size must be less than 5MB" and "Only image files are
    allowed" was shown and nothing else changed; the try block threw for a
    file that passed both checks, "Error uploading file:" was logged and the
    alert "Failed to upload image. Please try again." shown, and nothing
    else changed; or one upload was sent, with the path
    [userId-<Date.now()>.jpg] and [upsert: true], and no alert was shown and
    nothing logged.  After an upload that was rejected or answered with an
    error the profile is as before (the error is shown nowhere); after one
    that succeeded both picture URLs are the public URL of that path. *)
Theorem handleFileUpload_outcomes (env : Prof.browser) (userId : string)
    (file : option Prof.File) (w : Prof.world) :
  let w' := Prof.handleFileUpload env userId file w in
  let p := Prof.profile w in
  let p' := Prof.profile w' in
  (Schema.UserProfile.id p' = Schema.UserProfile.id p /\
   Schema.UserProfile.name p' = Schema.UserProfile.name p /\
   Schema.UserProfile.bio p' = Schema.UserProfile.bio p /\
   Schema.UserProfile.topics p' = Schema.UserProfile.topics p /\
   Schema.UserProfile.theme p' = Schema.UserProfile.theme p /\
   Schema.UserProfile.view_code p' = Schema.UserProfile.view_code p /\
   Schema.UserProfile.gender p' = Schema.UserProfile.gender p) /\
  (w' = w \/
   (exists msg,
      (msg = "File size must be less than 5MB" \/ msg = "Only image files are allowed") /\
      w' = Prof.alert msg w) \/
   (exists f e,
      file = Some f /\ Prof.size f <= 5 * 1024 * 1024 /\
      String.prefix "image/" (Prof.type f) = true /\
      Prof.setup_throws env f = Some e /\
      w' = Prof.World p (Prof.alerts w ++ ["Failed to upload image. Please try again."])
                      (Prof.uploads w) (Prof.console w ++ ["Error uploading file:"])) \/
   (exists u,
      Prof.uploads w' = Prof.uploads w ++ [u] /\
      Prof.alerts w' = Prof.alerts w /\
      Prof.console w' = Prof.console w /\
      Prof.path u = (userId ++ "-" ++ pretty (Prof.Date_now env) ++ ".jpg")%string /\
      Prof.upsert u = true /\
      match Prof.upload_result env u with
      | Throw _ => p' = p
      | Normal error =>
          if truthy error then p' = p
          else Schema.UserProfile.profile_picture_url p' =
                 Some (Prof.getPublicUrl env (Prof.path u)) /\
               Schema.UserProfile.custom_avatar_url p' =
                 Some (Prof.getPublicUrl env (Prof.path u))
      end)).
Proof.
  intros w' p p'. subst w' p p'. unfold Prof.handleFileUpload.
  destruct file as [file|]; [|auto 10].
  destruct (Z.gtb_spec (Prof.size file) (5 * 1024 * 1024)) as [Hbig|Hsmall].
  { split; [simpl; auto 10|]. right. left. eauto. }
  destruct (String.prefix "image/" (Prof.type file)) eqn:Himage; simpl.
  2: { split; [auto 10|]. right. left. eauto. }
  destruct (Prof.setup_throws env file) as [e|] eqn:Hsetup.
  { split; [simpl; auto 10|]. right. right. left. exists file, e. simpl. auto 10. }
  destruct (Prof.decode env file) as [[img_width img_height]|]; [|auto 10].
  destruct (Prof.has_context env); [|auto 10].
  destruct (Prof.encodes env _); [|auto 10].
  unfold Prof.on_blob.
  destruct (Prof.upload_result env _) as [error|reason] eqn:Hres;
    [destruct (truthy error) eqn:Herr|].
  - split; [simpl; auto 10|]. right. right. right. eexists. simpl.
    split; [reflexivity|]. split; [reflexivity|]. split; [reflexivity|].
    split; [reflexivity|]. split; [reflexivity|]. rewrite Hres, Herr. reflexivity.
  - split; [simpl; auto 10|]. right. right. right. eexists. simpl.
    split; [reflexivity|]. split; [reflexivity|]. split; [reflexivity|].
    split; [reflexivity|]. split; [reflexivity|]. rewrite Hres, Herr. auto.
  - split; [simpl; auto 10|]. right. right. right. eexists. simpl.
    split; [reflexivity|]. split; [reflexivity|]. split; [reflexivity|].
    split; [reflexivity|]. split; [reflexivity|]. rewrite Hres. reflexivity.
Qed.

Section CanvasFacts.

Import Prof.

(** Every pair of sizes up to 1024 passes the check; by evaluation of the
    canvas code on each of them. *)
Lemma covers_up_to_1024 : all_cover (Numbers 1024) = true.
Proof. vm_compute. reflexivity. Qed.

Lemma in_Numbers (n : nat) (z : Z) : 1 <= z <= Z.of_nat n -> In (Number z) (Numbers n).
Proof.
  intros Hz. unfold Numbers, sizes. apply List.in_map, List.in_map_iff.
  exists (Z.to_nat z). split; [lia|]. apply List.in_seq. lia.
Qed.

(** The check does not look at the file. *)
Lemma covers_any_file (f g : File) (img_width img_height : float) :
  covers (composite f img_width img_height) = covers (composite g img_width img_height).
Proof. reflexivity. Qed.

Lemma all_cover_In (l : list float) (f : File) (img_width img_height : float) :
  all_cover l = true -> In img_width l -> In img_height l ->
  covers (composite f img_width img_height) = true.
Proof.
  unfold all_cover. intros Hall Hw Hh.
  rewrite List.forallb_forall in Hall. specialize (Hall img_width Hw).
  rewrite List.forallb_forall in Hall. specialize (Hall img_height Hh).
  rewrite (covers_any_file f {| file_name := ""; size := 0; type := "" |}). exact Hall.
Qed.

End CanvasFacts.

(** X23.  The canvas that [handleFileUpload] draws, computed in doubles as
    the browser does.  It is 1000 by 1000 and filled white, and the image is
    drawn once.  For an image of width and height from 1 to 1024 the drawn
    image covers the canvas up to the rounding of the last place and is
    centred: the drawn width and height are at least 999.9999999999999 (the
    double before 1000) and one of them is at most 1000.0000000000001 (the
    double after it); the left and top edges are at most [2 ^ -44]; and the
    left edge plus half the drawn width, like the top edge plus half the
    drawn height, is exactly 500.  The cover is not exact: for a 19 by 19
    image the drawn width is below 1000 and the left edge is right of 0. *)
Theorem composite_covers_canvas (file : Prof.File) (img_width img_height : Z) :
  1 <= img_width <= 1024 -> 1 <= img_height <= 1024 ->
  (exists x y dw dh : float,
     Prof.composite file (Prof.Number img_width) (Prof.Number img_height) =
       Prof.Canvas 1000 1000
         [Prof.fillRect "white" 0 0 (Prof.Number 1000) (Prof.Number 1000);
          Prof.drawImage file x y dw dh] /\
     ((0x1.f3fffffffffffp+9 <=? dw)%float = true /\
      (0x1.f3fffffffffffp+9 <=? dh)%float = true /\
      ((dw <=? 0x1.f400000000001p+9)%float = true \/
       (dh <=? 0x1.f400000000001p+9)%float = true)) /\
     ((x <=? 0x1p-44)%float = true /\ (y <=? 0x1p-44)%float = true) /\
     ((x + dw / 2 =? 500)%float = true /\ (y + dh / 2 =? 500)%float = true)) /\
  (exists x y dw dh : float,
     Prof.drawn (Prof.composite file (Prof.Number 19) (Prof.Number 19)) =
       [Prof.fillRect "white" 0 0 (Prof.Number 1000) (Prof.Number 1000);
        Prof.drawImage file x y dw dh] /\
     (dw <? 1000)%float = true /\ (0 <? x)%float = true).
Proof.
  intros Hw Hh. split.
  - pose proof (all_cover_In (Prof.Numbers 1024) file _ _ covers_up_to_1024
                  (in_Numbers 1024 img_width Hw) (in_Numbers 1024 img_height Hh)) as Hall.
    unfold Prof.covers, Prof.composite in Hall. cbv zeta in Hall. simpl Prof.drawn in Hall.
    cbv iota in Hall.
    repeat (apply andb_true_iff in Hall; destruct Hall as [Hall ?]).
    eexists _, _, _, _. split; [reflexivity|].
    split; [|split; [split; assumption|split; assumption]].
    split; [assumption|]. split; [assumption|].
    apply orb_true_iff. assumption.
  - eexists _, _, _, _. split; [reflexivity|]. split; vm_compute; reflexivity.
Qed.

Lemma composite_covers_canvas_witness :
  (exists x y dw dh : float,
     Prof.composite Sample.photo (Prof.Number 640) (Prof.Number 480) =
       Prof.Canvas 1000 1000
         [Prof.fillRect "white" 0 0 (Prof.Number 1000) (Prof.Number 1000);
          Prof.drawImage Sample.photo x y dw dh] /\
     ((0x1.f3fffffffffffp+9 <=? dw)%float = true /\
      (0x1.f3fffffffffffp+9 <=? dh)%float = true /\
      ((dw <=? 0x1.f400000000001p+9)%float = true \/
       (dh <=? 0x1.f400000000001p+9)%float = true)) /\
     ((x <=? 0x1p-44)%float = true /\ (y <=? 0x1p-44)%float = true) /\
     ((x + dw / 2 =? 500)%float = true /\ (y + dh / 2 =? 500)%float = true)) /\
  (exists x y dw dh : float,
     Prof.drawn (Prof.composite Sample.photo (Prof.Number 19) (Prof.Number 19)) =
       [Prof.fillRect "white" 0 0 (Prof.Number 1000) (Prof.Number 1000);
        Prof.drawImage Sample.photo x y dw dh] /\
     (dw <? 1000)%float = true /\ (0 <? x)%float = true).
Proof.
  apply (composite_covers_canvas Sample.photo 640 480); lia.
Defined.

(** X24.  How the handlers of the profile editor compose.  Removing the
    custom avatar after an upload leaves the same profile as removing it at
    once, and removing it twice is removing it once.  A change of gender
    commutes with an upload and with the removal.  What [handleSave] sends as
    [profile_picture_url] is the custom avatar URL when there is a non-empty
    one and the built-in drawing otherwise: after a removal it is the
    drawing, and the id sent is always the [userId] of the component, not
    the id held in the edited profile. *)
Theorem avatar_handlers_compose (env : Prof.browser) (userId stickman gender : string)
    (file : option Prof.File) (w : Prof.world) :
  let upload := Prof.handleFileUpload env userId file in
  let remove := Prof.handleRemoveCustomAvatar stickman in
  let change := Prof.handleGenderChange gender in
  let sent := Prof.save_payload userId stickman in
  Prof.profile (remove (upload w)) = Prof.profile (remove w) /\
  remove (remove w) = remove w /\
  change (upload w) = upload (change w) /\
  change (remove w) = remove (change w) /\
  (Prof.saved_profile_picture_url (sent (remove w)) = stickman /\
   Prof.saved_custom_avatar_url (sent (remove w)) = None) /\
  (Prof.saved_profile_picture_url (sent w) = stickman \/
   exists url, Schema.UserProfile.custom_avatar_url (Prof.profile w) = Some url /\
               url <> "" /\ Prof.saved_profile_picture_url (sent w) = url) /\
  Prof.saved_id (sent w) = userId /\
  Prof.saved_gender (sent (change w)) = Some gender.
Proof.
  cbv zeta. split; [|split; [|split; [|split; [|split; [|split; [|split]]]]]].
  - unfold Prof.handleFileUpload.
    destruct file as [file|]; [|reflexivity].
    destruct (Prof.size file >? 5 * 1024 * 1024); [reflexivity|].
    destruct (negb (String.prefix "image/" (Prof.type file))); [reflexivity|].
    destruct (Prof.setup_throws env file); [reflexivity|].
    destruct (Prof.decode env file) as [[img_width img_height]|]; [|reflexivity].
    destruct (Prof.has_context env); [|reflexivity].
    destruct (Prof.encodes env _); [|reflexivity].
    unfold Prof.on_blob.
    destruct (Prof.upload_result env _) as [error|reason];
      [destruct (truthy error)|]; reflexivity.
  - reflexivity.
  - unfold Prof.handleFileUpload.
    destruct file as [file|]; [|reflexivity].
    destruct (Prof.size file >? 5 * 1024 * 1024); [reflexivity|].
    destruct (negb (String.prefix "image/" (Prof.type file))); [reflexivity|].
    destruct (Prof.setup_throws env file); [reflexivity|].
    destruct (Prof.decode env file) as [[img_width img_height]|]; [|reflexivity].
    destruct (Prof.has_context env); [|reflexivity].
    destruct (Prof.encodes env _); [|reflexivity].
    unfold Prof.on_blob. simpl.
    destruct (Prof.upload_result env _) as [error|reason];
      [destruct (truthy error)|]; reflexivity.
  - reflexivity.
  - split; reflexivity.
  - unfold Prof.save_payload. simpl.
    destruct (Schema.UserProfile.custom_avatar_url (Prof.profile w)) as [url|]; [|auto].
    destruct (String.eqb_spec url ""); [auto|]. right. eauto.
  - reflexivity.
  - reflexivity.
Qed.

Section FinderFacts.

Import Schema Client.

Lemma filter_in_code c l p :
  In p (List.filter (fun q => sql_eq (UserProfile.view_code q) c) l) <->
  In p l /\ UserProfile.view_code p = Some c.
Proof. rewrite List.filter_In, sql_eq_true. reflexivity. Qed.

End FinderFacts.

(** X25.  What a search in the person finder can end with.  [loading] ends
    false and the database is untouched; a profile that is displayed is
    stored and has the view code typed in, so a profile whose view code is
    NULL is found by no search.  When no error is displayed, a profile is,
    and nothing is logged.  When an error is displayed, no groups are, one
    line is logged, and the error is "User not found" with no profile, or
    the message of the error that rejected one of the three requests (or
    "Failed to find person" when that is no [Error]).  In a database that
    satisfies the constraints, a search whose requests are answered has two
    outcomes only: if a stored profile has the view code, it is displayed
    without error; if none has, "User not found" is. *)
Theorem handleSearch_outcomes (net : Client.network) (c : string) (st : Find.state)
    (w : Client.world) :
  Schema.consistent (Client.database w) ->
  let d := Client.database w in
  let st' := fst (Find.handleSearch net c st w) in
  let w' := snd (Find.handleSearch net c st w) in
  Find.loading st' = false /\ Client.database w' = d /\
  (forall p, Find.profile st' = Some p ->
     In p (Schema.user_profiles d) /\ Schema.UserProfile.view_code p = Some c) /\
  match Find.error st' with
  | None => w' = w /\ exists p, Find.profile st' = Some p
  | Some message =>
      Find.groups st' = [] /\
      Client.console w' = Client.console w ++ ["Error finding person:"] /\
      ((Find.profile st' = None /\ message = "User not found") \/
       exists k err, (k < 3)%nat /\ net k = Client.Rejected err /\
         message = match err with Error m => m | _ => "Failed to find person" end)
  end /\
  ((forall k, (k < 3)%nat -> net k = Client.Answered) ->
   (exists p, In p (Schema.user_profiles d) /\ Schema.UserProfile.view_code p = Some c /\
              Find.profile st' = Some p /\ Find.error st' = None /\ w' = w) \/
   ((forall p, In p (Schema.user_profiles d) -> Schema.UserProfile.view_code p <> Some c) /\
    Find.profile st' = None /\ Find.groups st' = [] /\
    Find.error st' = Some "User not found" /\
    Client.console w' = Client.console w ++ ["Error finding person:"])).
Proof.
  intros Hd d st' w'. subst st' w'.
  assert (Hrow : forall p, Schema.single (Schema.profiles_by_view_code c d) = inr p ->
            In p (Schema.user_profiles d) /\ Schema.UserProfile.view_code p = Some c).
  { intros p Hp. apply filter_in_code. fold (Schema.profiles_by_view_code c d).
    destruct (Schema.profiles_by_view_code c d) as [|q [|q' rest]]; try discriminate.
    injection Hp as ->. left. reflexivity. }
  split; [|split; [|split; [|split]]].
  - unfold Find.handleSearch.
    destruct (net 0%nat); [|reflexivity|reflexivity].
    destruct (Schema.single _); [reflexivity|].
    destruct (net 1%nat); [|reflexivity|reflexivity].
    destruct (0 <? _)%nat; [|reflexivity]. destruct (net 2%nat); reflexivity.
  - unfold Find.handleSearch.
    destruct (net 0%nat); [|reflexivity|reflexivity].
    destruct (Schema.single _); [reflexivity|].
    destruct (net 1%nat); [|reflexivity|reflexivity].
    destruct (0 <? _)%nat; [|reflexivity]. destruct (net 2%nat); reflexivity.
  - unfold Find.handleSearch. fold d.
    destruct (net 0%nat); [|discriminate|discriminate].
    destruct (Schema.single _) as [e|q] eqn:Hq; [discriminate|].
    specialize (Hrow q eq_refl).
    assert (Hsame : forall p, Some q = Some p ->
              In p (Schema.user_profiles d) /\ Schema.UserProfile.view_code p = Some c)
      by (intros p Heq; injection Heq as <-; exact Hrow).
    destruct (net 1%nat); [|exact Hsame|exact Hsame].
    destruct (0 <? _)%nat; [|exact Hsame]. destruct (net 2%nat); exact Hsame.
  - unfold Find.handleSearch. fold d.
    destruct (net 0%nat) as [|m0|e0] eqn:H0.
    2: { simpl. auto 6. }
    2: { simpl. split; [reflexivity|]. split; [reflexivity|]. right.
         exists 0%nat, e0. split; [lia|]. split; [exact H0|reflexivity]. }
    destruct (Schema.single _) as [e|q]; [simpl; auto 6|].
    destruct (net 1%nat) as [|m1|e1] eqn:H1.
    2: { simpl. eauto. }
    2: { simpl. split; [reflexivity|]. split; [reflexivity|]. right.
         exists 1%nat, e1. split; [lia|]. split; [exact H1|reflexivity]. }
    destruct (0 <? _)%nat; [|simpl; eauto].
    destruct (net 2%nat) as [|m2|e2] eqn:H2; [simpl; eauto|simpl; eauto|].
    simpl. split; [reflexivity|]. split; [reflexivity|]. right.
    exists 2%nat, e2. split; [lia|]. split; [exact H2|reflexivity].
  - intros Hnet.
    destruct (Schema.profiles_by_view_code c d) as [|p rest] eqn:Hrows.
    + assert (Hnone : forall p, In p (Schema.user_profiles d) ->
                Schema.UserProfile.view_code p <> Some c).
      { intros p Hp Hc. assert (Hin : In p (Schema.profiles_by_view_code c d))
          by (apply filter_in_code; auto).
        rewrite Hrows in Hin. destruct Hin. }
      unfold Find.handleSearch. fold d. rewrite (Hnet 0%nat) by lia. rewrite Hrows. simpl.
      right. auto 6.
    + assert (Hp : In p (Schema.user_profiles d) /\ Schema.UserProfile.view_code p = Some c).
      { apply filter_in_code. fold (Schema.profiles_by_view_code c d).
        rewrite Hrows. left. reflexivity. }
      destruct Hp as [Hp Hc].
      rewrite (handleSearch_found net c st w p Hnet)
        by (apply filter_by_view_code; [apply Hd|exact Hp|exact Hc]).
      simpl. left. exists p. auto 6.
Qed.

Lemma handleSearch_outcomes_witness :
  let net := Sample.online in
  let c := "VIEW0001" in
  let w := Sample.session Sample.ada in
  let d := Client.database w in
  let st' := fst (Find.handleSearch net c Sample.search w) in
  let w' := snd (Find.handleSearch net c Sample.search w) in
  Find.loading st' = false /\ Client.database w' = d /\
  (forall p, Find.profile st' = Some p ->
     In p (Schema.user_profiles d) /\ Schema.UserProfile.view_code p = Some c) /\
  match Find.error st' with
  | None => w' = w /\ exists p, Find.profile st' = Some p
  | Some message =>
      Find.groups st' = [] /\
      Client.console w' = Client.console w ++ ["Error finding person:"] /\
      ((Find.profile st' = None /\ message = "User not found") \/
       exists k err, (k < 3)%nat /\ net k = Client.Rejected err /\
         message = match err with Error m => m | _ => "Failed to find person" end)
  end /\
  ((forall k, (k < 3)%nat -> net k = Client.Answered) ->
   (exists p, In p (Schema.user_profiles d) /\ Schema.UserProfile.view_code p = Some c /\
              Find.profile st' = Some p /\ Find.error st' = None /\ w' = w) \/
   ((forall p, In p (Schema.user_profiles d) -> Schema.UserProfile.view_code p <> Some c) /\
    Find.profile st' = None /\ Find.groups st' = [] /\
    Find.error st' = Some "User not found" /\
    Client.console w' = Client.console w ++ ["Error finding person:"])).
Proof.
  apply (handleSearch_outcomes Sample.online "VIEW0001" Sample.search
           (Sample.session Sample.ada)).
  apply sample_database_consistent.
Defined.

(** * Properties of the sign-in form *)

Section AuthFacts.

Import Auth.

Variable env : provider.

(** Reading [message] off a thrown value fails for null and undefined only. *)
Lemma message_of_throws err e :
  message_of env err = Throw e -> (err = null \/ err = undefined) /\ e = type_error env err.
Proof. destruct err; simpl; intros Heq; try discriminate; injection Heq as <-; auto. Qed.

(** How [handleSubmit] ends, from how its [try] block ended. *)
Lemma handleSubmit_of_submit st :
  let '(r, st', called) := handleSubmit env st in
  email st' = email st /\ password st' = password st /\
  confirmPassword st' = confirmPassword st /\ isSignUp st' = isSignUp st /\
  isForgotPassword st' = isForgotPassword st /\ loading st' = false /\
  message st' = snd (submit env st) /\
  match fst (fst (submit env st)) with
  | Normal _ => r = Normal tt /\ called = snd (fst (submit env st)) /\ error st' = null
  | Throw err =>
      called = snd (fst (submit env st)) ++ [ConsoleError "Auth error:" err] /\
      match message_of env err with
      | Normal m => r = Normal tt /\ error st' = m
      | Throw e => r = Throw e /\ error st' = null
      end
  end.
Proof.
  unfold handleSubmit. destruct (submit env st) as [[[u|err] called] msg]; simpl.
  - repeat split.
  - destruct (message_of env err); simpl; repeat split.
Qed.

Lemma submit_submitted st : submitted env st (submit env st).
Proof.
  unfold submit.
  destruct (isForgotPassword st) eqn:Hforgot.
  { destruct (resetPasswordForEmail env (email st)) as [error|e] eqn:Hreset.
    - destruct (truthy error) eqn:Herror.
      + apply reset_failed; auto.
      + eapply reset_sent; eauto.
    - apply reset_failed; auto. }
  destruct (isSignUp st) eqn:Hmode.
  { destruct (String.eqb_spec (password st) (confirmPassword st)) as [Hsame|Hdiff]; simpl.
    2: { apply passwords_differ; auto. }
    destruct (signUp env (email st) (password st)) as [[user error]|e] eqn:Hup.
    2: { apply sign_up_failed; auto. }
    destruct (truthy error) eqn:Herror.
    { apply sign_up_failed; eauto 8. }
    destruct (truthy user) eqn:Huser; simpl.
    2: { apply sign_up_failed; auto. right. right. eauto 8. }
    destruct (onAuthSuccess env) as [u|e] eqn:Hcb; simpl;
      eapply signed_up; eauto. }
  destruct (signInWithPassword env (email st) (password st)) as [error|e] eqn:Hin.
  2: { apply sign_in_failed; auto. }
  destruct (truthy error) eqn:Herror.
  { apply sign_in_failed; auto. }
  destruct (onAuthSuccess env) as [u|e] eqn:Hcb; simpl; eapply signed_in; eauto.
Qed.

End AuthFacts.

(** X26.  What one run of [handleSubmit] of the sign-in form can do.  It
    always ends with [loading] false and leaves the fields and the mode of
    the form alone, and it makes at most one call to the auth provider.
    [onAuthSuccess] is called only in sign-up or sign-in mode, directly after
    the provider call, and only when that call reported no error (and, for a
    sign-up, a user, with the two passwords equal).  A sign-up with differing
    passwords calls nothing but [console.error] and shows "Passwords do not
    match".  In forgot-password mode only the reset call is made, whatever
    the sign-up flag says, and the reset message is shown only after a reset
    without error.  The handler rejects only when the value thrown was null
    or undefined. *)
Theorem handleSubmit_outcomes (env : Auth.provider) (st : Auth.state) :
  let r := fst (fst (Auth.handleSubmit env st)) in
  let st' := snd (fst (Auth.handleSubmit env st)) in
  let called := snd (Auth.handleSubmit env st) in
  (Auth.email st' = Auth.email st /\ Auth.password st' = Auth.password st /\
   Auth.confirmPassword st' = Auth.confirmPassword st /\
   Auth.isSignUp st' = Auth.isSignUp st /\
   Auth.isForgotPassword st' = Auth.isForgotPassword st /\ Auth.loading st' = false) /\
  (length (List.filter Auth.is_provider_call called) <= 1)%nat /\
  (In Auth.OnAuthSuccess called ->
     Auth.isForgotPassword st = false /\
     (Auth.isSignUp st = true ->
        Auth.password st = Auth.confirmPassword st /\
        exists user error,
          Auth.signUp env (Auth.email st) (Auth.password st) = Normal (user, error) /\
          truthy user = true /\ truthy error = false) /\
     (Auth.isSignUp st = false ->
        exists error,
          Auth.signInWithPassword env (Auth.email st) (Auth.password st) = Normal error /\
          truthy error = false) /\
     exists call rest,
       Auth.is_provider_call call = true /\ called = call :: Auth.OnAuthSuccess :: rest) /\
  (Auth.isForgotPassword st = false -> Auth.isSignUp st = true ->
   Auth.password st <> Auth.confirmPassword st ->
     r = Normal tt /\
     called = [Auth.ConsoleError "Auth error:" (Error "Passwords do not match")] /\
     Auth.error st' = text "Passwords do not match" /\ Auth.message st' = None) /\
  (Auth.isForgotPassword st = true ->
     forall ev, In ev called ->
       ev = Auth.ResetPasswordForEmail (Auth.email st) \/
       exists e, ev = Auth.ConsoleError "Auth error:" e) /\
  (forall m, Auth.message st' = Some m ->
     Auth.isForgotPassword st = true /\ Auth.error st' = null /\ r = Normal tt /\
     called = [Auth.ResetPasswordForEmail (Auth.email st)]) /\
  (forall e, r = Throw e ->
     exists err, (err = null \/ err = undefined) /\ e = Auth.type_error env err).
Proof.
  pose proof (handleSubmit_of_submit env st) as Hrun.
  pose proof (submit_submitted env st) as Hcase.
  destruct (Auth.handleSubmit env st) as [[r st'] called]. simpl.
  destruct Hrun as (He & Hp & Hc & Hs & Hf & Hl & Hmsg & Hend).
  split; [auto 10|]. clear He Hp Hc Hs Hf Hl.
  destruct (Auth.submit env st) as [[b calls] msg]. simpl in Hmsg, Hend.
  inversion Hcase as
    [error Hforgot Hreset Herror
    |err Hforgot Hreset
    |Hforgot Hmode Hdiff
    |err Hforgot Hmode Hsame Hup
    |user error r0 Hforgot Hmode Hsame Hup Herror Huser Hcb
    |err Hforgot Hmode Hin
    |error r0 Hforgot Hmode Hin Herror Hcb]; subst b calls msg; simpl in Hend.
  - (* reset sent *)
    destruct Hend as (-> & -> & Herr). simpl.
    split; [lia|]. split; [intros [Hev|[]]; discriminate|].
    split; [congruence|]. split; [intros _ ev [<-|[]]; auto|].
    split; [auto|]. discriminate.
  - (* reset failed *)
    destruct Hend as (-> & Hmessage). simpl.
    split; [lia|]. split; [intros [Hev|[Hev|[]]]; discriminate|].
    split; [congruence|]. split; [intros _ ev [<-|[<-|[]]]; eauto|].
    split; [congruence|].
    intros e ->. destruct (Auth.message_of env err) eqn:Hm;
      [destruct Hmessage; discriminate|].
    destruct Hmessage as [Heq _]. injection Heq as <-.
    apply message_of_throws in Hm as [Hm ->]. eauto.
  - (* passwords differ *)
    destruct Hend as (-> & -> & Herr). simpl.
    split; [lia|]. split; [intros [Hev|[]]; discriminate|].
    split; [auto|]. split; [congruence|]. split; [congruence|]. discriminate.
  - (* sign-up failed *)
    destruct Hend as (-> & Hmessage). simpl.
    split; [lia|]. split; [intros [Hev|[Hev|[]]]; discriminate|].
    split; [congruence|]. split; [congruence|]. split; [congruence|].
    intros e ->. destruct (Auth.message_of env err) eqn:Hm;
      [destruct Hmessage; discriminate|].
    destruct Hmessage as [Heq _]. injection Heq as <-.
    apply message_of_throws in Hm as [Hm ->]. eauto.
  - (* signed up *)
    assert (Hcalled : exists rest,
              called = Auth.SignUp (Auth.email st) (Auth.password st)
                       :: Auth.OnAuthSuccess :: rest).
    { destruct Hcb as [->|(e & -> & _)]; simpl in Hend.
      - destruct Hend as (_ & -> & _). eauto.
      - destruct Hend as (-> & _). eauto. }
    destruct Hcalled as (rest & Hcalled).
    assert (Hrest : rest = [] \/ exists e, rest = [Auth.ConsoleError "Auth error:" e]).
    { destruct Hcb as [->|(e & -> & _)]; simpl in Hend.
      - destruct Hend as (_ & Heq & _). rewrite Hcalled in Heq. injection Heq as ->. auto.
      - destruct Hend as (Heq & _). rewrite Hcalled in Heq. injection Heq as ->. eauto. }
    split; [|split; [|split; [congruence|split; [congruence|split]]]].
    + rewrite Hcalled. destruct Hrest as [->|(e & ->)]; simpl; lia.
    + intros _. split; [exact Hforgot|]. split; [eauto 8|]. split; [congruence|].
      exists (Auth.SignUp (Auth.email st) (Auth.password st)), rest. auto.
    + congruence.
    + intros e ->. destruct Hcb as [->|(e' & -> & _)]; simpl in Hend;
        [destruct Hend as (Heq & _); discriminate|].
      destruct (Auth.message_of env e') eqn:Hm;
        [destruct Hend as (_ & Heq & _); discriminate|].
      destruct Hend as (_ & Heq & _). injection Heq as <-.
      apply message_of_throws in Hm as [Hm ->]. eauto.
  - (* sign-in failed *)
    destruct Hend as (-> & Hmessage). simpl.
    split; [lia|]. split; [intros [Hev|[Hev|[]]]; discriminate|].
    split; [congruence|]. split; [congruence|]. split; [congruence|].
    intros e ->. destruct (Auth.message_of env err) eqn:Hm;
      [destruct Hmessage; discriminate|].
    destruct Hmessage as [Heq _]. injection Heq as <-.
    apply message_of_throws in Hm as [Hm ->]. eauto.
  - (* signed in *)
    assert (Hcalled : exists rest,
              called = Auth.SignInWithPassword (Auth.email st) (Auth.password st)
                       :: Auth.OnAuthSuccess :: rest).
    { destruct Hcb as [->|(e & -> & _)]; simpl in Hend.
      - destruct Hend as (_ & -> & _). eauto.
      - destruct Hend as (-> & _). eauto. }
    destruct Hcalled as (rest & Hcalled).
    assert (Hrest : rest = [] \/ exists e, rest = [Auth.ConsoleError "Auth error:" e]).
    { destruct Hcb as [->|(e & -> & _)]; simpl in Hend.
      - destruct Hend as (_ & Heq & _). rewrite Hcalled in Heq. injection Heq as ->. auto.
      - destruct Hend as (Heq & _). rewrite Hcalled in Heq. injection Heq as ->. eauto. }
    split; [|split; [|split; [congruence|split; [congruence|split]]]].
    + rewrite Hcalled. destruct Hrest as [->|(e & ->)]; simpl; lia.
    + intros _. split; [exact Hforgot|]. split; [congruence|]. split; [eauto|].
      exists (Auth.SignInWithPassword (Auth.email st) (Auth.password st)), rest. auto.
    + congruence.
    + intros e ->. destruct Hcb as [->|(e' & -> & _)]; simpl in Hend;
        [destruct Hend as (Heq & _); discriminate|].
      destruct (Auth.message_of env e') eqn:Hm;
        [destruct Hend as (_ & Heq & _); discriminate|].
      destruct Hend as (_ & Heq & _). injection Heq as <-.
      apply message_of_throws in Hm as [Hm ->]. eauto.
Qed.

(** X27.  [handleGoogleSignIn] makes exactly one call, the OAuth sign-in with
    the provider "google", and never calls [onAuthSuccess].  It leaves the
    fields and the mode of the form alone and shows no message.  When the
    call reports no error the handler returns with [loading] still true and
    no error shown: unlike [handleSubmit] it has no [finally] block.
    [loading] ends false only when the call failed with a value whose
    [message] could be read, and that message is then the error shown.
    [resetForm] afterwards clears fields, error and message and keeps
    [loading] and the mode. *)
Theorem handleGoogleSignIn_outcomes (env : Auth.provider) (st : Auth.state) :
  let r := fst (fst (Auth.handleGoogleSignIn env st)) in
  let st' := snd (fst (Auth.handleGoogleSignIn env st)) in
  let called := snd (Auth.handleGoogleSignIn env st) in
  called = [Auth.SignInWithOAuth "google"] /\
  (Auth.email st' = Auth.email st /\ Auth.password st' = Auth.password st /\
   Auth.confirmPassword st' = Auth.confirmPassword st /\
   Auth.isSignUp st' = Auth.isSignUp st /\
   Auth.isForgotPassword st' = Auth.isForgotPassword st /\ Auth.message st' = None) /\
  (forall error, Auth.signInWithOAuth env "google" = Normal error -> truthy error = false ->
     r = Normal tt /\ Auth.loading st' = true /\ Auth.error st' = null) /\
  (Auth.loading st' = false ->
     exists err,
       (Auth.signInWithOAuth env "google" = Throw err \/
        Auth.signInWithOAuth env "google" = Normal err /\ truthy err = true) /\
       Auth.message_of env err = Normal (Auth.error st') /\ r = Normal tt) /\
  (forall e, r = Throw e ->
     exists err, (err = null \/ err = undefined) /\ e = Auth.type_error env err) /\
  Auth.resetForm st' =
    Auth.State "" "" "" (Auth.isSignUp st) (Auth.isForgotPassword st) null None
               (Auth.loading st').
Proof.
  cbv zeta. unfold Auth.handleGoogleSignIn.
  destruct (Auth.signInWithOAuth env "google") as [error|e] eqn:Hcall.
  - destruct (truthy error) eqn:Herror.
    + destruct (Auth.message_of env error) as [m|te] eqn:Hm; simpl.
      * split; [reflexivity|]. split; [auto 10|]. split; [intros ? Heq; congruence|].
        split; [intros _; exists error; auto|]. split; [discriminate|reflexivity].
      * split; [reflexivity|]. split; [auto 10|]. split; [intros ? Heq; congruence|].
        split; [discriminate|]. split; [|reflexivity].
        intros e Heq. injection Heq as <-.
        apply message_of_throws in Hm as [Hm ->]. eauto.
    + simpl. split; [reflexivity|]. split; [auto 10|]. split; [auto|].
      split; [discriminate|]. split; [discriminate|reflexivity].
  - destruct (Auth.message_of env e) as [m|te] eqn:Hm; simpl.
    + split; [reflexivity|]. split; [auto 10|]. split; [discriminate|].
      split; [intros _; exists e; auto|]. split; [discriminate|reflexivity].
    + split; [reflexivity|]. split; [auto 10|]. split; [discriminate|].
      split; [discriminate|]. split; [|reflexivity].
      intros e' Heq. injection Heq as <-.
      apply message_of_throws in Hm as [Hm ->]. eauto.
Qed.

(** * Properties of the message list *)

(** X28.  What [MessageList] shows for a message, whatever the [userProfiles]
    prop holds.  A message is shown as a centred note exactly when its sender
    is "system", and then its text is the inner HTML of the note as it is,
    whoever looks at it.  Every other message is shown as a bubble whose
    display name and avatar source are never empty: the name is the name
    found for the sender when that is truthy, else the sender up to its first
    "@" when that is not empty, else "Unknown User".  The bubble counts as
    the viewer's own exactly when the sender is the current user. *)
Theorem render_outcomes (currentUser : string) (userProfiles : Msgs.profiles)
    (m : Schema.Message.row) :
  (Schema.Message.sender m = "system" <->
     Msgs.render currentUser userProfiles m =
       Msgs.SystemNote (Schema.Message.id m) (Schema.Message.text m)) /\
  (Schema.Message.sender m <> "system" ->
     exists src displayName,
       Msgs.render currentUser userProfiles m =
         Msgs.Bubble (Schema.Message.id m)
                     (String.eqb (Schema.Message.sender m) currentUser)
                     src displayName (Schema.Message.text m) /\
       truthy src = true /\ truthy displayName = true /\
       (truthy (Msgs.name_at userProfiles (Schema.Message.sender m)) = true ->
          displayName = Msgs.name_at userProfiles (Schema.Message.sender m)) /\
       (truthy (Msgs.name_at userProfiles (Schema.Message.sender m)) = false ->
          displayName =
            text (if String.eqb (Client.before_at (Schema.Message.sender m)) ""
                  then "Unknown User" else Client.before_at (Schema.Message.sender m)))) /\
  (forall viewer others,
     Schema.Message.sender m = "system" ->
     Msgs.render viewer others m = Msgs.render currentUser userProfiles m).
Proof.
  unfold Msgs.render, Msgs.isSystemMessage.
  destruct (String.eqb_spec (Schema.Message.sender m) "system") as [Hsys|Hother].
  - split; [tauto|]. split; [contradiction|].
    intros viewer others _. reflexivity.
  - split; [split; [contradiction|discriminate]|]. split; [|contradiction].
    intros _. eexists _, _. split; [reflexivity|]. unfold Msgs.or_else.
    split; [|split; [|split]].
    + destruct (truthy (Msgs.picture_at userProfiles _)) eqn:Hpic; [exact Hpic|reflexivity].
    + destruct (truthy (Msgs.name_at userProfiles _)) eqn:Hname; [exact Hname|].
      simpl. destruct (String.eqb (Client.before_at _) "") eqn:Hlocal; simpl;
        [reflexivity|rewrite Hlocal; reflexivity].
    + intros ->. reflexivity.
    + intros ->. simpl.
      destruct (String.eqb (Client.before_at _) ""); reflexivity.
Qed.

(** X29.  The sender "system" is not reserved.  The insert policy of
    [messages] looks at the group of the new row only, so a member of a group
    can store a message of that group with sender "system" and any text;
    every member of the group then reads it, and [MessageList] shows its text
    as the inner HTML of a system note to every one of them. *)
Theorem system_sender_not_reserved (uid : string) (m : Schema.Message.row)
    (d : Schema.db) :
  Schema.Message.sender m = "system" ->
  Schema.member_of_message_group uid d m = true ->
  (forall m0, In m0 (Schema.messages d) -> Schema.Message.id m0 <> Schema.Message.id m) ->
  exists d',
    Schema.insert_message uid m d = inr d' /\
    forall reader currentUser userProfiles,
      Schema.member_of_message_group reader d m = true ->
      In m (Schema.select_messages reader d') /\
      In (Msgs.SystemNote (Schema.Message.id m) (Schema.Message.text m))
         (Msgs.MessageList (Schema.select_messages reader d') currentUser userProfiles).
Proof.
  intros Hsys Hmember Hfresh.
  assert (Hins : exists d', Schema.insert_message uid m d = inr d').
  { unfold Schema.insert_message. rewrite Hmember. simpl.
    destruct (existsb _ (Schema.messages d)) eqn:Hex; [|eauto].
    apply List.existsb_exists in Hex as (m0 & Hm0 & Heq). apply String.eqb_eq in Heq.
    exfalso. exact (Hfresh m0 Hm0 Heq). }
  destruct Hins as (d' & Hins). exists d'. split; [exact Hins|].
  intros reader currentUser userProfiles Hreader.
  apply insert_message_ok in Hins as (_ & Hmsgs & Hgms).
  assert (Hin : In m (Schema.select_messages reader d')).
  { unfold Schema.select_messages. apply List.filter_In. split.
    - rewrite Hmsgs. apply List.in_or_app. right. left. reflexivity.
    - apply (member_of_message_group_mono reader d d'); [|exact Hreader].
      intros gm. rewrite Hgms. auto. }
  split; [exact Hin|]. unfold Msgs.MessageList. apply List.in_map_iff. exists m.
  split; [|exact Hin]. unfold Msgs.render, Msgs.isSystemMessage.
  rewrite Hsys. reflexivity.
Qed.

Lemma system_sender_not_reserved_witness :
  let m := Schema.Message.Row "message-9" "<b>notice</b>" "system" (Some "group-1") in
  exists d',
    Schema.insert_message "user-3" m Sample.database = inr d' /\
    forall reader currentUser userProfiles,
      Schema.member_of_message_group reader Sample.database m = true ->
      In m (Schema.select_messages reader d') /\
      In (Msgs.SystemNote (Schema.Message.id m) (Schema.Message.text m))
         (Msgs.MessageList (Schema.select_messages reader d') currentUser userProfiles).
Proof.
  apply (system_sender_not_reserved "user-3"
           (Schema.Message.Row "message-9" "<b>notice</b>" "system" (Some "group-1"))
           Sample.database).
  - reflexivity.
  - reflexivity.
  - intros m0 [<-|[<-|[<-|[]]]]; discriminate.
Defined.

(** * Properties of the topics input *)

Section TopicFacts.

Import Prof.

Lemma split_comma_cons s : exists piece pieces, split_comma s = piece :: pieces.
Proof.
  induction s as [|c s (piece & pieces & IH)]; simpl; [eauto|].
  destruct (Ascii.eqb c ","); [eauto|]. rewrite IH. eauto.
Qed.

(** Splitting at a comma splits the list of pieces. *)
Lemma split_comma_app s t :
  split_comma (s ++ String "," t) = split_comma s ++ split_comma t.
Proof.
  induction s as [|c s IH]; simpl; [reflexivity|].
  destruct (Ascii.eqb c ","); [rewrite IH; reflexivity|].
  rewrite IH. destruct (split_comma_cons s) as (piece & pieces & ->). reflexivity.
Qed.

Lemma split_comma_plain s : has_comma s = false -> split_comma s = [s].
Proof.
  induction s as [|c s IH]; simpl; [reflexivity|].
  destruct (Ascii.eqb c ","); [discriminate|]. simpl. intros Hs. rewrite (IH Hs). reflexivity.
Qed.

Lemma split_comma_space s :
  split_comma (String " " s) =
  match split_comma s with
  | piece :: pieces => String " " piece :: pieces
  | [] => [String " " EmptyString]
  end.
Proof. reflexivity. Qed.

Lemma split_comma_pieces s piece : In piece (split_comma s) -> has_comma piece = false.
Proof.
  revert piece. induction s as [|c s IH]; simpl; intros piece Hin.
  - destruct Hin as [<-|[]]. reflexivity.
  - destruct (Ascii.eqb c ",") eqn:Hc.
    + destruct Hin as [<-|Hin]; [reflexivity|auto].
    + destruct (split_comma_cons s) as (p & ps & Heq). rewrite Heq in Hin, IH.
      destruct Hin as [<-|Hin].
      * simpl. rewrite Hc. apply IH. left. reflexivity.
      * apply IH. right. exact Hin.
Qed.

Lemma trim_start_comma s : has_comma s = false -> has_comma (trim_start s) = false.
Proof.
  induction s as [|c s IH]; simpl; [reflexivity|]. intros Hs.
  destruct (is_white_space c); [|exact Hs].
  apply IH. apply orb_false_iff in Hs. apply Hs.
Qed.

Lemma trim_end_comma s : has_comma s = false -> has_comma (trim_end s) = false.
Proof.
  induction s as [|c s IH]; simpl; [reflexivity|]. intros Hs.
  apply orb_false_iff in Hs as [Hc Hs]. specialize (IH Hs).
  destruct (trim_end s) as [|c' kept]; simpl.
  - destruct (is_white_space c); simpl; [reflexivity|]. rewrite Hc. reflexivity.
  - rewrite Hc. exact IH.
Qed.

Lemma trim_start_twice s : trim_start (trim_start s) = trim_start s.
Proof.
  induction s as [|c s IH]; simpl; [reflexivity|].
  destruct (is_white_space c) eqn:Hc; [exact IH|]. simpl. rewrite Hc. reflexivity.
Qed.

Lemma trim_end_twice s : trim_end (trim_end s) = trim_end s.
Proof.
  induction s as [|c s IH]; simpl; [reflexivity|].
  destruct (trim_end s) as [|c' kept] eqn:Hs.
  - destruct (is_white_space c) eqn:Hc; simpl; [reflexivity|]. rewrite Hc. reflexivity.
  - simpl in *. rewrite IH. reflexivity.
Qed.

(** Trimming the end keeps a start that is no white space. *)
Lemma trim_start_end s : trim_start s = s -> trim_start (trim_end s) = trim_end s.
Proof.
  destruct s as [|c s]; simpl; [reflexivity|].
  destruct (is_white_space c) eqn:Hc.
  - intros Heq. exfalso.
    assert (Hlen : (String.length (trim_start s) <= String.length s)%nat).
    { clear. induction s as [|c s IH]; simpl; [lia|].
      destruct (is_white_space c); simpl; lia. }
    rewrite Heq in Hlen. simpl in Hlen. lia.
  - intros _. destruct (trim_end s) as [|c' kept]; simpl; rewrite Hc; reflexivity.
Qed.

Lemma trim_twice s : trim (trim s) = trim s.
Proof.
  unfold trim. rewrite (trim_start_end (trim_start s)) by apply trim_start_twice.
  apply trim_end_twice.
Qed.

Lemma trim_space s : trim (String " " s) = trim s.
Proof. reflexivity. Qed.

Lemma parse_topics_stored s t : In t (parse_topics s) -> stored_topic t.
Proof.
  unfold parse_topics. intros Hin. apply List.filter_In in Hin as [Hin Hne].
  apply List.in_map_iff in Hin as (piece & <- & Hpiece).
  split; [|split].
  - apply negb_true_iff, String.eqb_neq in Hne. exact Hne.
  - apply trim_twice.
  - apply trim_end_comma, trim_start_comma, (split_comma_pieces s), Hpiece.
Qed.

(** The pieces of the text shown for stored topics. *)
Lemma split_show_topics t ts :
  (forall t', In t' (t :: ts) -> has_comma t' = false) ->
  split_comma (show_topics (t :: ts)) = t :: map (String " ") ts.
Proof.
  revert t. induction ts as [|t' ts IH]; intros t Hts.
  - simpl. apply split_comma_plain, Hts. left. reflexivity.
  - change (show_topics (t :: t' :: ts))
      with (t ++ String "," (String " " (show_topics (t' :: ts))))%string.
    rewrite split_comma_app, split_comma_plain by (apply Hts; left; reflexivity).
    rewrite split_comma_space, IH by (intros t0 Ht0; apply Hts; right; exact Ht0).
    reflexivity.
Qed.

Lemma parse_show_topics ts :
  (forall t, In t ts -> stored_topic t) -> parse_topics (show_topics ts) = ts.
Proof.
  intros Hts. destruct ts as [|t ts]; [reflexivity|].
  unfold parse_topics. rewrite split_show_topics by (intros t' Ht'; apply Hts, Ht').
  simpl map. rewrite List.map_map.
  assert (Hmap : map (fun x => trim (String " " x)) ts = ts).
  { rewrite <- (List.map_id ts) at 2. apply List.map_ext_in.
    intros t' Ht'. rewrite trim_space. apply Hts. right. exact Ht'. }
  rewrite Hmap, (proj1 (proj2 (Hts t (or_introl eq_refl)))).
  apply List.forallb_filter_id. apply List.forallb_forall.
  intros t' Ht'. apply negb_true_iff, String.eqb_neq, (Hts t' Ht').
Qed.

End TopicFacts.

(** X30.  The topics input of the profile editor.  Whatever is typed, the
    topics stored are not empty, carry no white space at either end and no
    comma.  For topics of that kind the text the input shows is read back as
    the same topics, so showing and reading back what was stored changes
    nothing; and a comma typed at the end of the shown text is dropped: the
    topics stored, and with them the text shown, stay as they were. *)
Theorem topics_round_trip :
  (forall value t, In t (Prof.parse_topics value) -> Prof.stored_topic t) /\
  (forall topics, (forall t, In t topics -> Prof.stored_topic t) ->
     Prof.parse_topics (Prof.show_topics topics) = topics /\
     Prof.parse_topics (Prof.show_topics topics ++ ",") = topics) /\
  (forall value,
     Prof.parse_topics (Prof.show_topics (Prof.parse_topics value))
       = Prof.parse_topics value).
Proof.
  split; [exact parse_topics_stored|]. split.
  - intros topics Htopics. split; [apply parse_show_topics, Htopics|].
    unfold Prof.parse_topics at 1.
    rewrite split_comma_app, List.map_app, List.filter_app. simpl.
    fold (Prof.parse_topics (Prof.show_topics topics)).
    rewrite parse_show_topics by exact Htopics. apply app_nil_r.
  - intros value. apply parse_show_topics. apply parse_topics_stored.
Qed.

(** * More runs on the sample data *)

Example parse_topics_typed :
  Prof.parse_topics " gaming,  music ,,technology, " = ["gaming"; "music"; "technology"].
Proof. vm_compute. reflexivity. Qed.

Example show_topics_stored :
  Prof.show_topics ["gaming"; "music"; "technology"] = "gaming, music, technology".
Proof. vm_compute. reflexivity. Qed.

Example reconnect_delays :
  map (Lib.reconnectAfterMs Lib.Later) [0; 1; 5; 6; 20] = [1000; 2000; 32000; 60000; 60000].
Proof. vm_compute. reflexivity. Qed.

Example fetchProfile_finds_late_row :
  let run := Dash.fetchProfile_among "user-2" Sample.stickman Sample.late_trigger
               Sample.dashboard (Sample.session Sample.bob) in
  Dash.profile (fst run) = Some (Schema.new_user_profile Sample.stickman "Zm9vYmFy" Sample.bob) /\
  Dash.error (fst run) = None /\
  Client.timeouts (snd run) = [1000] /\
  Client.server_draws (snd run) = 0%nat.
Proof. vm_compute. repeat split. Qed.

Example sign_up_trigger_for_bob :
  Schema.user_profiles
    (Schema.handle_new_user Sample.stickman (Some "Zm9vYmFy") Sample.bob Sample.database)
  = [Sample.carol; Schema.new_user_profile Sample.stickman "Zm9vYmFy" Sample.bob].
Proof. vm_compute. reflexivity. Qed.

Example view_code_for_codeless :
  fst (fst (Schema.generate_unique_view_code Fixture.always_first "user-2" 0
              Fixture.first_migration))
  = Schema.Returned "AAAAAAAA".
Proof. vm_compute. reflexivity. Qed.

Example render_by_profile :
  Msgs.MessageList (Schema.select_messages "user-3" Sample.database) "ada@example.org"
                   (Msgs.of_rows {[ "ada@example.org" := Sample.carol ]})
  = [Msgs.Bubble "message-1" true
       (text "https://api.dicebear.com/7.x/avataaars/svg?seed=ada@example.org")
       (text "carol") "hello";
     Msgs.SystemNote "message-2" "welcome"].
Proof. vm_compute. reflexivity. Qed.

Example sign_up_with_differing_passwords :
  let env := {| Auth.resetPasswordForEmail := fun _ => Normal null;
                Auth.signUp := fun _ _ => Normal (object [("id", text "user-9")], null);
                Auth.signInWithPassword := fun _ _ => Normal null;
                Auth.signInWithOAuth := fun _ => Normal null;
                Auth.onAuthSuccess := Normal tt;
                Auth.type_error := fun _ => Error "TypeError" |} in
  Auth.handleSubmit env (Auth.State "eve@example.org" "secret" "secert" true false null None false)
  = (Normal tt,
     Auth.State "eve@example.org" "secret" "secert" true false
                (text "Passwords do not match") None false,
     [Auth.ConsoleError "Auth error:" (Error "Passwords do not match")]).
Proof. vm_compute. reflexivity. Qed.
